(** * The KGSL IOMMU backend (drivers/gpu/msm/kgsl_iommu.c)

    A shallow embedding of the IOMMU flavour of the KGSL GPU MMU layer:
    context discovery ([kgsl_iommu_init]), the attach/detach loops, the
    start/stop life cycle, the pagetable switch ([kgsl_iommu_setstate]) and
    the map/unmap entry points.

    Conventions.
    - Pointers are integers, [0] is [NULL].
    - A function that can hit [BUG_ON] or dereference an invalid pointer
      returns an [outcome]; [Bug] is the kernel assertion, [Fault] the invalid
      access.
    - Every call that leaves the file (IOMMU driver, device idle, allocator,
      platform lookup, logging) is recorded in a trace of [event]s, newest
      first.  What the callee answers is taken from the [platform] record,
      as a function of the history so far. *)

From Stdlib Require Import ZArith List Bool String Lia.
Import ListNotations.
Local Open Scope string_scope.
Local Open Scope list_scope.
Local Open Scope Z_scope.

(** ** Outcomes of kernel code *)

Inductive outcome (A : Type) : Type :=
| Ok (a : A)
| Bug
| Fault.

Arguments Ok {A} a.
Arguments Bug {A}.
Arguments Fault {A}.

Definition obind {A B : Type} (x : outcome A) (k : A -> outcome B) : outcome B :=
  match x with
  | Ok a => k a
  | Bug => Bug
  | Fault => Fault
  end.

Notation "'let*' p ':=' c 'in' k" :=
  (obind c (fun p => k))
    (at level 61, p pattern, c at next level, right associativity).

(** ** Calls that leave the file *)

Inductive loglevel : Type := LOG_ERR | LOG_INFO.

Inductive event : Type :=
| EvKzalloc (ok : bool)
| EvKfree
| EvGetCtx (name : string) (handle : Z)
| EvRegwrite (reg val : Z)
| EvGetPagetable (name pt : Z)
| EvIdle (timeout rc : Z)
| EvAttach (domain dev rc : Z)
| EvDetach (domain dev : Z)
| EvMapRange (domain iova sg size prot rc : Z)
| EvUnmapRange (domain iova size rc : Z)
| EvLog (lvl : loglevel) (msg : string).

(** Constants of headers that are not part of the translated file, and the
    answers of the collaborators.  [pt_priv pt] is the [priv] field (the
    IOMMU domain) of the [struct kgsl_pagetable] living at address [pt], if
    one lives there; this file never writes that field. *)
Record platform : Type := {
  KGSL_FLAGS_STARTED : Z;
  KGSL_IOMMU_MAX_UNITS : nat;
  KGSL_IOMMU_MAX_DEVS_PER_UNIT : nat;
  KGSL_IOMMU_CONTEXT_USER : Z;
  KGSL_IOMMU_CONTEXT_PRIV : Z;
  KGSL_MMU_ALIGN_MASK : Z;
  KGSL_MMU_GLOBAL_PT : Z;
  KGSL_TIMEOUT_DEFAULT : Z;
  MH_MMU_CONFIG : Z;
  IOMMU_READ : Z;
  IOMMU_WRITE : Z;
  kzalloc : list event -> bool;
  msm_iommu_get_ctx : string -> Z;
  kgsl_mmu_getpagetable : list event -> Z -> Z;
  kgsl_idle : list event -> Z -> Z;
  iommu_attach_device : list event -> Z -> Z -> Z;
  iommu_map_range : list event -> Z -> Z -> Z -> Z -> Z -> Z;
  iommu_unmap_range : list event -> Z -> Z -> Z -> Z;
  pt_priv : Z -> option Z
}.

Definition EINVAL : Z := 22.
Definition ENOMEM : Z := 12.

(** ** Data *)

(** [struct kgsl_iommu_device]. *)
Record kgsl_iommu_device : Type := {
  dev : Z;
  attached : bool;
  ctx_id : Z
}.

(** [struct kgsl_iommu_unit]: the array [dev[KGSL_IOMMU_MAX_DEVS_PER_UNIT]]
    and the number of entries in use. *)
Record kgsl_iommu_unit : Type := {
  devs : list kgsl_iommu_device;
  dev_count : nat
}.

(** [struct kgsl_iommu]. *)
Record kgsl_iommu : Type := {
  iommu_units : list kgsl_iommu_unit;
  unit_count : nat
}.

(** The fields of [struct kgsl_mmu] the backend touches; [priv = None] is a
    NULL private pointer. *)
Record kgsl_mmu : Type := {
  flags : Z;
  hwpagetable : Z;
  defaultpagetable : Z;
  priv : option kgsl_iommu
}.

(** Platform data: one [kgsl_iommu_ctxt] per declared context, one
    [kgsl_device_iommu_data] per unit.  An array with its count is a list. *)
Record kgsl_iommu_ctxt : Type := {
  iommu_ctx_name : option string;
  ctxt_ctx_id : Z
}.

Record kgsl_device_iommu_data : Type := {
  iommu_ctxs : list kgsl_iommu_ctxt
}.

Definition iommu_ctx_count (d : kgsl_device_iommu_data) : nat :=
  List.length (iommu_ctxs d).

Record kgsl_device_platform_data : Type := {
  iommu_data : list kgsl_device_iommu_data
}.

Definition iommu_count (p : kgsl_device_platform_data) : nat :=
  List.length (iommu_data p).

(** [struct kgsl_memdesc], the fields used here. *)
Record kgsl_memdesc : Type := {
  gpuaddr : Z;
  size : Z;
  sg : Z
}.

Definition state : Type := (kgsl_mmu * list event)%type.

(** Field updates. *)
Definition set_attached (b : bool) (d : kgsl_iommu_device) : kgsl_iommu_device :=
  {| dev := dev d; attached := b; ctx_id := ctx_id d |}.

Definition set_dev (h : Z) (d : kgsl_iommu_device) : kgsl_iommu_device :=
  {| dev := h; attached := attached d; ctx_id := ctx_id d |}.

Definition set_ctx_id (c : Z) (d : kgsl_iommu_device) : kgsl_iommu_device :=
  {| dev := dev d; attached := attached d; ctx_id := c |}.

Definition set_hwpagetable (p : Z) (m : kgsl_mmu) : kgsl_mmu :=
  {| flags := flags m; hwpagetable := p;
     defaultpagetable := defaultpagetable m; priv := priv m |}.

Definition set_defaultpagetable (p : Z) (m : kgsl_mmu) : kgsl_mmu :=
  {| flags := flags m; hwpagetable := hwpagetable m;
     defaultpagetable := p; priv := priv m |}.

Definition set_flags (f : Z) (m : kgsl_mmu) : kgsl_mmu :=
  {| flags := f; hwpagetable := hwpagetable m;
     defaultpagetable := defaultpagetable m; priv := priv m |}.

Definition set_priv (i : option kgsl_iommu) (m : kgsl_mmu) : kgsl_mmu :=
  {| flags := flags m; hwpagetable := hwpagetable m;
     defaultpagetable := defaultpagetable m; priv := i |}.

(** [a[i] = f (a[i])]; [None] when [i] is outside the array. *)
Fixpoint array_update {A : Type} (i : nat) (f : A -> A) (a : list A)
  {struct a} : option (list A) :=
  match a, i with
  | [], _ => None
  | x :: r, O => Some (f x :: r)
  | x :: r, S i' =>
      match array_update i' f r with
      | Some r' => Some (x :: r')
      | None => None
      end
  end.

(** What [kzalloc] hands out. *)
Definition zero_device : kgsl_iommu_device :=
  {| dev := 0; attached := false; ctx_id := 0 |}.

Definition zero_unit (P : platform) : kgsl_iommu_unit :=
  {| devs := repeat zero_device (KGSL_IOMMU_MAX_DEVS_PER_UNIT P);
     dev_count := 0 |}.

Definition zero_iommu (P : platform) : kgsl_iommu :=
  {| iommu_units := repeat (zero_unit P) (KGSL_IOMMU_MAX_UNITS P);
     unit_count := 0 |}.

Section Backend.

Variable P : platform.

(** [mmu->flags & KGSL_FLAGS_STARTED] *)
Definition started (m : kgsl_mmu) : bool :=
  negb (Z.land (flags m) (KGSL_FLAGS_STARTED P) =? 0).

(** ** kgsl_detach_pagetable_iommu_domain *)

(** The inner loop, [for (j = 0; j < dev_count; j++)] over [dev[]]. *)
Fixpoint detach_devs (domain : Z) (n : nat) (ds : list kgsl_iommu_device)
  (tr : list event) : outcome (list kgsl_iommu_device * list event) :=
  match n with
  | O => Ok (ds, tr)
  | S n' =>
      match ds with
      | [] => Fault
      | d :: rest =>
          if attached d then
            let tr1 := EvLog LOG_INFO "iommu detached from user dev of MMU"
                         :: EvDetach domain (dev d) :: tr in
            let* (rest', tr2) := detach_devs domain n' rest tr1 in
            Ok (set_attached false d :: rest', tr2)
          else
            let* (rest', tr2) := detach_devs domain n' rest tr in
            Ok (d :: rest', tr2)
      end
  end.

(** The outer loop, [for (i = 0; i < unit_count; i++)]. *)
Fixpoint detach_units (domain : Z) (n : nat) (us : list kgsl_iommu_unit)
  (tr : list event) : outcome (list kgsl_iommu_unit * list event) :=
  match n with
  | O => Ok (us, tr)
  | S n' =>
      match us with
      | [] => Fault
      | u :: rest =>
          let* (ds', tr1) := detach_devs domain (dev_count u) (devs u) tr in
          let* (rest', tr2) := detach_units domain n' rest tr1 in
          Ok ({| devs := ds'; dev_count := dev_count u |} :: rest', tr2)
      end
  end.

Definition kgsl_detach_pagetable_iommu_domain (m : kgsl_mmu) (tr : list event)
  : outcome state :=
  if hwpagetable m =? 0 then Bug
  else
    match pt_priv P (hwpagetable m) with
    | None => Fault
    | Some domain =>
        if domain =? 0 then Bug
        else
          match priv m with
          | None => Fault
          | Some iommu =>
              let* (us', tr') :=
                detach_units domain (unit_count iommu) (iommu_units iommu) tr in
              Ok (set_priv (Some {| iommu_units := us';
                                    unit_count := unit_count iommu |}) m, tr')
          end
    end.

(** ** kgsl_attach_pagetable_iommu_domain *)

(** The inner loop; a non-zero [ret] is the [goto done]. *)
Fixpoint attach_devs (domain : Z) (n : nat) (ds : list kgsl_iommu_device)
  (tr : list event) : outcome (Z * list kgsl_iommu_device * list event) :=
  match n with
  | O => Ok (0, ds, tr)
  | S n' =>
      match ds with
      | [] => Fault
      | d :: rest =>
          if attached d then
            let* (ret, rest', tr') := attach_devs domain n' rest tr in
            Ok (ret, d :: rest', tr')
          else
            let ret := iommu_attach_device P tr domain (dev d) in
            let tr1 := EvAttach domain (dev d) ret :: tr in
            if ret =? 0 then
              let tr2 := EvLog LOG_INFO "iommu pt attached to dev" :: tr1 in
              let* (ret', rest', tr') := attach_devs domain n' rest tr2 in
              Ok (ret', set_attached true d :: rest', tr')
            else
              Ok (ret, d :: rest,
                  EvLog LOG_ERR "Failed to attach device" :: tr1)
      end
  end.

Fixpoint attach_units (domain : Z) (n : nat) (us : list kgsl_iommu_unit)
  (tr : list event) : outcome (Z * list kgsl_iommu_unit * list event) :=
  match n with
  | O => Ok (0, us, tr)
  | S n' =>
      match us with
      | [] => Fault
      | u :: rest =>
          let* (ret, ds', tr1) :=
            attach_devs domain (dev_count u) (devs u) tr in
          let u' := {| devs := ds'; dev_count := dev_count u |} in
          if ret =? 0 then
            let* (ret', rest', tr2) := attach_units domain n' rest tr1 in
            Ok (ret', u' :: rest', tr2)
          else Ok (ret, u' :: rest, tr1)
      end
  end.

Definition kgsl_attach_pagetable_iommu_domain (m : kgsl_mmu) (tr : list event)
  : outcome (Z * kgsl_mmu * list event) :=
  if hwpagetable m =? 0 then Bug
  else
    match pt_priv P (hwpagetable m) with
    | None => Fault
    | Some domain =>
        if domain =? 0 then Bug
        else
          match priv m with
          | None => Fault
          | Some iommu =>
              let* (ret, us', tr') :=
                attach_units domain (unit_count iommu) (iommu_units iommu) tr in
              Ok (ret,
                  set_priv (Some {| iommu_units := us';
                                    unit_count := unit_count iommu |}) m,
                  tr')
          end
    end.

(** ** _get_iommu_ctxs *)

(** The loop over the declared contexts of one unit.  An entry without a name
    is skipped; the handle is stored in [dev[dev_count]] before it is
    checked. *)
Fixpoint get_ctxs_loop (ctxs : list kgsl_iommu_ctxt) (u : kgsl_iommu_unit)
  (tr : list event) : outcome (Z * kgsl_iommu_unit * list event) :=
  match ctxs with
  | [] => Ok (0, u, tr)
  | c :: rest =>
      match iommu_ctx_name c with
      | None => get_ctxs_loop rest u tr
      | Some name =>
          let h := msm_iommu_get_ctx P name in
          let tr1 := EvGetCtx name h :: tr in
          match array_update (dev_count u) (set_dev h) (devs u) with
          | None => Fault
          | Some ds1 =>
              let u1 := {| devs := ds1; dev_count := dev_count u |} in
              if h =? 0 then
                Ok (- EINVAL, u1,
                    EvLog LOG_ERR "Failed to get iommu dev handle for device"
                      :: tr1)
              else if negb (KGSL_IOMMU_CONTEXT_USER P =? ctxt_ctx_id c)
                      && negb (KGSL_IOMMU_CONTEXT_PRIV P =? ctxt_ctx_id c) then
                Ok (- EINVAL, u1,
                    EvLog LOG_ERR "Invalid context ID defined" :: tr1)
              else
                match array_update (dev_count u)
                        (set_ctx_id (ctxt_ctx_id c)) ds1 with
                | None => Fault
                | Some ds2 =>
                    get_ctxs_loop rest
                      {| devs := ds2; dev_count := S (dev_count u) |}
                      (EvLog LOG_INFO "Obtained dev handle for iommu context"
                         :: tr1)
                end
          end
      end
  end.

Definition _get_iommu_ctxs (iommu : kgsl_iommu) (data : kgsl_device_iommu_data)
  (unit_id : nat) (tr : list event) : outcome (Z * kgsl_iommu * list event) :=
  if (KGSL_IOMMU_MAX_DEVS_PER_UNIT P <? iommu_ctx_count data)%nat then
    Ok (- EINVAL, iommu,
        EvLog LOG_ERR "Too many iommu devices defined for an IOMMU unit" :: tr)
  else
    match nth_error (iommu_units iommu) unit_id with
    | None => Fault
    | Some u =>
        let* (ret, u', tr') := get_ctxs_loop (iommu_ctxs data) u tr in
        match array_update unit_id (fun _ => u') (iommu_units iommu) with
        | None => Fault
        | Some us' =>
            Ok (ret, {| iommu_units := us'; unit_count := unit_count iommu |},
                tr')
        end
    end.

(** ** kgsl_get_iommu_ctxt *)

(** [for (i = 0; i < iommu_count; i++)] with its [break]. *)
Fixpoint get_ctxt_loop (data : list kgsl_device_iommu_data) (i : nat)
  (iommu : kgsl_iommu) (tr : list event)
  : outcome (Z * kgsl_iommu * list event) :=
  match data with
  | [] => Ok (0, iommu, tr)
  | d :: rest =>
      let* (ret, iommu', tr') := _get_iommu_ctxs iommu d i tr in
      if ret =? 0 then get_ctxt_loop rest (S i) iommu' tr'
      else Ok (ret, iommu', tr')
  end.

Definition kgsl_get_iommu_ctxt (pdata_dev : kgsl_device_platform_data)
  (iommu : kgsl_iommu) (tr : list event)
  : outcome (Z * kgsl_iommu * list event) :=
  if (KGSL_IOMMU_MAX_UNITS P <? iommu_count pdata_dev)%nat then
    Ok (- EINVAL, iommu, EvLog LOG_ERR "Too many IOMMU units defined" :: tr)
  else
    let* (ret, iommu', tr') :=
      get_ctxt_loop (iommu_data pdata_dev) 0%nat iommu tr in
    Ok (ret, {| iommu_units := iommu_units iommu';
                unit_count := iommu_count pdata_dev |}, tr').

(** ** kgsl_iommu_setstate

    Returns nothing; the results of [kgsl_idle] and of the attach are
    dropped. *)
Definition kgsl_iommu_setstate (m : kgsl_mmu) (tr : list event)
  (pagetable : Z) (context_id : Z) : outcome state :=
  if started m then
    if negb (hwpagetable m =? pagetable) then
      let rc := kgsl_idle P tr (KGSL_TIMEOUT_DEFAULT P) in
      let tr1 := EvIdle (KGSL_TIMEOUT_DEFAULT P) rc :: tr in
      let* (m1, tr2) := kgsl_detach_pagetable_iommu_domain m tr1 in
      let m2 := set_hwpagetable pagetable m1 in
      if negb (hwpagetable m2 =? 0) then
        let* (_, m3, tr3) := kgsl_attach_pagetable_iommu_domain m2 tr2 in
        Ok (m3, tr3)
      else Ok (m2, tr2)
    else Ok (m, tr)
  else Ok (m, tr).

(** ** kgsl_iommu_init *)
Definition kgsl_iommu_init (pdata_dev : kgsl_device_platform_data)
  (m : kgsl_mmu) (tr : list event) : outcome (Z * kgsl_mmu * list event) :=
  if kzalloc P tr then
    let tr1 := EvKzalloc true :: tr in
    let* (status, iommu, tr2) :=
      kgsl_get_iommu_ctxt pdata_dev (zero_iommu P) tr1 in
    if status =? 0 then
      Ok (status, set_priv (Some iommu) m,
          EvLog LOG_INFO "MMU type set for device is IOMMU" :: tr2)
    else
      Ok (status, set_priv None m, EvKfree :: tr2)
  else
    Ok (- ENOMEM, m, EvLog LOG_ERR "kzalloc failed" :: EvKzalloc false :: tr).

(** ** kgsl_iommu_start *)
Definition kgsl_iommu_start (m : kgsl_mmu) (tr : list event)
  : outcome (Z * kgsl_mmu * list event) :=
  if started m then Ok (0, m, tr)
  else
    let tr1 := EvRegwrite (MH_MMU_CONFIG P) 0 :: tr in
    let '(m1, tr2) :=
      if defaultpagetable m =? 0 then
        let pt := kgsl_mmu_getpagetable P tr1 (KGSL_MMU_GLOBAL_PT P) in
        (set_defaultpagetable pt m,
         EvGetPagetable (KGSL_MMU_GLOBAL_PT P) pt :: tr1)
      else (m, tr1) in
    if defaultpagetable m1 =? 0 then Ok (- ENOMEM, m1, tr2)
    else
      let m2 := set_hwpagetable (defaultpagetable m1) m1 in
      let* (status, m3, tr3) := kgsl_attach_pagetable_iommu_domain m2 tr2 in
      if status =? 0 then
        Ok (status,
            set_flags (Z.lor (flags m3) (KGSL_FLAGS_STARTED P)) m3, tr3)
      else
        let* (m4, tr4) := kgsl_detach_pagetable_iommu_domain m3 tr3 in
        Ok (status, set_hwpagetable 0 m4, tr4).

(** ** kgsl_iommu_unmap *)
Definition kgsl_iommu_unmap (mmu_specific_pt : Z) (memdesc : kgsl_memdesc)
  (tr : list event) : Z * list event :=
  let range := size memdesc in
  let domain := mmu_specific_pt in
  let gpuaddr' := Z.land (gpuaddr memdesc) (KGSL_MMU_ALIGN_MASK P) in
  if (range =? 0) || (gpuaddr' =? 0) then (0, tr)
  else
    let ret := iommu_unmap_range P tr domain gpuaddr' range in
    let tr1 := EvUnmapRange domain gpuaddr' range ret :: tr in
    if negb (ret =? 0) then
      (0, EvLog LOG_ERR "iommu_unmap_range failed" :: tr1)
    else (0, tr1).

(** ** kgsl_iommu_map *)
Definition kgsl_iommu_map (mmu_specific_pt : Z) (memdesc : kgsl_memdesc)
  (protflags : Z) (tr : list event) : outcome (Z * list event) :=
  let domain := mmu_specific_pt in
  if domain =? 0 then Bug
  else
    let iommu_virt_addr := gpuaddr memdesc in
    let prot := Z.lor (IOMMU_READ P) (IOMMU_WRITE P) in
    let ret := iommu_map_range P tr domain iommu_virt_addr (sg memdesc)
                 (size memdesc) prot in
    let tr1 := EvMapRange domain iommu_virt_addr (sg memdesc) (size memdesc)
                 prot ret :: tr in
    if negb (ret =? 0) then
      Ok (ret, EvLog LOG_ERR "iommu_map_range failed" :: tr1)
    else Ok (ret, tr1).

(** ** kgsl_iommu_stop *)
Definition kgsl_iommu_stop (m : kgsl_mmu) (tr : list event)
  : outcome (Z * kgsl_mmu * list event) :=
  if started m then
    let* (m1, tr1) := kgsl_detach_pagetable_iommu_domain m tr in
    let m2 := set_hwpagetable 0 m1 in
    Ok (0, set_flags (Z.land (flags m2) (Z.lnot (KGSL_FLAGS_STARTED P))) m2,
        tr1)
  else Ok (0, m, tr).

(** ** kgsl_iommu_get_current_ptbase

    [device->mmu.hwpagetable->priv], with no check of the pointer. *)
Definition kgsl_iommu_get_current_ptbase (m : kgsl_mmu) : outcome Z :=
  if hwpagetable m =? 0 then Fault
  else
    match pt_priv P (hwpagetable m) with
    | None => Fault
    | Some domain => Ok domain
    end.

End Backend.

(** ** Observations *)

(** The contexts in use: [dev[0 .. dev_count-1]] of
    [iommu_units[0 .. unit_count-1]]. *)
Definition unit_contexts (u : kgsl_iommu_unit) : list kgsl_iommu_device :=
  firstn (dev_count u) (devs u).

Definition iommu_contexts (i : kgsl_iommu) : list kgsl_iommu_device :=
  flat_map unit_contexts (firstn (unit_count i) (iommu_units i)).

Definition contexts (m : kgsl_mmu) : list kgsl_iommu_device :=
  match priv m with
  | None => []
  | Some i => iommu_contexts i
  end.

Definition all_attached (m : kgsl_mmu) : Prop :=
  Forall (fun c => attached c = true) (contexts m).

Definition none_attached (m : kgsl_mmu) : Prop :=
  Forall (fun c => attached c = false) (contexts m).

(** The counts stay inside the arrays; [wf_mmu] is the state of a
    controller that has been initialised. *)
Definition wf_unit (u : kgsl_iommu_unit) : Prop :=
  (dev_count u <= List.length (devs u))%nat.

Definition wf_iommu (i : kgsl_iommu) : Prop :=
  (unit_count i <= List.length (iommu_units i))%nat /\
  Forall wf_unit (firstn (unit_count i) (iommu_units i)).

Definition wf_mmu (m : kgsl_mmu) : Prop :=
  exists i, priv m = Some i /\ wf_iommu i.

(** The domain the hardware context [d] is bound to, read off the history:
    the last successful attach of [d] that no detach of [d] followed. *)
Fixpoint hw_domain (tr : list event) (d : Z) : option Z :=
  match tr with
  | [] => None
  | EvAttach domain d' rc :: tr' =>
      if (d' =? d) && (rc =? 0) then Some domain else hw_domain tr' d
  | EvDetach _ d' :: tr' =>
      if d' =? d then None else hw_domain tr' d
  | _ :: tr' => hw_domain tr' d
  end.

Definition is_idle (e : event) : bool :=
  match e with EvIdle _ _ => true | _ => false end.

Definition is_failed_attach (e : event) : bool :=
  match e with EvAttach _ _ rc => negb (rc =? 0) | _ => false end.

Definition is_domain_call (e : event) : bool :=
  match e with
  | EvMapRange _ _ _ _ _ _ | EvUnmapRange _ _ _ _ => true
  | _ => false
  end.

Definition idle_waits (tr : list event) : nat :=
  List.length (filter is_idle tr).

Definition failed_attaches (tr : list event) : nat :=
  List.length (filter is_failed_attach tr).

Definition domain_calls (tr : list event) : list event :=
  filter is_domain_call tr.

(** ** Sequences of controller operations *)

Inductive op : Type :=
| OpInit (pdata_dev : kgsl_device_platform_data)
| OpStart
| OpStop
| OpSetstate (pagetable context_id : Z).

Definition exec (P : platform) (o : op) (s : state) : outcome state :=
  let (m, tr) := s in
  match o with
  | OpInit pd =>
      let* (_, m', tr') := kgsl_iommu_init P pd m tr in Ok (m', tr')
  | OpStart =>
      let* (_, m', tr') := kgsl_iommu_start P m tr in Ok (m', tr')
  | OpStop =>
      let* (_, m', tr') := kgsl_iommu_stop P m tr in Ok (m', tr')
  | OpSetstate pt ctx => kgsl_iommu_setstate P m tr pt ctx
  end.

Fixpoint run (P : platform) (ops : list op) (s : state) : outcome state :=
  match ops with
  | [] => Ok s
  | o :: rest => let* s' := exec P o s in run P rest s'
  end.

(** A controller nobody has initialised yet. *)
Definition fresh_mmu : kgsl_mmu :=
  {| flags := 0; hwpagetable := 0; defaultpagetable := 0; priv := None |}.

(** The invariant of the controller as the specification words it. *)
Definition MmuController_invariant (P : platform) (s : state) : Prop :=
  let (m, tr) := s in
  (started P m = true ->
     hwpagetable m <> 0 /\
     exists domain,
       pt_priv P (hwpagetable m) = Some domain /\
       Forall (fun c => attached c = true /\
                        hw_domain tr (dev c) = Some domain) (contexts m)) /\
  (started P m = false -> none_attached m).

(** Steps under which the invariant is kept: [init] on a controller
    that is not running, a switch to a pagetable that is not NULL during
    which no attach call fails. *)
Definition clean_step (P : platform) (o : op) (s : state) : bool :=
  match o with
  | OpInit _ => negb (started P (fst s))
  | OpSetstate pt _ =>
      negb (pt =? 0) &&
      match exec P o s with
      | Ok s' => (failed_attaches (snd s') =? failed_attaches (snd s))%nat
      | _ => true
      end
  | _ => true
  end.

Fixpoint clean_run (P : platform) (ops : list op) (s : state) : bool :=
  match ops with
  | [] => true
  | o :: rest =>
      clean_step P o s &&
      match exec P o s with
      | Ok s' => clean_run P rest s'
      | _ => true
      end
  end.

(** No switch of the sequence is given a NULL pagetable. *)
Definition no_null_switch (ops : list op) : bool :=
  forallb (fun o => match o with
                    | OpSetstate pt _ => negb (pt =? 0)
                    | _ => true
                    end) ops.

(** ** A board to run the code on

    Two pagetables, at 1000 (domain 5000, the global one) and at 2000
    (domain 6000); a pagetable without a domain at 3000.  Three hardware
    contexts.  [idle_rc] is what the idle wait answers, [bad_dev] a context
    the IOMMU driver refuses to attach, [alloc_ok] whether [kzalloc]
    succeeds; unmapping always fails with -EINVAL, mapping the range at
    0x5000 fails. *)
Definition board (idle_rc bad_dev : Z) (alloc_ok : bool) : platform :=
  {| KGSL_FLAGS_STARTED := 8;
     KGSL_IOMMU_MAX_UNITS := 2;
     KGSL_IOMMU_MAX_DEVS_PER_UNIT := 2;
     KGSL_IOMMU_CONTEXT_USER := 0;
     KGSL_IOMMU_CONTEXT_PRIV := 1;
     KGSL_MMU_ALIGN_MASK := -8192;
     KGSL_MMU_GLOBAL_PT := 0;
     KGSL_TIMEOUT_DEFAULT := 4294967295;
     MH_MMU_CONFIG := 64;
     IOMMU_READ := 1;
     IOMMU_WRITE := 2;
     kzalloc := fun _ => alloc_ok;
     msm_iommu_get_ctx := fun name =>
       if String.eqb name "ctxA" then 101
       else if String.eqb name "ctxB" then 102
       else if String.eqb name "ctxC" then 103
       else 0;
     kgsl_mmu_getpagetable := fun _ _ => 1000;
     kgsl_idle := fun _ _ => idle_rc;
     iommu_attach_device := fun _ _ d => if d =? bad_dev then -16 else 0;
     iommu_map_range := fun _ _ iova _ _ _ => if iova =? 20480 then -12 else 0;
     iommu_unmap_range := fun _ _ _ _ => -22;
     pt_priv := fun pt =>
       if pt =? 1000 then Some 5000
       else if pt =? 2000 then Some 6000
       else if pt =? 3000 then Some 0
       else None |}.

(** The same board with an IOMMU driver that refuses context 102 for the
    domain 6000, and for that domain only. *)
Definition picky_board : platform :=
  let B := board 0 0 true in
  {| KGSL_FLAGS_STARTED := KGSL_FLAGS_STARTED B;
     KGSL_IOMMU_MAX_UNITS := KGSL_IOMMU_MAX_UNITS B;
     KGSL_IOMMU_MAX_DEVS_PER_UNIT := KGSL_IOMMU_MAX_DEVS_PER_UNIT B;
     KGSL_IOMMU_CONTEXT_USER := KGSL_IOMMU_CONTEXT_USER B;
     KGSL_IOMMU_CONTEXT_PRIV := KGSL_IOMMU_CONTEXT_PRIV B;
     KGSL_MMU_ALIGN_MASK := KGSL_MMU_ALIGN_MASK B;
     KGSL_MMU_GLOBAL_PT := KGSL_MMU_GLOBAL_PT B;
     KGSL_TIMEOUT_DEFAULT := KGSL_TIMEOUT_DEFAULT B;
     MH_MMU_CONFIG := MH_MMU_CONFIG B;
     IOMMU_READ := IOMMU_READ B;
     IOMMU_WRITE := IOMMU_WRITE B;
     kzalloc := kzalloc B;
     msm_iommu_get_ctx := msm_iommu_get_ctx B;
     kgsl_mmu_getpagetable := kgsl_mmu_getpagetable B;
     kgsl_idle := kgsl_idle B;
     iommu_attach_device := fun _ domain d =>
       if (domain =? 6000) && (d =? 102) then -16 else 0;
     iommu_map_range := iommu_map_range B;
     iommu_unmap_range := iommu_unmap_range B;
     pt_priv := pt_priv B |}.

Definition ETIMEDOUT : Z := 110.

Definition ctxt (name : string) (id : Z) : kgsl_iommu_ctxt :=
  {| iommu_ctx_name := Some name; ctxt_ctx_id := id |}.

(** Unit 0 with one user context, unit 1 with a user and a privileged one. *)
Definition board_pdata : kgsl_device_platform_data :=
  {| iommu_data :=
       [ {| iommu_ctxs := [ctxt "ctxA" 0] |};
         {| iommu_ctxs := [ctxt "ctxB" 0; ctxt "ctxC" 1] |} ] |}.

(** One unit whose only entry has no name and a kind that does not exist. *)
Definition unnamed_pdata : kgsl_device_platform_data :=
  {| iommu_data :=
       [ {| iommu_ctxs := [ {| iommu_ctx_name := None; ctxt_ctx_id := 7 |} ] |} ] |}.

(** One unit that declares three contexts where two fit. *)
Definition crowded_pdata : kgsl_device_platform_data :=
  {| iommu_data :=
       [ {| iommu_ctxs := [ctxt "ctxA" 0; ctxt "ctxB" 0; ctxt "ctxC" 1] |} ] |}.

Definition page : kgsl_memdesc :=
  {| gpuaddr := 4096 + 8192; size := 4096; sg := 77 |}.

(** ** Vocabulary of the statements *)

(** The pagetable at [pt] exists and carries a domain. *)
Definition valid_pt (P : platform) (pt : Z) : Prop :=
  pt <> 0 /\ exists domain, pt_priv P pt = Some domain /\ domain <> 0.

(** The pagetable [kgsl_iommu_start] makes the default when called at
    history [tr]: the one already recorded, or else the global one it asks
    [kgsl_mmu_getpagetable] for after the register write. *)
Definition default_on_start (P : platform) (m : kgsl_mmu) (tr : list event) : Z :=
  if defaultpagetable m =? 0 then
    kgsl_mmu_getpagetable P (EvRegwrite (MH_MMU_CONFIG P) 0 :: tr)
      (KGSL_MMU_GLOBAL_PT P)
  else defaultpagetable m.

(** A declared context [init] accepts: entries without a name are skipped,
    a named one must resolve and be of a known kind. *)
Definition good_entry (P : platform) (c : kgsl_iommu_ctxt) : Prop :=
  match iommu_ctx_name c with
  | None => True
  | Some name =>
      msm_iommu_get_ctx P name <> 0 /\
      (ctxt_ctx_id c = KGSL_IOMMU_CONTEXT_USER P \/
       ctxt_ctx_id c = KGSL_IOMMU_CONTEXT_PRIV P)
  end.

Definition good_unit (P : platform) (d : kgsl_device_iommu_data) : Prop :=
  (iommu_ctx_count d <= KGSL_IOMMU_MAX_DEVS_PER_UNIT P)%nat /\
  Forall (good_entry P) (iommu_ctxs d).

(** What a later part of the history does to a context bound to [domain]. *)
Definition keeps_bound (domain : Z) (tr tr' : list event) : Prop :=
  forall x, hw_domain tr x = Some domain -> hw_domain tr' x = Some domain.

(** The newest events of a failed attach: the refused call and its report. *)
Definition attach_refused (P : platform) (domain ret : Z) (tr' : list event) : Prop :=
  exists d tr0,
    tr' = EvLog LOG_ERR "Failed to attach device"
            :: EvAttach domain d ret :: tr0 /\
    ret = iommu_attach_device P tr0 domain d.

Definition bound_if_attached (domain : Z) (tr : list event)
  (c : kgsl_iommu_device) : Prop :=
  attached c = true -> hw_domain tr (dev c) = Some domain.

Definition attached_and_bound (domain : Z) (tr : list event)
  (c : kgsl_iommu_device) : Prop :=
  attached c = true /\ hw_domain tr (dev c) = Some domain.

(** Every [attached] flag of the arrays is clear, in use or not. *)
Definition flags_clear_unit (u : kgsl_iommu_unit) : Prop :=
  Forall (fun c => attached c = false) (devs u).

Definition flags_clear (i : kgsl_iommu) : Prop :=
  Forall flags_clear_unit (iommu_units i).

(** A unit [kgsl_get_iommu_ctxt] has not filled yet. *)
Definition blank_unit (P : platform) (u : kgsl_iommu_unit) : Prop :=
  dev_count u = 0%nat /\
  List.length (devs u) = KGSL_IOMMU_MAX_DEVS_PER_UNIT P.

(** A descriptor set with a flaw [kgsl_iommu_init] looks for: a unit with
    more contexts than fit, a named context the platform does not know, or a
    named context of a kind that is neither user nor privileged. *)
Definition bad_descriptor (P : platform) (pd : kgsl_device_platform_data) : Prop :=
  exists d, In d (iommu_data pd) /\
    ((KGSL_IOMMU_MAX_DEVS_PER_UNIT P < iommu_ctx_count d)%nat \/
     exists c name, In c (iommu_ctxs d) /\ iommu_ctx_name c = Some name /\
       (msm_iommu_get_ctx P name = 0 \/
        (ctxt_ctx_id c <> KGSL_IOMMU_CONTEXT_USER P /\
         ctxt_ctx_id c <> KGSL_IOMMU_CONTEXT_PRIV P))).

(** [tr'] is [tr] with newer events in front. *)
Definition extends (tr tr' : list event) : Prop :=
  exists newer, tr' = newer ++ tr.

(** [x] is the handle of a context of [l] that is flagged attached. *)
Definition flagged_dev (l : list kgsl_iommu_device) (x : Z) : Prop :=
  exists c, In c l /\ attached c = true /\ dev c = x.

(** Once the controller has private state, its counts are inside its
    arrays. *)
Definition wf_if_initialised (m : kgsl_mmu) : Prop :=
  forall i, priv m = Some i -> wf_iommu i.

(** * The rest of the backend

    The pagetable operations of [iommu_pt_ops] that are not the mapper, and
    [kgsl_iommu_close].  Their calls into the IOMMU driver and into the
    pagetable pool are recorded in a trace of their own. *)

Inductive pt_event : Type :=
| EvDomainAlloc (flags domain : Z)
| EvDomainFree (domain : Z)
| EvPutPagetable (pt : Z)
| EvCoreErr (msg : string).

(** ** kgsl_iommu_pt_equal

    [domain = pt->priv] is read before [pt] is tested. *)
Definition kgsl_iommu_pt_equal (P : platform) (pt : Z) (pt_base : Z)
  : outcome Z :=
  if pt =? 0 then Fault
  else
    match pt_priv P pt with
    | None => Fault
    | Some domain =>
        Ok (if negb (pt =? 0) && negb (pt_base =? 0) && (domain =? pt_base)
            then 1 else 0)
    end.

(** ** kgsl_iommu_destroy_pagetable *)
Definition kgsl_iommu_destroy_pagetable (mmu_specific_pt : Z)
  (tr : list pt_event) : list pt_event :=
  let domain := mmu_specific_pt in
  if negb (domain =? 0) then EvDomainFree domain :: tr else tr.

(** ** kgsl_iommu_create_pagetable

    [iommu_domain_alloc] is the driver's allocator, answering as a function
    of the history and of its flags argument. *)
Definition kgsl_iommu_create_pagetable
  (iommu_domain_alloc : list pt_event -> Z -> Z) (tr : list pt_event)
  : Z * list pt_event :=
  let domain := iommu_domain_alloc tr 0 in
  let tr1 := EvDomainAlloc 0 domain :: tr in
  if domain =? 0 then
    (domain, EvCoreErr "Failed to create iommu domain" :: tr1)
  else (domain, tr1).

(** ** kgsl_iommu_close *)
Definition kgsl_iommu_close (m : kgsl_mmu) (tr : list pt_event)
  : Z * kgsl_mmu * list pt_event :=
  if negb (defaultpagetable m =? 0) then
    (0, m, EvPutPagetable (defaultpagetable m) :: tr)
  else (0, m, tr).

Definition domain_frees (tr : list pt_event) : list Z :=
  flat_map (fun e => match e with EvDomainFree d => [d] | _ => [] end) tr.

Definition domain_allocs (tr : list pt_event) : list Z :=
  flat_map (fun e => match e with EvDomainAlloc _ d => [d] | _ => [] end) tr.

Definition pagetable_puts (tr : list pt_event) : list Z :=
  flat_map (fun e => match e with EvPutPagetable p => [p] | _ => [] end) tr.

(** ** What an operation may call *)

(** The events a detach from [domain] may add, and an attach to it. *)
Definition detach_event (domain : Z) (e : event) : bool :=
  match e with
  | EvDetach d _ => d =? domain
  | EvLog LOG_INFO _ => true
  | _ => false
  end.

Definition attach_event (domain : Z) (e : event) : bool :=
  match e with
  | EvAttach d _ _ => d =? domain
  | EvLog _ _ => true
  | _ => false
  end.

(** The events of context discovery. *)
Definition discovery_event (e : event) : bool :=
  match e with
  | EvGetCtx _ _ | EvLog _ _ => true
  | _ => false
  end.

(** The collaborators each controller operation may call. *)
Definition footprint (o : op) (e : event) : bool :=
  match e with
  | EvLog _ _ => true
  | EvKzalloc _ | EvKfree | EvGetCtx _ _ =>
      match o with OpInit _ => true | _ => false end
  | EvRegwrite _ _ | EvGetPagetable _ _ =>
      match o with OpStart => true | _ => false end
  | EvIdle _ _ =>
      match o with OpSetstate _ _ => true | _ => false end
  | EvAttach _ _ _ =>
      match o with OpStart | OpSetstate _ _ => true | _ => false end
  | EvDetach _ _ =>
      match o with OpInit _ => false | _ => true end
  | EvMapRange _ _ _ _ _ _ | EvUnmapRange _ _ _ _ => false
  end.

(** The attach and detach calls of a history, oldest first. *)
Definition attach_log (tr : list event) : list (Z * Z * Z) :=
  flat_map (fun e => match e with
                     | EvAttach d x rc => [(d, x, rc)]
                     | _ => []
                     end) (rev tr).

Definition detach_log (tr : list event) : list (Z * Z) :=
  flat_map (fun e => match e with
                     | EvDetach d x => [(d, x)]
                     | _ => []
                     end) (rev tr).

Definition unattached (c : kgsl_iommu_device) : bool := negb (attached c).

(** The contexts [_get_iommu_ctxs] makes of a unit's declarations: one per
    named entry, in the order declared. *)
Definition discovered (P : platform) (ctxs : list kgsl_iommu_ctxt)
  : list kgsl_iommu_device :=
  flat_map (fun c =>
              match iommu_ctx_name c with
              | None => []
              | Some name =>
                  [ {| dev := msm_iommu_get_ctx P name;
                       attached := false;
                       ctx_id := ctxt_ctx_id c |} ]
              end) ctxs.

(** A unit as [kzalloc] leaves it: nothing in use, the array full length,
    every flag clear. *)
Definition pristine_unit (P : platform) (u : kgsl_iommu_unit) : Prop :=
  blank_unit P u /\ flags_clear_unit u.

(** [tr'] is [tr] with newer events in front, all of them of kind [Q]. *)
Definition adds (Q : event -> bool) (tr tr' : list event) : Prop :=
  exists newer, tr' = newer ++ tr /\ Forall (fun e => Q e = true) newer.

(** The number of pagetable switches a sequence asks for. *)
Definition count_switches (ops : list op) : nat :=
  List.length (filter (fun o => match o with
                                | OpSetstate _ _ => true
                                | _ => false
                                end) ops).

(** The ranges the driver was asked to map and to unmap: domain, address
    and size of each request, newest first. *)
Definition map_requests (tr : list event) : list (Z * Z * Z) :=
  flat_map (fun e => match e with
                     | EvMapRange d a _ sz _ _ => [(d, a, sz)]
                     | _ => []
                     end) tr.

Definition unmap_requests (tr : list event) : list (Z * Z * Z) :=
  flat_map (fun e => match e with
                     | EvUnmapRange d a sz _ => [(d, a, sz)]
                     | _ => []
                     end) tr.

(** The number of times the global pagetable was asked for. *)
Definition is_getpagetable (e : event) : bool :=
  match e with EvGetPagetable _ _ => true | _ => false end.

Definition pagetable_gets (tr : list event) : nat :=
  List.length (filter is_getpagetable tr).

(** [kgsl_iommu_close] called [n] times in a row. *)
Fixpoint close_times (n : nat) (m : kgsl_mmu) (tr : list pt_event)
  : kgsl_mmu * list pt_event :=
  match n with
  | O => (m, tr)
  | S k => let '(_, m1, tr1) := kgsl_iommu_close m tr in close_times k m1 tr1
  end.

(** * The crash path (arch/arm/kernel/machine_kexec.c)

    [machine_crash_shutdown] asks the other CPUs to stop and waits for them
    on the counter [waiting_for_crash_ipi], which they decrement.  What a
    read of the counter finds is up to those CPUs: it is taken from the
    environment, as a function of what the crashing CPU has done so far. *)

Inductive kern_level : Type := KERN_WARNING | KERN_INFO.

Inductive crash_event : Type :=
| EvLocalIrqDisable
| EvAtomicSet (v : Z)
| EvSmpCallFunction
| EvAtomicRead (v : Z)
| EvMdelay (ms : Z)
| EvPrintk (lvl : kern_level) (msg : string)
| EvCrashSaveCpu (cpu : Z).

Record crash_env : Type := {
  num_online_cpus : Z;
  smp_processor_id : Z;
  atomic_read : list crash_event -> Z
}.

(** [while ((atomic_read(&waiting_for_crash_ipi) > 0) && msecs)
       { mdelay(1); msecs--; }] *)
Fixpoint crash_wait (E : crash_env) (msecs : nat) (tr : list crash_event)
  : nat * list crash_event :=
  let v := atomic_read E tr in
  let tr1 := EvAtomicRead v :: tr in
  if 0 <? v then
    match msecs with
    | O => (O, tr1)
    | S k => crash_wait E k (EvMdelay 1 :: tr1)
    end
  else (msecs, tr1).

Definition machine_crash_shutdown (E : crash_env) (tr : list crash_event)
  : list crash_event :=
  let tr1 := EvSmpCallFunction
               :: EvAtomicSet (num_online_cpus E - 1)
               :: EvLocalIrqDisable :: tr in
  let '(_, tr2) := crash_wait E 1000 tr1 in
  let v := atomic_read E tr2 in
  let tr3 := EvAtomicRead v :: tr2 in
  let tr4 :=
    if 0 <? v then
      EvPrintk KERN_WARNING "Non-crashing CPUs did not react to IPI" :: tr3
    else tr3 in
  EvPrintk KERN_INFO "Loading crashdump kernel..."
    :: EvCrashSaveCpu (smp_processor_id E) :: tr4.

Definition delay_ms (tr : list crash_event) : Z :=
  fold_right (fun e acc => match e with EvMdelay ms => ms + acc | _ => acc end)
    0 tr.

Definition crash_warnings (tr : list crash_event) : nat :=
  List.length (filter (fun e => match e with
                                | EvPrintk KERN_WARNING _ => true
                                | _ => false
                                end) tr).

(** A CPU count and a counter for trying the crash path: [stragglers] CPUs
    never answer, the others have answered after [latency] delays. *)
Definition crash_board (cpus stragglers : Z) (latency : Z) : crash_env :=
  {| num_online_cpus := cpus;
     smp_processor_id := 0;
     atomic_read := fun tr =>
       if delay_ms tr <? latency then cpus - 1 else stragglers |}.

(** * Proofs *)

Ltac ok_inv H :=
  match type of H with
  | obind ?x _ = Ok _ =>
      let E := fresh "E" in
      destruct x as [[? ?]| |] eqn:E; simpl in H; [| discriminate H ..]
  end.

Lemma In_firstn {A : Type} (x : A) :
  forall (n : nat) (l : list A), In x (firstn n l) -> In x l.
Proof.
  induction n as [|n IH]; intros [|y l] H; simpl in H; try contradiction.
  destruct H as [H|H]; [now left | right; auto].
Qed.

Lemma land_lor_same (a b : Z) : Z.land (Z.lor a b) b = b.
Proof.
  apply Z.bits_inj'; intros n _.
  rewrite Z.land_spec, Z.lor_spec.
  destruct (Z.testbit a n), (Z.testbit b n); reflexivity.
Qed.

Section Flags.

Variable P : platform.

Lemma started_clear_flags (f : Z) (m : kgsl_mmu) :
  started P (set_flags (Z.land f (Z.lnot (KGSL_FLAGS_STARTED P))) m) = false.
Proof.
  unfold started; simpl.
  rewrite <- Z.land_assoc, (Z.land_comm (Z.lnot _)), Z.land_lnot_diag, Z.land_0_r.
  reflexivity.
Qed.

End Flags.

(** ** The detach loops *)

Section Loops.

Variable P : platform.

Lemma detach_devs_total (domain : Z) (n : nat) :
  forall ds tr, (n <= List.length ds)%nat ->
    exists ds' tr', detach_devs domain n ds tr = Ok (ds', tr').
Proof.
  induction n as [|n IH]; intros ds tr Hn; simpl.
  - eauto.
  - destruct ds as [|d rest]; simpl in Hn; [lia|].
    destruct (attached d).
    + destruct (IH rest (EvLog LOG_INFO "iommu detached from user dev of MMU"
                           :: EvDetach domain (dev d) :: tr)) as (r' & t' & E);
        [lia|].
      rewrite E; simpl; eauto.
    + destruct (IH rest tr) as (r' & t' & E); [lia|].
      rewrite E; simpl; eauto.
Qed.

Lemma detach_devs_spec (domain : Z) (n : nat) :
  forall ds tr ds' tr',
    detach_devs domain n ds tr = Ok (ds', tr') ->
    map dev ds' = map dev ds /\
    Forall (fun c => attached c = false) (firstn n ds') /\
    failed_attaches tr' = failed_attaches tr /\
    idle_waits tr' = idle_waits tr.
Proof.
  induction n as [|n IH]; intros ds tr ds' tr' H; simpl in H.
  - inversion H; subst. repeat split; constructor.
  - destruct ds as [|d rest]; [discriminate|].
    destruct (attached d) eqn:Ha; ok_inv H; inversion H; subst; clear H;
      apply IH in E; destruct E as (Hm & Hf & Hfa & Hi); simpl.
    + repeat split; [now rewrite Hm | now constructor | exact Hfa | exact Hi].
    + repeat split; [now rewrite Hm | now constructor | exact Hfa | exact Hi].
Qed.

Lemma detach_units_total (domain : Z) (n : nat) :
  forall us tr, (n <= List.length us)%nat -> Forall wf_unit (firstn n us) ->
    exists us' tr', detach_units domain n us tr = Ok (us', tr').
Proof.
  induction n as [|n IH]; intros us tr Hn Hwf; simpl.
  - eauto.
  - destruct us as [|u rest]; simpl in Hn; [lia|].
    simpl in Hwf. inversion Hwf as [|? ? Hu Hrest]; subst.
    destruct (detach_devs_total domain (dev_count u) (devs u) tr Hu)
      as (ds' & tr1 & E1).
    rewrite E1; simpl.
    destruct (IH rest tr1) as (r' & t' & E2); [lia | assumption |].
    rewrite E2; simpl; eauto.
Qed.

Lemma detach_units_spec (domain : Z) (n : nat) :
  forall us tr us' tr',
    detach_units domain n us tr = Ok (us', tr') ->
    List.length us' = List.length us /\
    map dev (flat_map unit_contexts (firstn n us')) =
      map dev (flat_map unit_contexts (firstn n us)) /\
    (Forall wf_unit (firstn n us) -> Forall wf_unit (firstn n us')) /\
    Forall (fun c => attached c = false) (flat_map unit_contexts (firstn n us')) /\
    failed_attaches tr' = failed_attaches tr /\
    idle_waits tr' = idle_waits tr.
Proof.
  induction n as [|n IH]; intros us tr us' tr' H; simpl in H.
  - inversion H; subst. repeat split; auto; constructor.
  - destruct us as [|u rest]; [discriminate|].
    ok_inv H. ok_inv H. inversion H; subst; clear H.
    apply detach_devs_spec in E. destruct E as (Hm & Hf & Hfa & Hi).
    apply IH in E0. destruct E0 as (Hl & Hc & Hw & Hn & Hfa' & Hi').
    simpl. unfold unit_contexts at 1 3 5; simpl.
    repeat split.
    + now rewrite Hl.
    + rewrite !map_app, Hc, <- !firstn_map, Hm. reflexivity.
    + intros Hwf. inversion Hwf as [|? ? Hu Hr]; subst. constructor.
      * unfold wf_unit in *; simpl.
        rewrite <- (length_map dev), Hm, length_map. exact Hu.
      * auto.
    + apply Forall_app. split; assumption.
    + congruence.
    + congruence.
Qed.

(** ** The attach loops *)

Lemma attach_devs_total (domain : Z) (n : nat) :
  forall ds tr, (n <= List.length ds)%nat ->
    exists ret ds' tr', attach_devs P domain n ds tr = Ok (ret, ds', tr').
Proof.
  induction n as [|n IH]; intros ds tr Hn; simpl.
  - eauto.
  - destruct ds as [|d rest]; simpl in Hn; [lia|].
    destruct (attached d).
    + destruct (IH rest tr) as (r & r' & t' & E); [lia|].
      rewrite E; simpl; eauto.
    + destruct (iommu_attach_device P tr domain (dev d) =? 0); [|eauto].
      match goal with |- context [attach_devs P domain n rest ?t] =>
        destruct (IH rest t) as (r & r' & t' & E); [lia|] end.
      rewrite E; simpl; eauto.
Qed.

Lemma keeps_bound_trans (domain : Z) (t1 t2 t3 : list event) :
  keeps_bound domain t1 t2 -> keeps_bound domain t2 t3 ->
  keeps_bound domain t1 t3.
Proof. unfold keeps_bound; auto. Qed.

Lemma keeps_bound_attach (domain d rc : Z) (tr : list event) :
  keeps_bound domain tr (EvAttach domain d rc :: tr).
Proof.
  intros x Hx; simpl. destruct ((d =? x) && (rc =? 0)); auto.
Qed.

Lemma keeps_bound_log (domain : Z) (l : loglevel) (msg : string)
  (tr : list event) :
  keeps_bound domain tr (EvLog l msg :: tr).
Proof. intros x Hx; exact Hx. Qed.

Lemma attach_devs_spec (domain : Z) (n : nat) :
  forall ds tr ret ds' tr',
    attach_devs P domain n ds tr = Ok (ret, ds', tr') ->
    map dev ds' = map dev ds /\
    idle_waits tr' = idle_waits tr /\
    keeps_bound domain tr tr' /\
    (ret = 0 -> failed_attaches tr' = failed_attaches tr) /\
    (ret <> 0 -> (failed_attaches tr < failed_attaches tr')%nat /\
                 attach_refused P domain ret tr') /\
    (ret = 0 -> Forall (bound_if_attached domain tr) (firstn n ds) ->
       Forall (attached_and_bound domain tr') (firstn n ds')).
Proof.
  induction n as [|n IH]; intros ds tr ret ds' tr' H; simpl in H.
  - inversion H; subst.
    repeat split; auto; try congruence; try constructor;
      try (intros x Hx; exact Hx).
  - destruct ds as [|d rest]; [discriminate|].
    destruct (attached d) eqn:Ha.
    + destruct (attach_devs P domain n rest tr) as [[[r r'] t']| |] eqn:E;
        simpl in H; try discriminate.
      inversion H; subst; clear H.
      apply IH in E. destruct E as (Hm & Hi & Hk & Hz & Hnz & Hall).
      repeat split; auto.
      * simpl. now rewrite Hm.
      * apply Hnz; assumption.
      * apply Hnz; assumption.
      * intros Hr Hpre. simpl in Hpre |- *.
        inversion Hpre as [|? ? Hd Hrest]; subst.
        constructor; [split; auto | auto].
    + destruct (iommu_attach_device P tr domain (dev d) =? 0) eqn:Hrc.
      * apply Z.eqb_eq in Hrc.
        match type of H with context [attach_devs P domain n rest ?t] =>
          destruct (attach_devs P domain n rest t) as [[[r r'] t']| |] eqn:E;
            simpl in H; try discriminate end.
        inversion H; subst; clear H.
        apply IH in E. destruct E as (Hm & Hi & Hk & Hz & Hnz & Hall).
        assert (Hk1 : keeps_bound domain tr
                  (EvLog LOG_INFO "iommu pt attached to dev"
                     :: EvAttach domain (dev d)
                          (iommu_attach_device P tr domain (dev d)) :: tr)).
        { eapply keeps_bound_trans;
            [apply keeps_bound_attach | apply keeps_bound_log]. }
        repeat split.
        -- simpl. now rewrite Hm.
        -- rewrite Hi. reflexivity.
        -- eapply keeps_bound_trans; eassumption.
        -- intros Hr. rewrite (Hz Hr). unfold failed_attaches; simpl.
           rewrite Hrc; reflexivity.
        -- destruct (Hnz H) as [Hlt _]. revert Hlt.
           unfold failed_attaches; simpl. rewrite Hrc; simpl. auto.
        -- apply Hnz; assumption.
        -- intros Hr Hpre. simpl in Hpre |- *.
           inversion Hpre as [|? ? Hd Hrest]; subst.
           constructor.
           ++ split; [reflexivity|]. simpl. apply Hk. simpl.
              rewrite Z.eqb_refl, Hrc. reflexivity.
           ++ apply Hall; [auto|].
              eapply Forall_impl; [|exact Hrest].
              intros c Hc Hac. apply Hk1. auto.
      * inversion H; subst; clear H.
        apply Z.eqb_neq in Hrc.
        repeat split; auto; try congruence.
        -- eapply keeps_bound_trans;
             [apply keeps_bound_attach | apply keeps_bound_log].
        -- unfold failed_attaches; simpl.
           destruct (iommu_attach_device P tr domain (dev d) =? 0) eqn:E0;
             [apply Z.eqb_eq in E0; contradiction | simpl; lia].
        -- exists (dev d), tr. split; reflexivity.
Qed.

Lemma attach_units_total (domain : Z) (n : nat) :
  forall us tr, (n <= List.length us)%nat -> Forall wf_unit (firstn n us) ->
    exists ret us' tr', attach_units P domain n us tr = Ok (ret, us', tr').
Proof.
  induction n as [|n IH]; intros us tr Hn Hwf; simpl.
  - eauto.
  - destruct us as [|u rest]; simpl in Hn; [lia|].
    simpl in Hwf. inversion Hwf as [|? ? Hu Hrest]; subst.
    destruct (attach_devs_total domain (dev_count u) (devs u) tr Hu)
      as (r1 & ds' & tr1 & E1).
    rewrite E1; simpl.
    destruct (r1 =? 0); [|eauto].
    destruct (IH rest tr1) as (r2 & r' & t' & E2); [lia | assumption |].
    rewrite E2; simpl; eauto.
Qed.

Lemma attach_units_spec (domain : Z) (n : nat) :
  forall us tr ret us' tr',
    attach_units P domain n us tr = Ok (ret, us', tr') ->
    List.length us' = List.length us /\
    map dev (flat_map unit_contexts (firstn n us')) =
      map dev (flat_map unit_contexts (firstn n us)) /\
    (Forall wf_unit (firstn n us) -> Forall wf_unit (firstn n us')) /\
    idle_waits tr' = idle_waits tr /\
    keeps_bound domain tr tr' /\
    (ret = 0 -> failed_attaches tr' = failed_attaches tr) /\
    (ret <> 0 -> (failed_attaches tr < failed_attaches tr')%nat /\
                 attach_refused P domain ret tr') /\
    (ret = 0 ->
       Forall (bound_if_attached domain tr)
         (flat_map unit_contexts (firstn n us)) ->
       Forall (attached_and_bound domain tr')
         (flat_map unit_contexts (firstn n us'))).
Proof.
  induction n as [|n IH]; intros us tr ret us' tr' H; simpl in H.
  - inversion H; subst.
    repeat split; auto; try congruence; try constructor;
      try (intros x Hx; exact Hx).
  - destruct us as [|u rest]; [discriminate|].
    destruct (attach_devs P domain (dev_count u) (devs u) tr)
      as [[[r1 ds1] tr1]| |] eqn:E1; simpl in H; try discriminate.
    apply attach_devs_spec in E1.
    destruct E1 as (Hm & Hi & Hk & Hz & Hnz & Hall).
    assert (Hwu : wf_unit u ->
                  wf_unit {| devs := ds1; dev_count := dev_count u |}).
    { unfold wf_unit; simpl.
      now rewrite <- (length_map dev ds1), Hm, length_map. }
    destruct (r1 =? 0) eqn:Hr1.
    + apply Z.eqb_eq in Hr1.
      destruct (attach_units P domain n rest tr1) as [[[r2 us2] tr2]| |] eqn:E2;
        simpl in H; try discriminate.
      inversion H; subst; clear H.
      apply IH in E2.
      destruct E2 as (Hl & Hc & Hw & Hi2 & Hk2 & Hz2 & Hnz2 & Hall2).
      simpl. unfold unit_contexts at 1 3 5 7; simpl.
      repeat split.
      * now rewrite Hl.
      * rewrite !map_app, Hc, <- !firstn_map, Hm. reflexivity.
      * intros Hwf. inversion Hwf; subst. constructor; auto.
      * congruence.
      * eapply keeps_bound_trans; eassumption.
      * intros Hr. rewrite (Hz2 Hr). auto.
      * destruct (Hnz2 H) as [Hlt _]. rewrite <- (Hz eq_refl). exact Hlt.
      * apply Hnz2; assumption.
      * intros Hr Hpre. apply Forall_app in Hpre. destruct Hpre as [Hp1 Hp2].
        apply Forall_app. split.
        -- eapply Forall_impl; [|apply (Hall eq_refl Hp1)].
           intros c [Hc1 Hc2]. split; [assumption | apply Hk2, Hc2].
        -- apply Hall2; [assumption|].
           eapply Forall_impl; [|exact Hp2].
           intros c Hc1 Hac. apply Hk. auto.
    + apply Z.eqb_neq in Hr1.
      inversion H; subst; clear H.
      simpl. unfold unit_contexts at 1 3; simpl.
      repeat split; auto; try congruence.
      * rewrite !map_app, <- !firstn_map, Hm. reflexivity.
      * intros Hwf. inversion Hwf; subst. constructor; auto.
      * apply Hnz; assumption.
      * apply Hnz; assumption.
Qed.

End Loops.

(** ** Attach and detach of the hardware pagetable *)

Section AttachDetach.

Variable P : platform.

Lemma none_attached_bound (domain : Z) (tr : list event) (m : kgsl_mmu) :
  none_attached m -> Forall (bound_if_attached domain tr) (contexts m).
Proof.
  unfold none_attached. apply Forall_impl.
  intros c Hc Ha. congruence.
Qed.

Lemma detach_spec (m : kgsl_mmu) (tr : list event) (m' : kgsl_mmu)
  (tr' : list event) :
  kgsl_detach_pagetable_iommu_domain P m tr = Ok (m', tr') ->
  valid_pt P (hwpagetable m) /\
  flags m' = flags m /\
  hwpagetable m' = hwpagetable m /\
  defaultpagetable m' = defaultpagetable m /\
  map dev (contexts m') = map dev (contexts m) /\
  (wf_mmu m -> wf_mmu m') /\
  none_attached m' /\
  failed_attaches tr' = failed_attaches tr /\
  idle_waits tr' = idle_waits tr.
Proof.
  unfold kgsl_detach_pagetable_iommu_domain. intros H.
  destruct (hwpagetable m =? 0) eqn:Hhw; [discriminate|].
  destruct (pt_priv P (hwpagetable m)) as [domain|] eqn:Hpt; [|discriminate].
  destruct (domain =? 0) eqn:Hd; [discriminate|].
  destruct (priv m) as [iommu|] eqn:Hp; [|discriminate].
  ok_inv H. inversion H; subst; clear H.
  apply detach_units_spec in E.
  destruct E as (Hl & Hc & Hw & Hn & Hfa & Hi).
  apply Z.eqb_neq in Hhw, Hd.
  repeat split; auto.
  - exists domain; auto.
  - unfold contexts; simpl. rewrite Hp. exact Hc.
  - intros (i & Hi1 & Hi2 & Hi3). rewrite Hp in Hi1. inversion Hi1; subst.
    eexists; split; [reflexivity|].
    split; simpl; [now rewrite Hl | auto].
Qed.

Lemma detach_total (m : kgsl_mmu) (tr : list event) :
  wf_mmu m -> valid_pt P (hwpagetable m) ->
  exists m' tr', kgsl_detach_pagetable_iommu_domain P m tr = Ok (m', tr').
Proof.
  intros (i & Hi & Hl & Hw) (Hnz & domain & Hpt & Hd).
  unfold kgsl_detach_pagetable_iommu_domain.
  apply Z.eqb_neq in Hnz, Hd. rewrite Hnz, Hpt, Hd, Hi.
  destruct (detach_units_total domain (unit_count i) (iommu_units i) tr Hl Hw)
    as (us' & tr' & E).
  rewrite E; simpl; eauto.
Qed.

Lemma attach_spec (m : kgsl_mmu) (tr : list event) (ret : Z) (m' : kgsl_mmu)
  (tr' : list event) :
  kgsl_attach_pagetable_iommu_domain P m tr = Ok (ret, m', tr') ->
  hwpagetable m <> 0 /\
  flags m' = flags m /\
  hwpagetable m' = hwpagetable m /\
  defaultpagetable m' = defaultpagetable m /\
  map dev (contexts m') = map dev (contexts m) /\
  (wf_mmu m -> wf_mmu m') /\
  idle_waits tr' = idle_waits tr /\
  exists domain,
    pt_priv P (hwpagetable m) = Some domain /\ domain <> 0 /\
    keeps_bound domain tr tr' /\
    (ret = 0 -> failed_attaches tr' = failed_attaches tr) /\
    (ret <> 0 -> (failed_attaches tr < failed_attaches tr')%nat /\
                 attach_refused P domain ret tr') /\
    (ret = 0 -> Forall (bound_if_attached domain tr) (contexts m) ->
       Forall (attached_and_bound domain tr') (contexts m')).
Proof.
  unfold kgsl_attach_pagetable_iommu_domain. intros H.
  destruct (hwpagetable m =? 0) eqn:Hhw; [discriminate|].
  destruct (pt_priv P (hwpagetable m)) as [domain|] eqn:Hpt; [|discriminate].
  destruct (domain =? 0) eqn:Hd; [discriminate|].
  destruct (priv m) as [iommu|] eqn:Hp; [|discriminate].
  destruct (attach_units P domain (unit_count iommu) (iommu_units iommu) tr)
    as [[[r us'] t']| |] eqn:E; simpl in H; try discriminate.
  inversion H; subst; clear H.
  apply attach_units_spec in E.
  destruct E as (Hl & Hc & Hw & Hi & Hk & Hz & Hnz & Hall).
  apply Z.eqb_neq in Hhw, Hd.
  repeat split; auto.
  - unfold contexts; simpl. rewrite Hp. exact Hc.
  - intros (i & Hi1 & Hi2 & Hi3). rewrite Hp in Hi1. inversion Hi1; subst.
    eexists; split; [reflexivity|].
    split; simpl; [now rewrite Hl | auto].
  - exists domain. repeat split; auto.
    + apply Hnz; assumption.
    + apply Hnz; assumption.
    + unfold contexts; simpl. rewrite Hp. auto.
Qed.

Lemma attach_total (m : kgsl_mmu) (tr : list event) :
  wf_mmu m -> valid_pt P (hwpagetable m) ->
  exists ret m' tr',
    kgsl_attach_pagetable_iommu_domain P m tr = Ok (ret, m', tr').
Proof.
  intros (i & Hi & Hl & Hw) (Hnz & domain & Hpt & Hd).
  unfold kgsl_attach_pagetable_iommu_domain.
  apply Z.eqb_neq in Hnz, Hd. rewrite Hnz, Hpt, Hd, Hi.
  destruct (attach_units_total P domain (unit_count i) (iommu_units i) tr Hl Hw)
    as (ret & us' & tr' & E).
  rewrite E; simpl; eauto.
Qed.

End AttachDetach.

(** ** Context discovery *)

Lemma array_update_total {A : Type} (f : A -> A) :
  forall (a : list A) (i : nat), (i < List.length a)%nat ->
    exists a', array_update i f a = Some a'.
Proof.
  induction a as [|x r IH]; intros i Hi; simpl in Hi; [lia|].
  destruct i as [|i]; simpl; [eauto|].
  destruct (IH i) as (r' & E); [lia|]. rewrite E; eauto.
Qed.

Lemma array_update_spec {A : Type} (f : A -> A) :
  forall (a : list A) (i : nat) (a' : list A),
    array_update i f a = Some a' ->
    (i < List.length a)%nat /\
    List.length a' = List.length a /\
    (forall j, j <> i -> nth_error a' j = nth_error a j) /\
    (forall Q : A -> Prop,
       (forall x, nth_error a i = Some x -> Q x -> Q (f x)) ->
       Forall Q a -> Forall Q a').
Proof.
  induction a as [|x r IH]; intros i a' H; simpl in H; [discriminate|].
  destruct i as [|i].
  - inversion H; subst; clear H. simpl. repeat split; [lia | |].
    + intros [|j] Hj; [congruence | reflexivity].
    + intros Q Hf Hall. inversion Hall; subst. constructor; auto.
  - destruct (array_update i f r) as [r'|] eqn:E; [|discriminate].
    inversion H; subst; clear H.
    apply IH in E. destruct E as (Hi & Hl & Hn & Hq).
    simpl. repeat split; [lia | lia | |].
    + intros [|j] Hj; [reflexivity | apply Hn; lia].
    + intros Q Hf Hall. inversion Hall; subst. constructor; eauto.
Qed.

Section Discovery.

Variable P : platform.

Lemma get_ctxs_loop_spec :
  forall ctxs u tr,
    (dev_count u + List.length ctxs <= List.length (devs u))%nat ->
    exists ret u' tr',
      get_ctxs_loop P ctxs u tr = Ok (ret, u', tr') /\
      (ret = 0 \/ ret = - EINVAL) /\
      (ret = 0 -> Forall (good_entry P) ctxs) /\
      List.length (devs u') = List.length (devs u) /\
      wf_unit u' /\
      (flags_clear_unit u -> flags_clear_unit u').
Proof.
  induction ctxs as [|c rest IH]; intros u tr Hroom; simpl.
  - exists 0, u, tr. repeat split; auto. unfold wf_unit. simpl in Hroom. lia.
  - simpl in Hroom. unfold good_entry at 1.
    destruct (iommu_ctx_name c) as [name|] eqn:Hname.
    + destruct (array_update_total (set_dev (msm_iommu_get_ctx P name))
                  (devs u) (dev_count u)) as (ds1 & E1); [lia|].
      rewrite E1.
      apply array_update_spec in E1. destruct E1 as (_ & Hl1 & _ & Hq1).
      destruct (msm_iommu_get_ctx P name =? 0) eqn:Hh.
      { do 3 eexists. split; [reflexivity|].
        split; [auto|]. split; [discriminate|]. split; [exact Hl1|].
        split; [unfold wf_unit; simpl; lia|].
        intros Hc. apply Hq1; auto. }
      destruct (negb (KGSL_IOMMU_CONTEXT_USER P =? ctxt_ctx_id c)
                && negb (KGSL_IOMMU_CONTEXT_PRIV P =? ctxt_ctx_id c)) eqn:Hk.
      { do 3 eexists. split; [reflexivity|].
        split; [auto|]. split; [discriminate|]. split; [exact Hl1|].
        split; [unfold wf_unit; simpl; lia|].
        intros Hc. apply Hq1; auto. }
      destruct (array_update_total (set_ctx_id (ctxt_ctx_id c)) ds1
                  (dev_count u)) as (ds2 & E2); [lia|].
      rewrite E2.
      apply array_update_spec in E2. destruct E2 as (_ & Hl2 & _ & Hq2).
      match goal with |- context [get_ctxs_loop P rest ?u2 ?t2] =>
        destruct (IH u2 t2)
          as (ret & u' & tr' & E & Hret & Hgood & Hl & Hwu & Hc)
      end.
      { simpl. lia. }
      exists ret, u', tr'. split; [exact E|].
      simpl in Hl, Hc.
      split; [exact Hret|]. split; [|split; [congruence|split; [exact Hwu|]]].
      * intros Hr. constructor; [|auto].
        unfold good_entry. rewrite Hname.
        apply Z.eqb_neq in Hh. split; [exact Hh|].
        apply andb_false_iff in Hk.
        destruct Hk as [Hk|Hk]; apply negb_false_iff, Z.eqb_eq in Hk; auto.
      * intros Hcl. apply Hc. apply Hq2; [auto | apply Hq1; auto].
    + destruct (IH u tr)
        as (ret & u' & tr' & E & Hret & Hgood & Hl & Hwu & Hc); [lia|].
      exists ret, u', tr'. split; [exact E|].
      split; [exact Hret|]. split; [|auto].
      intros Hr. constructor; [|auto].
      unfold good_entry. now rewrite Hname.
Qed.

Lemma _get_iommu_ctxs_spec (iommu : kgsl_iommu)
  (data : kgsl_device_iommu_data) (unit_id : nat) (tr : list event) :
  (unit_id < List.length (iommu_units iommu))%nat ->
  (forall u, nth_error (iommu_units iommu) unit_id = Some u -> blank_unit P u) ->
  exists ret iommu' tr',
    _get_iommu_ctxs P iommu data unit_id tr = Ok (ret, iommu', tr') /\
    (ret = 0 \/ ret = - EINVAL) /\
    (ret = 0 -> good_unit P data) /\
    List.length (iommu_units iommu') = List.length (iommu_units iommu) /\
    (forall j, j <> unit_id ->
       nth_error (iommu_units iommu') j = nth_error (iommu_units iommu) j) /\
    (Forall wf_unit (iommu_units iommu) ->
     Forall wf_unit (iommu_units iommu')) /\
    (flags_clear iommu -> flags_clear iommu').
Proof.
  intros Hid Hblank. unfold _get_iommu_ctxs.
  destruct (KGSL_IOMMU_MAX_DEVS_PER_UNIT P <? iommu_ctx_count data)%nat eqn:Hmax.
  - do 3 eexists. split; [reflexivity|].
    repeat split; auto; discriminate.
  - apply Nat.ltb_ge in Hmax.
    destruct (nth_error (iommu_units iommu) unit_id) as [u|] eqn:Hu.
    2:{ apply nth_error_None in Hu. lia. }
    destruct (Hblank u eq_refl) as [Hcnt Hlen].
    destruct (get_ctxs_loop_spec (iommu_ctxs data) u tr)
      as (ret & u' & tr' & E & Hret & Hgood & Hl & Hwu & Hc).
    { rewrite Hcnt, Hlen. exact Hmax. }
    rewrite E; simpl.
    destruct (array_update_total (fun _ => u') (iommu_units iommu) unit_id Hid)
      as (us' & E').
    rewrite E'.
    apply array_update_spec in E'. destruct E' as (_ & Hl' & Hn' & Hq').
    do 3 eexists. split; [reflexivity|]. simpl.
    split; [exact Hret|]. split; [intros Hr; split; auto|].
    split; [exact Hl'|]. split; [exact Hn'|].
    split.
    { intros Hall. apply Hq'; [|exact Hall]. intros x _ _. exact Hwu. }
    intros Hcl. apply Hq'; [|exact Hcl].
      intros x Hx _. apply Hc.
      unfold flags_clear in Hcl. rewrite Forall_forall in Hcl.
      apply Hcl. eapply nth_error_In; eassumption.
Qed.

Lemma get_ctxt_loop_spec :
  forall data i iommu tr,
    (i + List.length data <= List.length (iommu_units iommu))%nat ->
    (forall j u, (i <= j)%nat -> nth_error (iommu_units iommu) j = Some u ->
       blank_unit P u) ->
    exists ret iommu' tr',
      get_ctxt_loop P data i iommu tr = Ok (ret, iommu', tr') /\
      (ret = 0 \/ ret = - EINVAL) /\
      (ret = 0 -> Forall (good_unit P) data) /\
      List.length (iommu_units iommu') = List.length (iommu_units iommu) /\
      (Forall wf_unit (iommu_units iommu) ->
       Forall wf_unit (iommu_units iommu')) /\
      (flags_clear iommu -> flags_clear iommu').
Proof.
  induction data as [|d rest IH]; intros i iommu tr Hroom Hblank; simpl.
  - exists 0, iommu, tr. repeat split; auto.
  - simpl in Hroom.
    destruct (_get_iommu_ctxs_spec iommu d i tr)
      as (ret & iommu1 & tr1 & E & Hret & Hgood & Hl & Hn & Hwu & Hc).
    { lia. }
    { intros u Hu. eapply Hblank; [|exact Hu]. lia. }
    rewrite E; simpl.
    destruct (ret =? 0) eqn:Hr.
    + apply Z.eqb_eq in Hr.
      destruct (IH (S i) iommu1 tr1)
        as (ret2 & iommu2 & tr2 & E2 & Hret2 & Hgood2 & Hl2 & Hwu2 & Hc2).
      { rewrite Hl. lia. }
      { intros j u Hj Hu. rewrite Hn in Hu by lia.
        eapply Hblank; [|exact Hu]. lia. }
      exists ret2, iommu2, tr2. split; [exact E2|].
      repeat split; auto. congruence.
    + apply Z.eqb_neq in Hr.
      exists ret, iommu1, tr1. split; [reflexivity|].
      repeat split; auto. intros; contradiction.
Qed.

Lemma zero_iommu_blank :
  forall j u, nth_error (iommu_units (zero_iommu P)) j = Some u ->
    blank_unit P u.
Proof.
  intros j u Hu. apply nth_error_In in Hu. simpl in Hu.
  apply repeat_spec in Hu. subst u.
  split; simpl; [reflexivity | apply repeat_length].
Qed.

Lemma zero_iommu_flags_clear : flags_clear (zero_iommu P).
Proof.
  unfold flags_clear; simpl. apply Forall_forall. intros u Hu.
  apply repeat_spec in Hu. subst u.
  unfold flags_clear_unit; simpl. apply Forall_forall. intros c Hc.
  apply repeat_spec in Hc. now subst c.
Qed.

Lemma kgsl_get_iommu_ctxt_spec (pd : kgsl_device_platform_data)
  (tr : list event) :
  exists ret iommu' tr',
    kgsl_get_iommu_ctxt P pd (zero_iommu P) tr = Ok (ret, iommu', tr') /\
    (ret = 0 \/ ret = - EINVAL) /\
    (ret = 0 -> Forall (good_unit P) (iommu_data pd)) /\
    wf_iommu iommu' /\
    flags_clear iommu'.
Proof.
  unfold kgsl_get_iommu_ctxt.
  destruct (KGSL_IOMMU_MAX_UNITS P <? iommu_count pd)%nat eqn:Hmax.
  - do 3 eexists. split; [reflexivity|].
    split; [auto|]. split; [discriminate|].
    split; [|apply zero_iommu_flags_clear].
    split; simpl; [lia | constructor].
  - apply Nat.ltb_ge in Hmax.
    destruct (get_ctxt_loop_spec (iommu_data pd) 0 (zero_iommu P) tr)
      as (ret & iommu' & tr' & E & Hret & Hgood & Hl & Hwu & Hc).
    { simpl. rewrite repeat_length. exact Hmax. }
    { intros j u _ Hu. eapply zero_iommu_blank; eassumption. }
    rewrite E; simpl.
    do 3 eexists. split; [reflexivity|].
    split; [exact Hret|]. split; [exact Hgood|].
    split; [|apply Hc, zero_iommu_flags_clear].
    split; simpl.
    + rewrite Hl. simpl. rewrite repeat_length. exact Hmax.
    + apply Forall_forall. intros u Hu. apply In_firstn in Hu.
      assert (Hz : Forall wf_unit (iommu_units (zero_iommu P))).
      { apply Forall_forall. intros z Hz. simpl in Hz.
        apply repeat_spec in Hz. subst z. unfold wf_unit; simpl. lia. }
      specialize (Hwu Hz). rewrite Forall_forall in Hwu. auto.
Qed.

Lemma flags_clear_none_attached (i : kgsl_iommu) (m : kgsl_mmu) :
  flags_clear i -> none_attached (set_priv (Some i) m).
Proof.
  unfold flags_clear, none_attached, contexts, iommu_contexts; simpl.
  intros Hcl. apply Forall_forall. intros c Hc.
  apply in_flat_map in Hc. destruct Hc as (u & Hu & Hc).
  apply In_firstn in Hu. apply In_firstn in Hc.
  rewrite Forall_forall in Hcl. specialize (Hcl u Hu).
  unfold flags_clear_unit in Hcl. rewrite Forall_forall in Hcl. auto.
Qed.

(** What [kgsl_iommu_init] returns, whatever the descriptors. *)
Lemma kgsl_iommu_init_spec (pd : kgsl_device_platform_data) (m : kgsl_mmu)
  (tr : list event) :
  exists status m' tr',
    kgsl_iommu_init P pd m tr = Ok (status, m', tr') /\
    flags m' = flags m /\
    hwpagetable m' = hwpagetable m /\
    (kzalloc P tr = false ->
       status = - ENOMEM /\ m' = m) /\
    (kzalloc P tr = true ->
       (status = 0 \/ status = - EINVAL) /\
       (status = 0 -> Forall (good_unit P) (iommu_data pd)) /\
       (status <> 0 ->
          m' = set_priv None m /\ exists tr0, tr' = EvKfree :: tr0) /\
       (status = 0 -> wf_mmu m') /\
       none_attached m').
Proof.
  unfold kgsl_iommu_init.
  destruct (kzalloc P tr) eqn:Hk.
  - destruct (kgsl_get_iommu_ctxt_spec pd (EvKzalloc true :: tr))
      as (ret & iommu' & tr' & E & Hret & Hgood & Hwf & Hc).
    rewrite E; simpl.
    destruct (ret =? 0) eqn:Hr.
    + apply Z.eqb_eq in Hr.
      do 3 eexists. split; [reflexivity|].
      split; [reflexivity|]. split; [reflexivity|].
      split; [discriminate|]. intros _.
      split; [left; exact Hr|].
      split; [intros _; apply Hgood, Hr|].
      split; [intros Hn; contradiction|].
      split; [intros _; exists iommu'; split; [reflexivity | exact Hwf]|].
      apply flags_clear_none_attached; assumption.
    + apply Z.eqb_neq in Hr.
      do 3 eexists. split; [reflexivity|].
      split; [reflexivity|]. split; [reflexivity|].
      split; [discriminate|]. intros _.
      split; [destruct Hret; [contradiction | right; assumption]|].
      split; [intros; contradiction|].
      split; [intros _; split; [reflexivity | eexists; reflexivity]|].
      split; [intros; contradiction|].
      constructor.
  - do 3 eexists. split; [reflexivity|].
    split; [reflexivity|]. split; [reflexivity|].
    split; [intros _; split; reflexivity | discriminate].
Qed.

End Discovery.

(** ** The trace only grows *)

Lemma extends_refl (tr : list event) : extends tr tr.
Proof. exists []. reflexivity. Qed.

Lemma extends_cons (e : event) (tr tr' : list event) :
  extends (e :: tr) tr' -> extends tr tr'.
Proof.
  intros [newer ->]. exists (newer ++ [e]). now rewrite <- app_assoc.
Qed.

Lemma extends_trans (t1 t2 t3 : list event) :
  extends t1 t2 -> extends t2 t3 -> extends t1 t3.
Proof.
  intros [n1 ->] [n2 ->]. exists (n2 ++ n1). now rewrite app_assoc.
Qed.

Lemma extends_In (e : event) (tr tr' : list event) :
  extends tr tr' -> In e tr -> In e tr'.
Proof. intros [newer ->] H. apply in_or_app. now right. Qed.

Lemma detach_devs_extends (domain : Z) (n : nat) :
  forall ds tr ds' tr',
    detach_devs domain n ds tr = Ok (ds', tr') -> extends tr tr'.
Proof.
  induction n as [|n IH]; intros ds tr ds' tr' H; simpl in H.
  - inversion H; subst. apply extends_refl.
  - destruct ds as [|d rest]; [discriminate|].
    destruct (attached d); ok_inv H; inversion H; subst; clear H;
      apply IH in E; auto.
    do 2 apply extends_cons in E. exact E.
Qed.

Lemma detach_units_extends (domain : Z) (n : nat) :
  forall us tr us' tr',
    detach_units domain n us tr = Ok (us', tr') -> extends tr tr'.
Proof.
  induction n as [|n IH]; intros us tr us' tr' H; simpl in H.
  - inversion H; subst. apply extends_refl.
  - destruct us as [|u rest]; [discriminate|].
    ok_inv H. ok_inv H. inversion H; subst; clear H.
    apply detach_devs_extends in E. apply IH in E0.
    eapply extends_trans; eassumption.
Qed.

Lemma detach_extends (P : platform) (m : kgsl_mmu) (tr : list event)
  (m' : kgsl_mmu) (tr' : list event) :
  kgsl_detach_pagetable_iommu_domain P m tr = Ok (m', tr') -> extends tr tr'.
Proof.
  unfold kgsl_detach_pagetable_iommu_domain. intros H.
  destruct (hwpagetable m =? 0); [discriminate|].
  destruct (pt_priv P (hwpagetable m)) as [domain|]; [|discriminate].
  destruct (domain =? 0); [discriminate|].
  destruct (priv m) as [iommu|]; [|discriminate].
  ok_inv H. inversion H; subst; clear H.
  eapply detach_units_extends; eassumption.
Qed.

Lemma attach_devs_extends (P : platform) (domain : Z) (n : nat) :
  forall ds tr ret ds' tr',
    attach_devs P domain n ds tr = Ok (ret, ds', tr') -> extends tr tr'.
Proof.
  induction n as [|n IH]; intros ds tr ret ds' tr' H; simpl in H.
  - inversion H; subst. apply extends_refl.
  - destruct ds as [|d rest]; [discriminate|].
    destruct (attached d).
    + destruct (attach_devs P domain n rest tr) as [[[r r'] t']| |] eqn:E;
        simpl in H; try discriminate.
      inversion H; subst; clear H. eapply IH; eassumption.
    + destruct (iommu_attach_device P tr domain (dev d) =? 0).
      * match type of H with context [attach_devs P domain n rest ?t] =>
          destruct (attach_devs P domain n rest t) as [[[r r'] t']| |] eqn:E;
            simpl in H; try discriminate end.
        inversion H; subst; clear H.
        apply IH in E. do 2 apply extends_cons in E. exact E.
      * inversion H; subst; clear H.
        exists [EvLog LOG_ERR "Failed to attach device";
                EvAttach domain (dev d)
                  (iommu_attach_device P tr domain (dev d))].
        reflexivity.
Qed.

Lemma attach_units_extends (P : platform) (domain : Z) (n : nat) :
  forall us tr ret us' tr',
    attach_units P domain n us tr = Ok (ret, us', tr') -> extends tr tr'.
Proof.
  induction n as [|n IH]; intros us tr ret us' tr' H; simpl in H.
  - inversion H; subst. apply extends_refl.
  - destruct us as [|u rest]; [discriminate|].
    destruct (attach_devs P domain (dev_count u) (devs u) tr)
      as [[[r1 ds1] tr1]| |] eqn:E1; simpl in H; try discriminate.
    apply attach_devs_extends in E1.
    destruct (r1 =? 0).
    + destruct (attach_units P domain n rest tr1) as [[[r2 us2] tr2]| |] eqn:E2;
        simpl in H; try discriminate.
      inversion H; subst; clear H.
      apply IH in E2. eapply extends_trans; eassumption.
    + inversion H; subst; clear H. exact E1.
Qed.

Lemma attach_extends (P : platform) (m : kgsl_mmu) (tr : list event)
  (ret : Z) (m' : kgsl_mmu) (tr' : list event) :
  kgsl_attach_pagetable_iommu_domain P m tr = Ok (ret, m', tr') ->
  extends tr tr'.
Proof.
  unfold kgsl_attach_pagetable_iommu_domain. intros H.
  destruct (hwpagetable m =? 0); [discriminate|].
  destruct (pt_priv P (hwpagetable m)) as [domain|]; [|discriminate].
  destruct (domain =? 0); [discriminate|].
  destruct (priv m) as [iommu|]; [|discriminate].
  destruct (attach_units P domain (unit_count iommu) (iommu_units iommu) tr)
    as [[[r us'] t']| |] eqn:E; simpl in H; try discriminate.
  inversion H; subst; clear H.
  eapply attach_units_extends; eassumption.
Qed.

(** ** What the loops do to the hardware bindings *)

Lemma flagged_dev_cons (c : kgsl_iommu_device) (l : list kgsl_iommu_device)
  (x : Z) :
  flagged_dev (c :: l) x <->
  (attached c = true /\ dev c = x) \/ flagged_dev l x.
Proof.
  unfold flagged_dev. split.
  - intros (c' & [Hc|Hc] & Ha & Hd); [subst c'; auto | right; eauto].
  - intros [[Ha Hd] | (c' & Hc & Ha & Hd)].
    + exists c. simpl. auto.
    + exists c'. simpl. auto.
Qed.

Lemma flagged_dev_app (l1 l2 : list kgsl_iommu_device) (x : Z) :
  flagged_dev (l1 ++ l2) x <-> flagged_dev l1 x \/ flagged_dev l2 x.
Proof.
  unfold flagged_dev. split.
  - intros (c & Hc & Ha & Hd). apply in_app_or in Hc.
    destruct Hc; [left | right]; eauto.
  - intros [(c & Hc & Ha & Hd) | (c & Hc & Ha & Hd)];
      exists c; (split; [apply in_or_app; auto | auto]).
Qed.

Lemma detach_devs_unbinds (domain : Z) (n : nat) :
  forall ds tr ds' tr',
    detach_devs domain n ds tr = Ok (ds', tr') ->
    forall x, hw_domain tr x = None \/ flagged_dev (firstn n ds) x ->
              hw_domain tr' x = None.
Proof.
  induction n as [|n IH]; intros ds tr ds' tr' H x Hx; simpl in H.
  - inversion H; subst. destruct Hx as [Hx | (c & [] & _)]. exact Hx.
  - destruct ds as [|d rest]; [discriminate|].
    simpl in Hx. rewrite flagged_dev_cons in Hx.
    destruct (attached d) eqn:Ha; ok_inv H; inversion H; subst; clear H;
      eapply IH; try exact E.
    + simpl. destruct (dev d =? x) eqn:Hd; [now left|].
      apply Z.eqb_neq in Hd.
      destruct Hx as [Hx | [[_ Hx] | Hx]]; auto. contradiction.
    + destruct Hx as [Hx | [[Hx _] | Hx]]; auto. congruence.
Qed.

Lemma detach_units_unbinds (domain : Z) (n : nat) :
  forall us tr us' tr',
    detach_units domain n us tr = Ok (us', tr') ->
    forall x,
      hw_domain tr x = None \/
      flagged_dev (flat_map unit_contexts (firstn n us)) x ->
      hw_domain tr' x = None.
Proof.
  induction n as [|n IH]; intros us tr us' tr' H x Hx; simpl in H.
  - inversion H; subst. destruct Hx as [Hx | (c & [] & _)]. exact Hx.
  - destruct us as [|u rest]; [discriminate|].
    ok_inv H. ok_inv H. inversion H; subst; clear H.
    simpl in Hx. rewrite flagged_dev_app in Hx.
    eapply IH; [exact E0|].
    destruct Hx as [Hx | [Hx | Hx]]; auto.
    + left. eapply detach_devs_unbinds; [exact E | auto].
    + left. eapply detach_devs_unbinds; [exact E | auto].
Qed.

Lemma detach_unbinds (P : platform) (m : kgsl_mmu) (tr : list event)
  (m' : kgsl_mmu) (tr' : list event) :
  kgsl_detach_pagetable_iommu_domain P m tr = Ok (m', tr') ->
  forall x, hw_domain tr x = None \/ flagged_dev (contexts m) x ->
            hw_domain tr' x = None.
Proof.
  unfold kgsl_detach_pagetable_iommu_domain. intros H.
  destruct (hwpagetable m =? 0); [discriminate|].
  destruct (pt_priv P (hwpagetable m)) as [domain|]; [|discriminate].
  destruct (domain =? 0); [discriminate|].
  destruct (priv m) as [iommu|] eqn:Hp; [|discriminate].
  ok_inv H. inversion H; subst; clear H.
  unfold contexts. rewrite Hp.
  eapply detach_units_unbinds; eassumption.
Qed.

Lemma attach_devs_binds (P : platform) (domain : Z) (n : nat) :
  forall ds tr ret ds' tr',
    attach_devs P domain n ds tr = Ok (ret, ds', tr') ->
    forall x, hw_domain tr' x = hw_domain tr x \/
              flagged_dev (firstn n ds') x.
Proof.
  induction n as [|n IH]; intros ds tr ret ds' tr' H x; simpl in H.
  - inversion H; subst. now left.
  - destruct ds as [|d rest]; [discriminate|].
    destruct (attached d) eqn:Ha.
    + destruct (attach_devs P domain n rest tr) as [[[r r'] t']| |] eqn:E;
        simpl in H; try discriminate.
      inversion H; subst; clear H.
      simpl. rewrite flagged_dev_cons.
      destruct (IH _ _ _ _ _ E x); auto.
    + destruct (iommu_attach_device P tr domain (dev d) =? 0) eqn:Hrc.
      * match type of H with context [attach_devs P domain n rest ?t] =>
          destruct (attach_devs P domain n rest t) as [[[r r'] t']| |] eqn:E;
            simpl in H; try discriminate end.
        inversion H; subst; clear H.
        simpl. rewrite flagged_dev_cons.
        destruct (IH _ _ _ _ _ E x) as [Hx|Hx]; [|auto].
        simpl in Hx. rewrite Hrc, andb_true_r in Hx.
        destruct (dev d =? x) eqn:Hd.
        -- apply Z.eqb_eq in Hd. right. left. auto.
        -- now left.
      * inversion H; subst; clear H.
        left. simpl. rewrite Hrc, andb_false_r. reflexivity.
Qed.

Lemma attach_units_binds (P : platform) (domain : Z) (n : nat) :
  forall us tr ret us' tr',
    attach_units P domain n us tr = Ok (ret, us', tr') ->
    forall x, hw_domain tr' x = hw_domain tr x \/
              flagged_dev (flat_map unit_contexts (firstn n us')) x.
Proof.
  induction n as [|n IH]; intros us tr ret us' tr' H x; simpl in H.
  - inversion H; subst. now left.
  - destruct us as [|u rest]; [discriminate|].
    destruct (attach_devs P domain (dev_count u) (devs u) tr)
      as [[[r1 ds1] tr1]| |] eqn:E1; simpl in H; try discriminate.
    pose proof (attach_devs_binds _ _ _ _ _ _ _ _ E1 x) as H1.
    destruct (r1 =? 0).
    + destruct (attach_units P domain n rest tr1) as [[[r2 us2] tr2]| |] eqn:E2;
        simpl in H; try discriminate.
      inversion H; subst; clear H.
      simpl. rewrite flagged_dev_app. unfold unit_contexts at 1; simpl.
      destruct (IH _ _ _ _ _ E2 x) as [H2|H2]; [|auto].
      destruct H1 as [H1|H1]; [left; congruence | auto].
    + inversion H; subst; clear H.
      simpl. rewrite flagged_dev_app. unfold unit_contexts at 1; simpl.
      destruct H1; auto.
Qed.

Lemma attach_binds (P : platform) (m : kgsl_mmu) (tr : list event)
  (ret : Z) (m' : kgsl_mmu) (tr' : list event) :
  kgsl_attach_pagetable_iommu_domain P m tr = Ok (ret, m', tr') ->
  forall x, hw_domain tr' x = hw_domain tr x \/ flagged_dev (contexts m') x.
Proof.
  unfold kgsl_attach_pagetable_iommu_domain. intros H.
  destruct (hwpagetable m =? 0); [discriminate|].
  destruct (pt_priv P (hwpagetable m)) as [domain|]; [|discriminate].
  destruct (domain =? 0); [discriminate|].
  destruct (priv m) as [iommu|] eqn:Hp; [|discriminate].
  destruct (attach_units P domain (unit_count iommu) (iommu_units iommu) tr)
    as [[[r us'] t']| |] eqn:E; simpl in H; try discriminate.
  inversion H; subst; clear H.
  unfold contexts; simpl.
  eapply attach_units_binds; eassumption.
Qed.

(** ** Start, stop and the pagetable switch *)

Section Controller.

Variable P : platform.

Lemma started_flags (m m' : kgsl_mmu) :
  flags m' = flags m -> started P m' = started P m.
Proof. unfold started. now intros ->. Qed.

Lemma started_flag_nonzero (m : kgsl_mmu) :
  started P m = true -> KGSL_FLAGS_STARTED P <> 0.
Proof.
  unfold started. intros H Hz. rewrite Hz, Z.land_0_r in H. discriminate.
Qed.

Lemma stop_not_started (m : kgsl_mmu) (tr : list event) :
  started P m = false -> kgsl_iommu_stop P m tr = Ok (0, m, tr).
Proof. unfold kgsl_iommu_stop. now intros ->. Qed.

Lemma stop_spec (m : kgsl_mmu) (tr : list event) (rc : Z) (m' : kgsl_mmu)
  (tr' : list event) :
  started P m = true ->
  kgsl_iommu_stop P m tr = Ok (rc, m', tr') ->
  rc = 0 /\
  valid_pt P (hwpagetable m) /\
  started P m' = false /\
  hwpagetable m' = 0 /\
  defaultpagetable m' = defaultpagetable m /\
  map dev (contexts m') = map dev (contexts m) /\
  (wf_mmu m -> wf_mmu m') /\
  none_attached m' /\
  failed_attaches tr' = failed_attaches tr /\
  idle_waits tr' = idle_waits tr /\
  (forall x, hw_domain tr x = None \/ flagged_dev (contexts m) x ->
             hw_domain tr' x = None).
Proof.
  unfold kgsl_iommu_stop. intros Hs H. rewrite Hs in H.
  ok_inv H. inversion H; subst; clear H.
  pose proof (detach_unbinds _ _ _ _ _ E) as Hun.
  apply detach_spec in E.
  destruct E as (Hv & Hf & Hh & Hd & Hc & Hw & Hn & Hfa & Hi).
  repeat split; auto.
  - apply Hv.
  - apply Hv.
  - apply started_clear_flags.
Qed.

Lemma stop_total (m : kgsl_mmu) (tr : list event) :
  wf_mmu m -> valid_pt P (hwpagetable m) ->
  exists m' tr', kgsl_iommu_stop P m tr = Ok (0, m', tr').
Proof.
  intros Hw Hv. unfold kgsl_iommu_stop.
  destruct (started P m); [|eauto].
  destruct (detach_total P m tr Hw Hv) as (m1 & tr1 & E).
  rewrite E; simpl; eauto.
Qed.

(** The three ways [kgsl_iommu_start] ends on a controller that is not
    running. *)
Lemma start_spec (m : kgsl_mmu) (tr : list event) (status : Z)
  (m' : kgsl_mmu) (tr' : list event) :
  started P m = false ->
  kgsl_iommu_start P m tr = Ok (status, m', tr') ->
  defaultpagetable m' = default_on_start P m tr /\
  map dev (contexts m') = map dev (contexts m) /\
  (wf_mmu m -> wf_mmu m') /\
  ((default_on_start P m tr = 0 /\ status = - ENOMEM /\
    flags m' = flags m /\ hwpagetable m' = hwpagetable m /\
    contexts m' = contexts m) \/
   (exists domain,
      default_on_start P m tr <> 0 /\
      pt_priv P (default_on_start P m tr) = Some domain /\ domain <> 0 /\
      ((status = 0 /\
        flags m' = Z.lor (flags m) (KGSL_FLAGS_STARTED P) /\
        hwpagetable m' = default_on_start P m tr /\
        failed_attaches tr' = failed_attaches tr /\
        (none_attached m ->
           Forall (attached_and_bound domain tr') (contexts m'))) \/
       (status <> 0 /\
        flags m' = flags m /\ hwpagetable m' = 0 /\ none_attached m' /\
        (forall x, hw_domain tr x = None -> hw_domain tr' x = None) /\
        exists d tr0, In (EvAttach domain d status) tr' /\
                      status = iommu_attach_device P tr0 domain d)))).
Proof.
  unfold kgsl_iommu_start, default_on_start. intros Hs H. rewrite Hs in H.
  set (dflt := if defaultpagetable m =? 0
               then kgsl_mmu_getpagetable P
                      (EvRegwrite (MH_MMU_CONFIG P) 0 :: tr)
                      (KGSL_MMU_GLOBAL_PT P)
               else defaultpagetable m).
  (* both ways of settling the default pagetable lead to the same tail *)
  assert (Hm1 : exists m1 tr2,
             defaultpagetable m1 = dflt /\ flags m1 = flags m /\
             hwpagetable m1 = hwpagetable m /\ priv m1 = priv m /\
             failed_attaches tr2 = failed_attaches tr /\
             (forall x, hw_domain tr2 x = hw_domain tr x) /\
             (if dflt =? 0 then Ok (- ENOMEM, m1, tr2)
              else
                let* (status, m3, tr3) :=
                  kgsl_attach_pagetable_iommu_domain P
                    (set_hwpagetable dflt m1) tr2 in
                if status =? 0 then
                  Ok (status,
                      set_flags (Z.lor (flags m3) (KGSL_FLAGS_STARTED P)) m3,
                      tr3)
                else
                  let* (m4, tr4) :=
                    kgsl_detach_pagetable_iommu_domain P m3 tr3 in
                  Ok (status, set_hwpagetable 0 m4, tr4))
             = Ok (status, m', tr')).
  { subst dflt. destruct (defaultpagetable m =? 0) eqn:Hd0; simpl in H.
    - exists (set_defaultpagetable
                (kgsl_mmu_getpagetable P (EvRegwrite (MH_MMU_CONFIG P) 0 :: tr)
                   (KGSL_MMU_GLOBAL_PT P)) m),
             (EvGetPagetable (KGSL_MMU_GLOBAL_PT P)
                (kgsl_mmu_getpagetable P (EvRegwrite (MH_MMU_CONFIG P) 0 :: tr)
                   (KGSL_MMU_GLOBAL_PT P))
                :: EvRegwrite (MH_MMU_CONFIG P) 0 :: tr).
      do 5 (split; [reflexivity|]). split; [intros; reflexivity | exact H].
    - exists m, (EvRegwrite (MH_MMU_CONFIG P) 0 :: tr).
      do 5 (split; [reflexivity|]). split; [intros; reflexivity | exact H]. }
  clear H.
  destruct Hm1 as (m1 & tr2 & Hd1 & Hf1 & Hh1 & Hp1 & Hfa1 & Hhw1 & H).
  assert (Hctx : contexts m1 = contexts m) by (unfold contexts; now rewrite Hp1).
  assert (Hwf1 : wf_mmu m -> wf_mmu m1).
  { intros (i & Hi & Hw). exists i. split; [congruence | exact Hw]. }
  destruct (dflt =? 0) eqn:Hpt.
  - inversion H; subst m1 tr2 status; clear H. apply Z.eqb_eq in Hpt.
    split; [exact Hd1|]. split; [now rewrite Hctx|]. split; [exact Hwf1|].
    left. repeat split; auto.
  - apply Z.eqb_neq in Hpt.
    destruct (kgsl_attach_pagetable_iommu_domain P (set_hwpagetable dflt m1) tr2)
      as [[[st m3] tr3]| |] eqn:E; simpl in H; try discriminate.
    pose proof (attach_binds _ _ _ _ _ _ E) as Hbind.
    pose proof (attach_spec P _ _ _ _ _ E) as
      (_ & Hf & Hh & Hd & Hc & Hw & _ & domain & Hp & Hdn & Hk & Hz & Hnz & Hall).
    simpl in Hf, Hh, Hd, Hc, Hp.
    assert (Hctx2 : contexts (set_hwpagetable dflt m1) = contexts m1)
      by reflexivity.
    assert (Hwf2 : wf_mmu m1 -> wf_mmu (set_hwpagetable dflt m1))
      by exact (fun x => x).
    rewrite Hctx2 in Hc, Hall.
    destruct (st =? 0) eqn:Hst.
    + apply Z.eqb_eq in Hst. inversion H; subst m' tr3 status; clear H.
      split; [simpl; congruence|].
      split; [change (map dev (contexts m3) = map dev (contexts m)); congruence|].
      split; [intros Hwm; apply Hw, Hwf2, Hwf1, Hwm|].
      right. exists domain. repeat split; auto.
      left. repeat split; auto.
      * simpl. congruence.
      * rewrite (Hz Hst). exact Hfa1.
      * intros Hn. apply Hall; [exact Hst|].
        apply none_attached_bound. unfold none_attached. now rewrite Hctx.
    + apply Z.eqb_neq in Hst.
      destruct (kgsl_detach_pagetable_iommu_domain P m3 tr3)
        as [[m4 tr4]| |] eqn:E4; simpl in H; try discriminate.
      inversion H; subst m' tr4 status; clear H.
      pose proof (detach_extends _ _ _ _ _ E4) as Hext.
      pose proof (detach_unbinds _ _ _ _ _ E4) as Hun.
      apply detach_spec in E4.
      destruct E4 as (_ & Hf4 & Hh4 & Hd4 & Hc4 & Hw4 & Hn4 & _ & _).
      split; [simpl; congruence|].
      split; [change (map dev (contexts m4) = map dev (contexts m)); congruence|].
      split; [intros Hwm; apply Hw4, Hw, Hwf2, Hwf1, Hwm|].
      right. exists domain. repeat split; auto.
      right. repeat split; auto.
      * simpl. congruence.
      * intros x Hx. apply Hun.
        destruct (Hbind x) as [Hb|Hb]; [left | right; exact Hb].
        rewrite Hb, Hhw1. exact Hx.
      * destruct (Hnz Hst) as (_ & d & tr0 & Htr & Hrc).
        exists d, tr0. split; [|exact Hrc].
        eapply extends_In; [exact Hext|]. rewrite Htr.
        right; left; reflexivity.
Qed.

Lemma start_total (m : kgsl_mmu) (tr : list event) :
  started P m = false -> wf_mmu m -> valid_pt P (default_on_start P m tr) ->
  exists status m' tr', kgsl_iommu_start P m tr = Ok (status, m', tr').
Proof.
  unfold kgsl_iommu_start, default_on_start. intros Hs Hwf Hv. rewrite Hs.
  assert (Htail : forall m1 tr2 dflt,
             wf_mmu m1 -> valid_pt P dflt ->
             exists status m' tr',
               (let* (status, m3, tr3) :=
                  kgsl_attach_pagetable_iommu_domain P
                    (set_hwpagetable dflt m1) tr2 in
                if status =? 0 then
                  Ok (status,
                      set_flags (Z.lor (flags m3) (KGSL_FLAGS_STARTED P)) m3,
                      tr3)
                else
                  let* (m4, tr4) :=
                    kgsl_detach_pagetable_iommu_domain P m3 tr3 in
                  Ok (status, set_hwpagetable 0 m4, tr4))
               = Ok (status, m', tr')).
  { intros m1 tr2 dflt Hw1 Hv1.
    destruct (attach_total P (set_hwpagetable dflt m1) tr2 Hw1 Hv1)
      as (st & m3 & tr3 & E).
    rewrite E; simpl.
    destruct (st =? 0); [eauto|].
    apply attach_spec in E.
    destruct E as (_ & _ & Hh & _ & _ & Hw & _).
    destruct (detach_total P m3 tr3) as (m4 & tr4 & E4).
    - apply Hw, Hw1.
    - rewrite Hh. exact Hv1.
    - rewrite E4; simpl; eauto. }
  destruct (defaultpagetable m =? 0) eqn:Hd0; simpl.
  - destruct Hv as [Hnz Hv]. apply Z.eqb_neq in Hnz. rewrite Hnz.
    apply Htail.
    + destruct Hwf as (i & Hi & Hw). exists i. auto.
    + apply Z.eqb_neq in Hnz. split; assumption.
  - rewrite Hd0. apply Htail; assumption.
Qed.

(** A switch that goes through: what [kgsl_iommu_setstate] does on a running
    controller when the pagetable asked for is not the current one. *)
Lemma setstate_switch_spec (m : kgsl_mmu) (tr : list event) (pt ctx : Z)
  (m' : kgsl_mmu) (tr' : list event) :
  started P m = true -> hwpagetable m <> pt ->
  kgsl_iommu_setstate P m tr pt ctx = Ok (m', tr') ->
  valid_pt P (hwpagetable m) /\
  flags m' = flags m /\
  hwpagetable m' = pt /\
  defaultpagetable m' = defaultpagetable m /\
  map dev (contexts m') = map dev (contexts m) /\
  (wf_mmu m -> wf_mmu m') /\
  idle_waits tr' = S (idle_waits tr) /\
  In (EvIdle (KGSL_TIMEOUT_DEFAULT P)
        (kgsl_idle P tr (KGSL_TIMEOUT_DEFAULT P))) tr' /\
  (pt = 0 -> none_attached m') /\
  (pt <> 0 ->
     exists domain,
       pt_priv P pt = Some domain /\ domain <> 0 /\
       (failed_attaches tr' = failed_attaches tr ->
          Forall (attached_and_bound domain tr') (contexts m'))).
Proof.
  unfold kgsl_iommu_setstate. intros Hs Hne H. rewrite Hs in H.
  apply Z.eqb_neq in Hne. rewrite Hne in H. simpl in H.
  match type of H with context [kgsl_detach_pagetable_iommu_domain P m ?t] =>
    destruct (kgsl_detach_pagetable_iommu_domain P m t)
      as [[m1 tr2]| |] eqn:E1; simpl in H; try discriminate end.
  pose proof (detach_extends _ _ _ _ _ E1) as Hext1.
  apply detach_spec in E1.
  destruct E1 as (Hv & Hf1 & Hh1 & Hd1 & Hc1 & Hw1 & Hn1 & Hfa1 & Hi1).
  assert (Hidle : In (EvIdle (KGSL_TIMEOUT_DEFAULT P)
                        (kgsl_idle P tr (KGSL_TIMEOUT_DEFAULT P))) tr2).
  { eapply extends_In; [exact Hext1 | left; reflexivity]. }
  destruct (pt =? 0) eqn:Hpt; simpl in H.
  - apply Z.eqb_eq in Hpt. inversion H; subst m' tr'; clear H.
    split; [exact Hv|]. repeat split; auto.
    intros Hnz; contradiction.
  - apply Z.eqb_neq in Hpt.
    destruct (kgsl_attach_pagetable_iommu_domain P (set_hwpagetable pt m1) tr2)
      as [[[st m3] tr3]| |] eqn:E; simpl in H; try discriminate.
    inversion H; subst m' tr'; clear H.
    pose proof (attach_extends _ _ _ _ _ _ E) as Hext3.
    apply attach_spec in E.
    destruct E as (_ & Hf & Hh & Hd & Hc & Hw & Hi & domain & Hp & Hdn & Hk
                   & Hz & Hnz & Hall).
    simpl in Hf, Hh, Hd, Hp.
    split; [exact Hv|].
    split; [congruence|]. split; [exact Hh|]. split; [congruence|].
    split; [etransitivity; [exact Hc | exact Hc1]|].
    split; [intros Hwm; apply Hw, Hw1, Hwm|].
    split; [rewrite Hi, Hi1; reflexivity|].
    split; [eapply extends_In; [exact Hext3 | exact Hidle]|].
    split; [intros; contradiction|].
    intros _. exists domain. repeat split; auto.
    intros Hsame.
    destruct (Z.eq_dec st 0) as [Hst|Hst].
    + apply Hall; [exact Hst|]. apply none_attached_bound. exact Hn1.
    + destruct (Hnz Hst) as [Hlt _].
      unfold failed_attaches in Hfa1 at 2; simpl in Hfa1.
      unfold failed_attaches in Hsame at 2. lia.
Qed.

Lemma setstate_switch_total (m : kgsl_mmu) (tr : list event) (pt ctx : Z) :
  started P m = true -> hwpagetable m <> pt ->
  wf_mmu m -> valid_pt P (hwpagetable m) -> pt = 0 \/ valid_pt P pt ->
  exists m' tr', kgsl_iommu_setstate P m tr pt ctx = Ok (m', tr').
Proof.
  unfold kgsl_iommu_setstate. intros Hs Hne Hwf Hv Hpt. rewrite Hs.
  apply Z.eqb_neq in Hne. rewrite Hne. simpl.
  match goal with |- context [kgsl_detach_pagetable_iommu_domain P m ?t] =>
    destruct (detach_total P m t Hwf Hv) as (m1 & tr2 & E1) end.
  rewrite E1; simpl.
  apply detach_spec in E1. destruct E1 as (_ & _ & _ & _ & _ & Hw1 & _).
  destruct (pt =? 0) eqn:Hz; simpl; [eauto|].
  apply Z.eqb_neq in Hz. destruct Hpt as [Hpt|Hpt]; [contradiction|].
  destruct (attach_total P (set_hwpagetable pt m1) tr2) as (st & m3 & tr3 & E).
  - apply Hw1, Hwf.
  - exact Hpt.
  - rewrite E; simpl; eauto.
Qed.

Lemma setstate_idle (m : kgsl_mmu) (tr : list event) (pt ctx : Z) :
  started P m = false \/ hwpagetable m = pt ->
  kgsl_iommu_setstate P m tr pt ctx = Ok (m, tr).
Proof.
  unfold kgsl_iommu_setstate. intros [Hs|Hh].
  - now rewrite Hs.
  - apply Z.eqb_eq in Hh. rewrite Hh. simpl. now destruct (started P m).
Qed.

(** ** The controller invariant along a run *)

Lemma invariant_fresh (tr : list event) :
  MmuController_invariant P (fresh_mmu, tr).
Proof.
  simpl. split.
  - unfold started; simpl. discriminate.
  - intros _. constructor.
Qed.

Lemma clean_step_keeps_invariant (o : op) (s s' : state) :
  KGSL_FLAGS_STARTED P <> 0 ->
  MmuController_invariant P s ->
  clean_step P o s = true ->
  exec P o s = Ok s' ->
  MmuController_invariant P s'.
Proof.
  intros Hflag Hinv Hclean Hexec.
  destruct s as [m tr]. destruct s' as [m' tr'].
  pose proof Hinv as [Hon Hoff].
  destruct o as [pd| | |pt ctx]; simpl in Hexec, Hclean.
  - (* init *)
    apply negb_true_iff in Hclean.
    destruct (kgsl_iommu_init_spec P pd m tr)
      as (st & m1 & tr1 & E & Hf & Hh & Hko & Hok).
    rewrite E in Hexec. simpl in Hexec. inversion Hexec; subst m1 tr1.
    assert (Hs : started P m' = false)
      by (rewrite (started_flags m m' Hf); exact Hclean).
    unfold MmuController_invariant.
    split; [rewrite Hs; discriminate|]. intros _.
    destruct (kzalloc P tr) eqn:Hk.
    + apply Hok; reflexivity.
    + destruct (Hko eq_refl) as [_ ->]. auto.
  - (* start *)
    destruct (started P m) eqn:Hs.
    + unfold kgsl_iommu_start in Hexec. rewrite Hs in Hexec. simpl in Hexec.
      inversion Hexec; subst. exact Hinv.
    + destruct (kgsl_iommu_start P m tr) as [[[st m1] tr1]| |] eqn:E;
        simpl in Hexec; try discriminate.
      inversion Hexec; subst m1 tr1; clear Hexec.
      apply start_spec in E; [|exact Hs].
      destruct E as (Hd & Hc & _ & [(Hz & _ & Hf & Hh & Hctx)
                                   | (domain & Hnz & Hp & Hdn &
                                      [(Hst & Hf & Hh & _ & Hall)
                                      |(Hst & Hf & Hh & Hn & _)])]).
      * unfold MmuController_invariant. rewrite (started_flags m m' Hf), Hs.
        split; [discriminate|]. intros _.
        unfold none_attached. rewrite Hctx. exact (Hoff eq_refl).
      * unfold MmuController_invariant. split; [|intros Hoff'].
        -- intros _. rewrite Hh. split; [exact Hnz|].
           exists domain. split; [exact Hp|]. apply Hall. exact (Hoff eq_refl).
        -- assert (Hon' : started P m' = true).
           { unfold started. rewrite Hf, land_lor_same.
             apply negb_true_iff, Z.eqb_neq, Hflag. }
           congruence.
      * unfold MmuController_invariant. rewrite (started_flags m m' Hf), Hs.
        split; [discriminate|]. auto.
  - (* stop *)
    destruct (started P m) eqn:Hs.
    + destruct (kgsl_iommu_stop P m tr) as [[[st m1] tr1]| |] eqn:E;
        simpl in Hexec; try discriminate.
      inversion Hexec; subst m1 tr1; clear Hexec.
      apply stop_spec in E; [|exact Hs].
      destruct E as (_ & _ & Hs' & _ & _ & _ & _ & Hn & _).
      unfold MmuController_invariant. rewrite Hs'. split; [discriminate | auto].
    + rewrite (stop_not_started m tr Hs) in Hexec. simpl in Hexec.
      inversion Hexec; subst. exact Hinv.
  - (* the switch *)
    apply andb_true_iff in Hclean. destruct Hclean as [Hpt Hsame].
    apply negb_true_iff, Z.eqb_neq in Hpt.
    rewrite Hexec in Hsame. simpl in Hsame. apply Nat.eqb_eq in Hsame.
    destruct (started P m) eqn:Hs.
    + destruct (Z.eq_dec (hwpagetable m) pt) as [He|Hne].
      * rewrite setstate_idle in Hexec by auto.
        inversion Hexec; subst. exact Hinv.
      * apply setstate_switch_spec in Hexec; auto.
        destruct Hexec as (_ & Hf & Hh & _ & _ & _ & _ & _ & _ & Hsw).
        destruct (Hsw Hpt) as (domain & Hp & Hdn & Hall).
        unfold MmuController_invariant. rewrite (started_flags m m' Hf), Hs.
        split; [|discriminate]. intros _.
        rewrite Hh. split; [exact Hpt|].
        exists domain. split; [exact Hp|]. apply Hall, Hsame.
    + rewrite setstate_idle in Hexec by auto.
      inversion Hexec; subst. exact Hinv.
Qed.

Lemma clean_run_keeps_invariant :
  KGSL_FLAGS_STARTED P <> 0 ->
  forall ops s s',
    MmuController_invariant P s ->
    clean_run P ops s = true ->
    run P ops s = Ok s' ->
    MmuController_invariant P s'.
Proof.
  intros Hflag. induction ops as [|o rest IH]; intros s s' Hinv Hclean Hrun;
    simpl in Hclean, Hrun.
  - inversion Hrun; subst. exact Hinv.
  - apply andb_true_iff in Hclean. destruct Hclean as [Hstep Hrest].
    destruct (exec P o s) as [s1| |] eqn:E; simpl in Hrun; try discriminate.
    eapply IH; [|exact Hrest | exact Hrun].
    eapply clean_step_keeps_invariant; eassumption.
Qed.

End Controller.

(** ** The counts stay inside the arrays along a run *)

Lemma attach_priv_none (P : platform) (m : kgsl_mmu) (tr : list event) :
  priv m = None ->
  forall r, kgsl_attach_pagetable_iommu_domain P m tr <> Ok r.
Proof.
  intros Hp r. unfold kgsl_attach_pagetable_iommu_domain.
  destruct (hwpagetable m =? 0); [discriminate|].
  destruct (pt_priv P (hwpagetable m)) as [domain|]; [|discriminate].
  destruct (domain =? 0); [discriminate|].
  rewrite Hp. discriminate.
Qed.

Lemma detach_priv_none (P : platform) (m : kgsl_mmu) (tr : list event) :
  priv m = None ->
  forall r, kgsl_detach_pagetable_iommu_domain P m tr <> Ok r.
Proof.
  intros Hp r. unfold kgsl_detach_pagetable_iommu_domain.
  destruct (hwpagetable m =? 0); [discriminate|].
  destruct (pt_priv P (hwpagetable m)) as [domain|]; [|discriminate].
  destruct (domain =? 0); [discriminate|].
  rewrite Hp. discriminate.
Qed.

Lemma wf_mmu_initialised (m : kgsl_mmu) :
  wf_mmu m -> wf_if_initialised m.
Proof. intros (i & Hi & Hw) j Hj. congruence. Qed.

Lemma start_priv_none (P : platform) (m : kgsl_mmu) (tr : list event)
  (status : Z) (m' : kgsl_mmu) (tr' : list event) :
  kgsl_iommu_start P m tr = Ok (status, m', tr') ->
  priv m = None -> priv m' = None.
Proof.
  unfold kgsl_iommu_start. intros H Hp.
  destruct (started P m); [inversion H; subst; exact Hp|].
  destruct (defaultpagetable m =? 0) eqn:Hd; simpl in H.
  - match type of H with context [if ?c then _ else _] => destruct c end.
    + inversion H; subst. exact Hp.
    + match type of H with
        context [kgsl_attach_pagetable_iommu_domain P ?a ?t] =>
          destruct (kgsl_attach_pagetable_iommu_domain P a t) as [r| |] eqn:E;
            [exfalso; exact (attach_priv_none P a t Hp r E)
            | discriminate | discriminate]
      end.
  - rewrite Hd in H.
    match type of H with
      context [kgsl_attach_pagetable_iommu_domain P ?a ?t] =>
        destruct (kgsl_attach_pagetable_iommu_domain P a t) as [r| |] eqn:E;
          [exfalso; exact (attach_priv_none P a t Hp r E)
          | discriminate | discriminate]
    end.
Qed.

Lemma exec_keeps_wf (P : platform) (o : op) (s s' : state) :
  wf_if_initialised (fst s) ->
  exec P o s = Ok s' ->
  wf_if_initialised (fst s').
Proof.
  intros Hinv Hexec.
  destruct s as [m tr]. destruct s' as [m' tr']. simpl in *.
  destruct o as [pd| | |pt ctx]; simpl in Hexec.
  - destruct (kgsl_iommu_init_spec P pd m tr)
      as (st & m1 & tr1 & E & _ & _ & Hko & Hok).
    rewrite E in Hexec. simpl in Hexec. inversion Hexec; subst m1 tr1.
    destruct (kzalloc P tr).
    + destruct (Hok eq_refl) as (_ & _ & Hfail & Hwf & _).
      destruct (Z.eq_dec st 0) as [Hz|Hnz].
      * apply wf_mmu_initialised. auto.
      * destruct (Hfail Hnz) as [-> _]. intros i Hi. discriminate.
    + destruct (Hko eq_refl) as [_ ->]. exact Hinv.
  - destruct (kgsl_iommu_start P m tr) as [[[st m1] tr1]| |] eqn:E;
      simpl in Hexec; try discriminate.
    inversion Hexec; subst m1 tr1; clear Hexec.
    destruct (priv m) as [i|] eqn:Hp.
    + destruct (started P m) eqn:Hs.
      * unfold kgsl_iommu_start in E. rewrite Hs in E.
        inversion E; subst. exact Hinv.
      * apply start_spec in E; [|exact Hs].
        destruct E as (_ & _ & Hw & _).
        apply wf_mmu_initialised, Hw. exists i. auto.
    + apply start_priv_none in E; [|exact Hp].
      intros i Hi. congruence.
  - destruct (started P m) eqn:Hs.
    + destruct (kgsl_iommu_stop P m tr) as [[[st m1] tr1]| |] eqn:E;
        simpl in Hexec; try discriminate.
      inversion Hexec; subst m1 tr1; clear Hexec.
      destruct (priv m) as [i|] eqn:Hp.
      * apply stop_spec in E; [|exact Hs].
        destruct E as (_ & _ & _ & _ & _ & _ & Hw & _).
        apply wf_mmu_initialised, Hw. exists i. auto.
      * unfold kgsl_iommu_stop in E. rewrite Hs in E.
        destruct (kgsl_detach_pagetable_iommu_domain P m tr) as [r| |] eqn:E1;
          [exfalso; exact (detach_priv_none P m tr Hp r E1)
          | discriminate | discriminate].
    + rewrite (stop_not_started P m tr Hs) in Hexec. simpl in Hexec.
      inversion Hexec; subst. exact Hinv.
  - destruct (started P m) eqn:Hs.
    + destruct (Z.eq_dec (hwpagetable m) pt) as [He|Hne].
      * rewrite setstate_idle in Hexec by auto.
        inversion Hexec; subst. exact Hinv.
      * destruct (priv m) as [i|] eqn:Hp.
        -- apply setstate_switch_spec in Hexec; auto.
           destruct Hexec as (_ & _ & _ & _ & _ & Hw & _).
           apply wf_mmu_initialised, Hw. exists i. auto.
        -- unfold kgsl_iommu_setstate in Hexec. rewrite Hs in Hexec.
           apply Z.eqb_neq in Hne. rewrite Hne in Hexec. simpl in Hexec.
           match type of Hexec with
             context [kgsl_detach_pagetable_iommu_domain P m ?t] =>
               destruct (kgsl_detach_pagetable_iommu_domain P m t)
                 as [r| |] eqn:E1;
                 [exfalso; exact (detach_priv_none P m t Hp r E1)
                 | discriminate | discriminate]
           end.
    + rewrite setstate_idle in Hexec by auto.
      inversion Hexec; subst. exact Hinv.
Qed.

(** Whatever is run on a controller created uninitialised, as long as it
    has private state its counts are inside its arrays.  The
    well-formedness the theorems below ask of a controller is what an init
    that returns 0 sets up and what start, stop and setstate keep; an init
    that returns -EINVAL leaves the private pointer NULL, also on a
    controller that had private state before. *)
Lemma run_keeps_wf (P : platform) :
  forall ops s s',
    wf_if_initialised (fst s) ->
    run P ops s = Ok s' ->
    wf_if_initialised (fst s').
Proof.
  induction ops as [|o rest IH]; intros s s' Hinv Hrun; simpl in Hrun.
  - inversion Hrun; subst. exact Hinv.
  - destruct (exec P o s) as [s1| |] eqn:E; simpl in Hrun; try discriminate.
    eapply IH; [|exact Hrun].
    eapply exec_keeps_wf; eassumption.
Qed.

(** * The claims *)

(** ** C1: the controller invariant *)

(** C1, as the specification states it, fails, in three ways.  On a
    running controller [kgsl_iommu_setstate] accepts a NULL pagetable:
    it detaches every context, stores NULL as the hardware pagetable and
    skips the attach, while the started flag stays set.  It also drops the
    result of the attach: when the driver refuses a context during a
    switch, the controller stays started with contexts that are not
    attached.  And [kgsl_iommu_init] on a running controller replaces the
    private state by a fresh one in which nothing is flagged attached. *)
Lemma invariant_not_kept_by_every_run :
  (exists s,
     run (board 0 0 true) [OpInit board_pdata; OpStart; OpSetstate 0 0]
       (fresh_mmu, []) = Ok s /\
     started (board 0 0 true) (fst s) = true /\
     hwpagetable (fst s) = 0 /\
     none_attached (fst s) /\
     ~ MmuController_invariant (board 0 0 true) s) /\
  (exists s,
     run picky_board [OpInit board_pdata; OpStart; OpSetstate 2000 0]
       (fresh_mmu, []) = Ok s /\
     started picky_board (fst s) = true /\
     hwpagetable (fst s) = 2000 /\
     map attached (contexts (fst s)) = [true; false; false] /\
     ~ MmuController_invariant picky_board s) /\
  (exists s,
     run (board 0 0 true) [OpInit board_pdata; OpStart; OpInit board_pdata]
       (fresh_mmu, []) = Ok s /\
     started (board 0 0 true) (fst s) = true /\
     none_attached (fst s) /\
     ~ MmuController_invariant (board 0 0 true) s).
Proof.
  split; [|split].
  - eexists. split; [vm_compute; reflexivity|].
    split; [reflexivity|]. split; [reflexivity|].
    split; [repeat constructor|].
    intros [Hon _]. destruct (Hon eq_refl) as [Hnz _]. apply Hnz. reflexivity.
  - eexists. split; [vm_compute; reflexivity|].
    split; [reflexivity|]. split; [reflexivity|]. split; [reflexivity|].
    intros [Hon _]. destruct (Hon eq_refl) as (_ & domain & _ & Hall).
    rewrite Forall_forall in Hall.
    destruct (Hall {| dev := 102; attached := false; ctx_id := 0 |})
      as [Ha _]; [vm_compute; tauto | discriminate].
  - eexists. split; [vm_compute; reflexivity|].
    split; [reflexivity|]. split; [repeat constructor|].
    intros [Hon _]. destruct (Hon eq_refl) as (_ & domain & _ & Hall).
    rewrite Forall_forall in Hall.
    destruct (Hall {| dev := 101; attached := false; ctx_id := 0 |})
      as [Ha _]; [vm_compute; tauto | discriminate].
Qed.

(** C1, amended.  Start from a controller nobody has initialised and run any
    sequence of init, start, stop and setstate in which init is only called
    while the controller is not running, every setstate is given a
    pagetable that is not NULL, and no attach call fails during a setstate.
    Whenever the sequence runs to its end, the invariant holds in the state
    reached: if the started flag is set the hardware pagetable is not NULL,
    it has a domain, every context in use is flagged attached and the
    hardware has it bound to that domain; if the flag is clear no context in
    use is flagged attached. *)
Theorem invariant_kept_by_clean_runs (P : platform) (ops : list op)
  (tr0 : list event) (s : state) :
  KGSL_FLAGS_STARTED P <> 0 ->
  clean_run P ops (fresh_mmu, tr0) = true ->
  run P ops (fresh_mmu, tr0) = Ok s ->
  MmuController_invariant P s.
Proof.
  intros Hflag Hclean Hrun.
  eapply clean_run_keeps_invariant; try eassumption.
  apply invariant_fresh.
Qed.

Lemma invariant_kept_by_clean_runs_witness :
  exists s,
    run (board 0 0 true)
      [OpInit board_pdata; OpStart; OpSetstate 2000 0; OpStop; OpStart;
       OpSetstate 2000 1]
      (fresh_mmu, []) = Ok s /\
    started (board 0 0 true) (fst s) = true /\
    MmuController_invariant (board 0 0 true) s.
Proof.
  eexists. split; [vm_compute; reflexivity|].
  split; [reflexivity|].
  apply (invariant_kept_by_clean_runs (board 0 0 true)
           [OpInit board_pdata; OpStart; OpSetstate 2000 0; OpStop; OpStart;
            OpSetstate 2000 1] []).
  - simpl. lia.
  - vm_compute. reflexivity.
  - vm_compute. reflexivity.
Defined.

(** ** C2: a timed-out idle wait *)

(** C2, as stated, fails: the idle wait times out, yet the switch goes
    through and the base token is that of the new pagetable. *)
Lemma timeout_is_not_propagated :
  exists m tr m' tr',
    run (board (- ETIMEDOUT) 0 true) [OpInit board_pdata; OpStart]
      (fresh_mmu, []) = Ok (m, tr) /\
    started (board (- ETIMEDOUT) 0 true) m = true /\
    hwpagetable m <> 2000 /\
    kgsl_idle (board (- ETIMEDOUT) 0 true) tr
      (KGSL_TIMEOUT_DEFAULT (board (- ETIMEDOUT) 0 true)) = - ETIMEDOUT /\
    kgsl_iommu_setstate (board (- ETIMEDOUT) 0 true) m tr 2000 0
      = Ok (m', tr') /\
    kgsl_iommu_get_current_ptbase (board (- ETIMEDOUT) 0 true) m = Ok 5000 /\
    kgsl_iommu_get_current_ptbase (board (- ETIMEDOUT) 0 true) m' = Ok 6000 /\
    hwpagetable m' = 2000 /\
    Forall (fun c => hw_domain tr' (dev c) = Some 6000) (contexts m').
Proof.
  do 4 eexists.
  split; [vm_compute; reflexivity|].
  split; [reflexivity|].
  split; [simpl; lia|].
  split; [reflexivity|].
  split; [vm_compute; reflexivity|].
  split; [reflexivity|]. split; [reflexivity|]. split; [reflexivity|].
  repeat constructor.
Qed.

(** C2, amended.  On a running controller ([wf_mmu] is what init sets up
    and every operation keeps) whose hardware pagetable is valid, a
    setstate to another valid pagetable waits for idle exactly once and,
    whatever the idle wait answers (a timeout included), returns nothing to
    the caller and performs the switch: the new pagetable becomes the
    hardware pagetable, the base token is its domain, the controller stays
    started, and unless an attach call fails every context in use ends up
    attached and bound to the new domain. *)
Theorem setstate_switches_whatever_idle_answers (P : platform) (m : kgsl_mmu)
  (tr : list event) (pt ctx : Z) :
  started P m = true ->
  wf_mmu m ->
  valid_pt P (hwpagetable m) ->
  valid_pt P pt ->
  hwpagetable m <> pt ->
  exists m' tr' domain,
    kgsl_iommu_setstate P m tr pt ctx = Ok (m', tr') /\
    In (EvIdle (KGSL_TIMEOUT_DEFAULT P)
          (kgsl_idle P tr (KGSL_TIMEOUT_DEFAULT P))) tr' /\
    idle_waits tr' = S (idle_waits tr) /\
    started P m' = true /\
    hwpagetable m' = pt /\
    pt_priv P pt = Some domain /\
    kgsl_iommu_get_current_ptbase P m' = Ok domain /\
    (failed_attaches tr' = failed_attaches tr ->
       Forall (attached_and_bound domain tr') (contexts m')).
Proof.
  intros Hs Hwf Hv Hpt Hne.
  destruct (setstate_switch_total P m tr pt ctx Hs Hne Hwf Hv (or_intror Hpt))
    as (m' & tr' & E).
  pose proof (setstate_switch_spec P m tr pt ctx m' tr' Hs Hne E)
    as (_ & Hf & Hh & _ & _ & _ & Hi & Hin & _ & Hsw).
  destruct Hpt as [Hnz Hdom].
  destruct (Hsw Hnz) as (domain & Hp & Hdn & Hall).
  exists m', tr', domain.
  repeat split; auto.
  - rewrite (started_flags P m m' Hf). exact Hs.
  - unfold kgsl_iommu_get_current_ptbase. rewrite Hh.
    apply Z.eqb_neq in Hnz. now rewrite Hnz, Hp.
Qed.

Lemma setstate_switches_whatever_idle_answers_witness :
  exists m tr m' tr',
    run (board (- ETIMEDOUT) 0 true) [OpInit board_pdata; OpStart]
      (fresh_mmu, []) = Ok (m, tr) /\
    kgsl_iommu_setstate (board (- ETIMEDOUT) 0 true) m tr 2000 0
      = Ok (m', tr') /\
    In (EvIdle 4294967295 (- ETIMEDOUT)) tr' /\
    kgsl_iommu_get_current_ptbase (board (- ETIMEDOUT) 0 true) m' = Ok 6000.
Proof.
  do 2 eexists.
  assert (Hrun : run (board (- ETIMEDOUT) 0 true) [OpInit board_pdata; OpStart]
                   (fresh_mmu, []) = Ok _) by (vm_compute; reflexivity).
  match type of Hrun with _ = Ok (?m, ?tr) =>
    destruct (setstate_switches_whatever_idle_answers
                (board (- ETIMEDOUT) 0 true) m tr 2000 0)
      as (m' & tr' & domain & E & Hin & _ & _ & _ & Hp & Hbase & _)
  end.
  - reflexivity.
  - eexists. split; [reflexivity|]. split; [simpl; lia|].
    repeat constructor; unfold wf_unit; simpl; lia.
  - split; [simpl; lia|]. exists 5000. split; [reflexivity | lia].
  - split; [lia|]. exists 6000. split; [reflexivity | lia].
  - simpl. lia.
  - exists m', tr'. split; [exact Hrun|]. split; [exact E|].
    split; [exact Hin|].
    simpl in Hp. inversion Hp; subst domain. exact Hbase.
Defined.

(** ** C3: a start that fails in the attach *)

(** C3.  On a stopped controller, initialised ([wf_mmu]) and with its
    default pagetable available, start returns.  If it returns an error, that error is what a
    refused attach call answered, no context in use is left flagged
    attached, every hardware context that was unbound before the call is
    unbound after it (what had been attached is detached again), the
    hardware pagetable is NULL again and the started flag is still clear.
    If it returns 0 no attach call failed. *)
Theorem start_attach_failure_rolls_back (P : platform) (m : kgsl_mmu)
  (tr : list event) :
  started P m = false ->
  wf_mmu m ->
  valid_pt P (default_on_start P m tr) ->
  exists status m' tr',
    kgsl_iommu_start P m tr = Ok (status, m', tr') /\
    (status = 0 -> failed_attaches tr' = failed_attaches tr) /\
    (status <> 0 ->
       none_attached m' /\
       hwpagetable m' = 0 /\
       started P m' = false /\
       map dev (contexts m') = map dev (contexts m) /\
       (forall x, hw_domain tr x = None -> hw_domain tr' x = None) /\
       exists domain d tr0,
         pt_priv P (default_on_start P m tr) = Some domain /\
         In (EvAttach domain d status) tr' /\
         status = iommu_attach_device P tr0 domain d).
Proof.
  intros Hs Hwf Hv.
  destruct (start_total P m tr Hs Hwf Hv) as (status & m' & tr' & E).
  exists status, m', tr'. split; [exact E|].
  apply start_spec in E; [|exact Hs].
  destruct Hv as [Hnz _].
  destruct E as (_ & Hc & _ & [(Hz & _)
                              | (domain & _ & Hp & _ &
                                 [(Hst & _ & _ & Hfa & _)
                                 |(Hst & Hf & Hh & Hn & Hun & d & tr0 & Hin
                                   & Hrc)])]).
  - contradiction.
  - split; [auto | intros; contradiction].
  - split; [intros; contradiction|]. intros _.
    repeat split; auto.
    + rewrite (started_flags P m m' Hf). exact Hs.
    + exists domain, d, tr0. auto.
Qed.

Lemma start_attach_failure_rolls_back_witness :
  exists m tr m' tr',
    run (board 0 103 true) [OpInit board_pdata] (fresh_mmu, []) = Ok (m, tr) /\
    kgsl_iommu_start (board 0 103 true) m tr = Ok (-16, m', tr') /\
    In (EvAttach 5000 101 0) tr' /\
    In (EvAttach 5000 103 (-16)) tr' /\
    none_attached m' /\ hwpagetable m' = 0 /\
    started (board 0 103 true) m' = false /\
    hw_domain tr' 101 = None.
Proof.
  do 2 eexists.
  assert (Hrun : run (board 0 103 true) [OpInit board_pdata]
                   (fresh_mmu, []) = Ok _) by (vm_compute; reflexivity).
  match type of Hrun with _ = Ok (?m, ?tr) =>
    destruct (start_attach_failure_rolls_back (board 0 103 true) m tr)
      as (status & m' & tr' & E & _ & Hfail)
  end.
  - reflexivity.
  - eexists. split; [reflexivity|]. split; [simpl; lia|].
    repeat constructor; unfold wf_unit; simpl; lia.
  - split; [vm_compute; discriminate|].
    exists 5000. split; [reflexivity | lia].
  - assert (E' := E). vm_compute in E'.
    inversion E'; subst status m' tr'; clear E'.
    destruct Hfail as (Hn & Hh & Hs & _ & Hun & _); [lia|].
    do 2 eexists. split; [exact Hrun|]. split; [exact E|].
    split; [simpl; tauto|]. split; [simpl; tauto|].
    split; [exact Hn|]. split; [exact Hh|]. split; [exact Hs|].
    apply Hun. reflexivity.
Defined.

(** ** C4: stop, then start again *)

(** C4, as stated, fails: after a switch to NULL the controller is still
    started, and stop runs into the assertion of the detach. *)
Lemma stop_after_null_switch_hits_BUG :
  exists m tr,
    run (board 0 0 true) [OpInit board_pdata; OpStart; OpSetstate 0 0]
      (fresh_mmu, []) = Ok (m, tr) /\
    started (board 0 0 true) m = true /\
    kgsl_iommu_stop (board 0 0 true) m tr = Bug.
Proof.
  do 2 eexists. split; [vm_compute; reflexivity|].
  split; reflexivity.
Qed.

(** C4, amended.  On a started controller ([wf_mmu] is what init sets up
    and every operation keeps) whose hardware pagetable is not NULL and has
    a domain, stop returns 0, leaves the started flag clear, the
    hardware pagetable NULL and every context in use flagged detached, with
    the hardware binding of every context that was flagged attached gone,
    and keeps the contexts.  With the default pagetable available the next
    start returns, and a start that then returns 0 sets the started flag,
    makes the default pagetable the hardware pagetable and leaves every one
    of those contexts flagged attached and bound to its domain. *)
Theorem stop_then_start_round_trip (P : platform) (m : kgsl_mmu)
  (tr : list event) :
  started P m = true ->
  wf_mmu m ->
  valid_pt P (hwpagetable m) ->
  exists m1 tr1,
    kgsl_iommu_stop P m tr = Ok (0, m1, tr1) /\
    started P m1 = false /\
    hwpagetable m1 = 0 /\
    none_attached m1 /\
    Forall (fun c => attached c = true -> hw_domain tr1 (dev c) = None)
      (contexts m) /\
    map dev (contexts m1) = map dev (contexts m) /\
    (valid_pt P (default_on_start P m1 tr1) ->
     exists status m2 tr2,
       kgsl_iommu_start P m1 tr1 = Ok (status, m2, tr2)) /\
    forall m2 tr2,
      kgsl_iommu_start P m1 tr1 = Ok (0, m2, tr2) ->
      started P m2 = true /\
      hwpagetable m2 = defaultpagetable m2 /\
      all_attached m2 /\
      map dev (contexts m2) = map dev (contexts m) /\
      exists domain,
        pt_priv P (defaultpagetable m2) = Some domain /\
        Forall (attached_and_bound domain tr2) (contexts m2).
Proof.
  intros Hs Hwf Hv.
  destruct (stop_total P m tr Hwf Hv) as (m1 & tr1 & E).
  exists m1, tr1. split; [exact E|].
  apply stop_spec in E; [|exact Hs].
  destruct E as (_ & _ & Hs1 & Hh1 & _ & Hc1 & Hw1 & Hn1 & _ & _ & Hun).
  split; [exact Hs1|]. split; [exact Hh1|]. split; [exact Hn1|].
  split.
  { apply Forall_forall. intros c Hc Ha. apply Hun. right. exists c. auto. }
  split; [exact Hc1|].
  split; [intros Hd; apply start_total; auto|].
  intros m2 tr2 H.
  repeat split.
  - apply start_spec in H; [|exact Hs1].
    destruct H as (_ & _ & _ & [(_ & Hst & _)
                               | (domain & _ & _ & _ &
                                  [(_ & Hf & _)|(Hst & _)])]).
    + discriminate.
    + unfold started. rewrite Hf, land_lor_same.
      apply negb_true_iff, Z.eqb_neq. eapply started_flag_nonzero, Hs.
    + contradiction.
  - apply start_spec in H; [|exact Hs1].
    destruct H as (Hd & _ & _ & [(_ & Hst & _)
                                | (domain & _ & _ & _ &
                                   [(_ & _ & Hh & _)|(Hst & _)])]).
    + discriminate.
    + congruence.
    + contradiction.
  - apply start_spec in H; [|exact Hs1].
    destruct H as (Hd & _ & _ & [(_ & Hst & _)
                                | (domain & _ & _ & _ &
                                   [(_ & _ & _ & _ & Hall)|(Hst & _)])]).
    + discriminate.
    + unfold all_attached. eapply Forall_impl; [|exact (Hall Hn1)].
      intros c [Ha _]. exact Ha.
    + contradiction.
  - apply start_spec in H; [|exact Hs1].
    destruct H as (_ & Hc2 & _). congruence.
  - apply start_spec in H; [|exact Hs1].
    destruct H as (Hd & _ & _ & [(_ & Hst & _)
                                | (domain & _ & Hp & _ &
                                   [(_ & _ & _ & _ & Hall)|(Hst & _)])]).
    + discriminate.
    + exists domain. rewrite Hd. auto.
    + contradiction.
Qed.

Lemma stop_then_start_round_trip_witness :
  exists m tr m1 tr1 m2 tr2,
    run (board 0 0 true) [OpInit board_pdata; OpStart; OpSetstate 2000 0]
      (fresh_mmu, []) = Ok (m, tr) /\
    kgsl_iommu_stop (board 0 0 true) m tr = Ok (0, m1, tr1) /\
    none_attached m1 /\
    kgsl_iommu_start (board 0 0 true) m1 tr1 = Ok (0, m2, tr2) /\
    all_attached m2 /\
    map dev (contexts m2) = [101; 102; 103] /\
    Forall (attached_and_bound 5000 tr2) (contexts m2).
Proof.
  do 2 eexists.
  assert (Hrun : run (board 0 0 true)
                   [OpInit board_pdata; OpStart; OpSetstate 2000 0]
                   (fresh_mmu, []) = Ok _) by (vm_compute; reflexivity).
  match type of Hrun with _ = Ok (?m, ?tr) =>
    destruct (stop_then_start_round_trip (board 0 0 true) m tr)
      as (m1 & tr1 & E1 & _ & _ & Hn1 & _ & _ & _ & Hstart)
  end.
  - reflexivity.
  - eexists. split; [reflexivity|]. split; [simpl; lia|].
    repeat constructor; unfold wf_unit; simpl; lia.
  - split; [simpl; lia|]. exists 6000. split; [reflexivity | lia].
  - assert (E1' := E1). vm_compute in E1'.
    inversion E1'; subst m1 tr1; clear E1'.
    match type of Hstart with forall m2 tr2, ?s = _ -> _ =>
      assert (E2 : s = Ok _) by (vm_compute; reflexivity) end.
    match type of E2 with _ = Ok (_, ?m2, ?tr2) =>
      destruct (Hstart m2 tr2 E2) as (_ & _ & Ha & Hc & domain & Hp & Hb) end.
    do 4 eexists. split; [exact Hrun|]. split; [exact E1|].
    split; [exact Hn1|]. split; [exact E2|]. split; [exact Ha|].
    split; [reflexivity|].
    simpl in Hp. inversion Hp; subst domain. exact Hb.
Defined.

(** ** C5: setstate with nothing to do *)

Lemma setstate_result (P : platform) (m : kgsl_mmu) (tr : list event)
  (pt ctx : Z) (m1 : kgsl_mmu) (tr1 : list event) :
  kgsl_iommu_setstate P m tr pt ctx = Ok (m1, tr1) ->
  (started P m1 = false \/ hwpagetable m1 = pt) /\
  (idle_waits tr1 <= S (idle_waits tr))%nat.
Proof.
  intros E.
  destruct (started P m) eqn:Hs.
  - destruct (Z.eq_dec (hwpagetable m) pt) as [He|Hne].
    + rewrite setstate_idle in E by auto. inversion E; subst. auto.
    + apply setstate_switch_spec in E; auto.
      destruct E as (_ & _ & Hh & _ & _ & _ & Hi & _). split; [auto | lia].
  - rewrite setstate_idle in E by auto. inversion E; subst. auto.
Qed.

(** C5.  setstate changes nothing, the trace included, when the controller
    is not started and when the pagetable asked for is the hardware
    pagetable.  Calling it twice in a row with the same pagetable is the same
    as calling it once, and when it returns there is at most one more idle
    wait on the trace than before, so at most one detach/attach cycle. *)
Theorem setstate_twice_is_once (P : platform) (m : kgsl_mmu)
  (tr : list event) (pt ctx : Z) :
  (started P m = false -> kgsl_iommu_setstate P m tr pt ctx = Ok (m, tr)) /\
  (hwpagetable m = pt -> kgsl_iommu_setstate P m tr pt ctx = Ok (m, tr)) /\
  run P [OpSetstate pt ctx; OpSetstate pt ctx] (m, tr)
    = run P [OpSetstate pt ctx] (m, tr) /\
  (forall m1 tr1,
     kgsl_iommu_setstate P m tr pt ctx = Ok (m1, tr1) ->
     kgsl_iommu_setstate P m1 tr1 pt ctx = Ok (m1, tr1) /\
     (idle_waits tr1 <= S (idle_waits tr))%nat).
Proof.
  split; [intros; apply setstate_idle; auto|].
  split; [intros; apply setstate_idle; auto|].
  split.
  - simpl.
    destruct (kgsl_iommu_setstate P m tr pt ctx) as [[m1 tr1]| |] eqn:E;
      simpl; try reflexivity.
    apply setstate_result in E. destruct E as [E _].
    rewrite setstate_idle by exact E. reflexivity.
  - intros m1 tr1 E. apply setstate_result in E. destruct E as [E Hi].
    split; [apply setstate_idle; exact E | exact Hi].
Qed.

Lemma setstate_twice_is_once_witness :
  exists m tr m1 tr1,
    run (board 0 0 true) [OpInit board_pdata; OpStart] (fresh_mmu, [])
      = Ok (m, tr) /\
    kgsl_iommu_setstate (board 0 0 true) m tr 2000 0 = Ok (m1, tr1) /\
    hwpagetable m <> hwpagetable m1 /\
    idle_waits tr1 = S (idle_waits tr) /\
    kgsl_iommu_setstate (board 0 0 true) m1 tr1 2000 0 = Ok (m1, tr1).
Proof.
  do 2 eexists.
  assert (Hrun : run (board 0 0 true) [OpInit board_pdata; OpStart]
                   (fresh_mmu, []) = Ok _) by (vm_compute; reflexivity).
  match type of Hrun with _ = Ok (?m, ?tr) =>
    assert (E : kgsl_iommu_setstate (board 0 0 true) m tr 2000 0 = Ok _)
      by (vm_compute; reflexivity)
  end.
  match type of E with kgsl_iommu_setstate ?P ?m ?tr ?pt ?ctx = Ok (?m1, ?tr1) =>
    pose proof (proj2 (proj2 (proj2 (setstate_twice_is_once P m tr pt ctx)))
                  m1 tr1 E) as [E2 _]
  end.
  do 2 eexists. split; [exact Hrun|]. split; [exact E|].
  split; [simpl; lia|]. split; [reflexivity | exact E2].
Defined.

(** ** C6: unmap *)

(** C6.  unmap works on the descriptor's address masked with the alignment
    mask.  It always returns 0.  When the masked address or the size is zero
    it leaves the trace as it found it: nothing is asked of the domain.
    Otherwise it asks the domain once, for the masked address, and a failure
    of that call only adds an error report. *)
Theorem unmap_is_best_effort (P : platform) (domain : Z)
  (memdesc : kgsl_memdesc) (tr : list event) :
  let masked := Z.land (gpuaddr memdesc) (KGSL_MMU_ALIGN_MASK P) in
  let ret := iommu_unmap_range P tr domain masked (size memdesc) in
  fst (kgsl_iommu_unmap P domain memdesc tr) = 0 /\
  (masked = 0 \/ size memdesc = 0 ->
     snd (kgsl_iommu_unmap P domain memdesc tr) = tr) /\
  (masked <> 0 -> size memdesc <> 0 ->
     domain_calls (snd (kgsl_iommu_unmap P domain memdesc tr)) =
       EvUnmapRange domain masked (size memdesc) ret :: domain_calls tr /\
     (ret = 0 ->
        snd (kgsl_iommu_unmap P domain memdesc tr) =
          EvUnmapRange domain masked (size memdesc) ret :: tr) /\
     (ret <> 0 ->
        snd (kgsl_iommu_unmap P domain memdesc tr) =
          EvLog LOG_ERR "iommu_unmap_range failed"
            :: EvUnmapRange domain masked (size memdesc) ret :: tr)).
Proof.
  intros masked ret. unfold kgsl_iommu_unmap. fold masked. fold ret.
  destruct (size memdesc =? 0) eqn:Hsz; simpl.
  - apply Z.eqb_eq in Hsz. repeat split; auto; intros; contradiction.
  - apply Z.eqb_neq in Hsz.
    destruct (masked =? 0) eqn:Hm; simpl.
    + apply Z.eqb_eq in Hm. repeat split; auto; intros; contradiction.
    + apply Z.eqb_neq in Hm.
      destruct (ret =? 0) eqn:Hr; simpl.
      * apply Z.eqb_eq in Hr.
        repeat split; auto; try tauto; intros; contradiction.
      * apply Z.eqb_neq in Hr.
        repeat split; auto; try tauto; intros; contradiction.
Qed.

Lemma unmap_is_best_effort_witness :
  kgsl_iommu_unmap (board 0 0 true) 5000 page []
    = (0, [EvLog LOG_ERR "iommu_unmap_range failed";
           EvUnmapRange 5000 8192 4096 (-22)]) /\
  kgsl_iommu_unmap (board 0 0 true) 5000
      {| gpuaddr := 4095; size := 4096; sg := 77 |} [] = (0, []).
Proof.
  destruct (unmap_is_best_effort (board 0 0 true) 5000 page [])
    as (H0 & _ & H).
  destruct H as (_ & _ & Hfail);
    [vm_compute; discriminate | vm_compute; discriminate |].
  assert (Hlog := Hfail ltac:(vm_compute; discriminate)).
  destruct (unmap_is_best_effort (board 0 0 true) 5000
              {| gpuaddr := 4095; size := 4096; sg := 77 |} [])
    as (H0' & Hnop & _).
  assert (Hsame := Hnop (or_introl eq_refl)).
  split; apply injective_projections.
  - exact H0.
  - exact Hlog.
  - exact H0'.
  - exact Hsame.
Defined.

(** ** C7: map on a pagetable without a domain *)




(** ** C8: the protection flags of map *)

(** C8.  map does the same whatever protection flags it is given, and with a
    domain that is not NULL it asks the domain exactly once, for the
    descriptor's address, scatter list and size, with read|write access; it
    returns what that call answered. *)
Theorem map_ignores_protflags (P : platform) (domain : Z)
  (memdesc : kgsl_memdesc) (tr : list event) :
  (forall protflags protflags',
     kgsl_iommu_map P domain memdesc protflags tr =
     kgsl_iommu_map P domain memdesc protflags' tr) /\
  (domain <> 0 ->
   forall protflags,
   exists tr',
     let prot := Z.lor (IOMMU_READ P) (IOMMU_WRITE P) in
     let ret := iommu_map_range P tr domain (gpuaddr memdesc) (sg memdesc)
                  (size memdesc) prot in
     kgsl_iommu_map P domain memdesc protflags tr = Ok (ret, tr') /\
     domain_calls tr' =
       EvMapRange domain (gpuaddr memdesc) (sg memdesc) (size memdesc)
         prot ret :: domain_calls tr).
Proof.
  split; [reflexivity|].
  intros Hd protflags. unfold kgsl_iommu_map.
  apply Z.eqb_neq in Hd. rewrite Hd.
  match goal with |- context [negb (?r =? 0)] => destruct (r =? 0) end;
    simpl; eexists; split; reflexivity.
Qed.

Lemma map_ignores_protflags_witness :
  kgsl_iommu_map (board 0 0 true) 5000 page 0 []
    = Ok (0, [EvMapRange 5000 12288 77 4096 3 0]) /\
  kgsl_iommu_map (board 0 0 true) 5000 page 1 []
    = Ok (0, [EvMapRange 5000 12288 77 4096 3 0]).
Proof.
  destruct (proj2 (map_ignores_protflags (board 0 0 true) 5000 page []))
    with (protflags := 0) as (tr' & E & _); [lia|].
  rewrite <- (proj1 (map_ignores_protflags (board 0 0 true) 5000 page []) 0 1).
  split; reflexivity.
Defined.

(** ** C9: init and bad descriptors *)

(** C9, as stated, fails twice over.  A declared context without a name is
    skipped before its kind is looked at, so an unknown kind there is
    accepted; and when the allocation of the private state fails, init
    answers -ENOMEM whatever the descriptors say. *)
Lemma init_is_not_always_a_config_error :
  (exists d c,
     In d (iommu_data unnamed_pdata) /\ In c (iommu_ctxs d) /\
     ctxt_ctx_id c <> KGSL_IOMMU_CONTEXT_USER (board 0 0 true) /\
     ctxt_ctx_id c <> KGSL_IOMMU_CONTEXT_PRIV (board 0 0 true)) /\
  (exists m' tr',
     kgsl_iommu_init (board 0 0 true) unnamed_pdata fresh_mmu []
       = Ok (0, m', tr') /\
     priv m' <> None) /\
  bad_descriptor (board 0 0 false) crowded_pdata /\
  (exists tr',
     kgsl_iommu_init (board 0 0 false) crowded_pdata fresh_mmu []
       = Ok (- ENOMEM, fresh_mmu, tr')).
Proof.
  split.
  { do 2 eexists. split; [left; reflexivity|]. split; [left; reflexivity|].
    simpl. lia. }
  split.
  { do 2 eexists. split; [vm_compute; reflexivity | discriminate]. }
  split.
  { eexists. split; [left; reflexivity|]. left. vm_compute. lia. }
  eexists. vm_compute. reflexivity.
Qed.

(** C9, amended.  When the private state can be allocated, init answers
    -EINVAL if some unit declares more contexts than fit, if some named
    context is unknown to the platform, or if some named context has a kind
    that is neither user nor privileged.  In each case the private state is
    freed last thing and the private pointer is left NULL. *)
Theorem init_rejects_bad_descriptors (P : platform)
  (pd : kgsl_device_platform_data) (m : kgsl_mmu) (tr : list event) :
  kzalloc P tr = true ->
  bad_descriptor P pd ->
  exists tr',
    kgsl_iommu_init P pd m tr = Ok (- EINVAL, set_priv None m, EvKfree :: tr').
Proof.
  intros Hk Hbad.
  destruct (kgsl_iommu_init_spec P pd m tr)
    as (status & m' & tr' & E & _ & _ & _ & Hok).
  destruct (Hok Hk) as (Hst & Hgood & Hfail & _).
  assert (Hnz : status <> 0).
  { intros Hz. specialize (Hgood Hz). rewrite Forall_forall in Hgood.
    destruct Hbad as (d & Hd & Hbad).
    destruct (Hgood d Hd) as [Hcount Hentries].
    destruct Hbad as [Hmany | (c & name & Hc & Hname & Hbad)]; [lia|].
    rewrite Forall_forall in Hentries. specialize (Hentries c Hc).
    unfold good_entry in Hentries. rewrite Hname in Hentries.
    destruct Hentries as [Hres Hkind].
    destruct Hbad as [Hnull | [Hu Hp]]; [contradiction | tauto]. }
  destruct (Hfail Hnz) as (-> & tr0 & ->).
  destruct Hst as [Hst|Hst]; [contradiction|]. subst status.
  exists tr0. exact E.
Qed.

Lemma init_rejects_bad_descriptors_witness :
  kgsl_iommu_init (board 0 0 true) crowded_pdata fresh_mmu []
    = Ok (-22, fresh_mmu,
          [EvKfree;
           EvLog LOG_ERR "Too many iommu devices defined for an IOMMU unit";
           EvKzalloc true]).
Proof.
  destruct (init_rejects_bad_descriptors (board 0 0 true) crowded_pdata
              fresh_mmu []) as (tr' & E).
  - reflexivity.
  - eexists. split; [left; reflexivity|]. left. vm_compute. lia.
  - rewrite E. vm_compute in E. inversion E. reflexivity.
Defined.

(** ** C10: the base token of the hardware pagetable *)

Lemma exec_keeps_stopped_null (P : platform) (o : op) (s s' : state) :
  KGSL_FLAGS_STARTED P <> 0 ->
  (started P (fst s) = false -> hwpagetable (fst s) = 0) ->
  exec P o s = Ok s' ->
  started P (fst s') = false -> hwpagetable (fst s') = 0.
Proof.
  intros Hflag Hinv Hexec.
  destruct s as [m tr]. destruct s' as [m' tr']. simpl in *.
  destruct o as [pd| | |pt ctx].
  - destruct (kgsl_iommu_init_spec P pd m tr)
      as (st & m1 & tr1 & E & Hf & Hh & _).
    rewrite E in Hexec. simpl in Hexec. inversion Hexec; subst m1 tr1.
    rewrite (started_flags P m m' Hf), Hh. exact Hinv.
  - destruct (started P m) eqn:Hs.
    + unfold kgsl_iommu_start in Hexec. rewrite Hs in Hexec. simpl in Hexec.
      inversion Hexec; subst. congruence.
    + destruct (kgsl_iommu_start P m tr) as [[[st m1] tr1]| |] eqn:E;
        simpl in Hexec; try discriminate.
      inversion Hexec; subst m1 tr1; clear Hexec.
      apply start_spec in E; [|exact Hs].
      destruct E as (_ & _ & _ & [(_ & _ & Hf & Hh & _)
                                 | (domain & _ & _ & _ &
                                    [(_ & Hf & _)|(_ & _ & Hh & _)])]).
      * intros _. rewrite Hh. auto.
      * unfold started. rewrite Hf, land_lor_same.
        intros Hoff. apply negb_false_iff, Z.eqb_eq in Hoff. contradiction.
      * intros _. exact Hh.
  - destruct (started P m) eqn:Hs.
    + destruct (kgsl_iommu_stop P m tr) as [[[st m1] tr1]| |] eqn:E;
        simpl in Hexec; try discriminate.
      inversion Hexec; subst m1 tr1; clear Hexec.
      apply stop_spec in E; [|exact Hs].
      destruct E as (_ & _ & _ & Hh & _). intros _. exact Hh.
    + rewrite (stop_not_started P m tr Hs) in Hexec. simpl in Hexec.
      inversion Hexec; subst. rewrite Hs. auto.
  - destruct (started P m) eqn:Hs.
    + destruct (Z.eq_dec (hwpagetable m) pt) as [He|Hne].
      * rewrite setstate_idle in Hexec by auto.
        inversion Hexec; subst. congruence.
      * apply setstate_switch_spec in Hexec; auto.
        destruct Hexec as (_ & Hf & _).
        rewrite (started_flags P m m' Hf), Hs. discriminate.
    + rewrite setstate_idle in Hexec by auto.
      inversion Hexec; subst. rewrite Hs. auto.
Qed.

Lemma run_keeps_stopped_null (P : platform) :
  KGSL_FLAGS_STARTED P <> 0 ->
  forall ops s s',
    (started P (fst s) = false -> hwpagetable (fst s) = 0) ->
    run P ops s = Ok s' ->
    started P (fst s') = false -> hwpagetable (fst s') = 0.
Proof.
  intros Hflag. induction ops as [|o rest IH]; intros s s' Hinv Hrun;
    simpl in Hrun.
  - inversion Hrun; subst. exact Hinv.
  - destruct (exec P o s) as [s1| |] eqn:E; simpl in Hrun; try discriminate.
    eapply IH; [|exact Hrun].
    eapply exec_keeps_stopped_null; eassumption.
Qed.

Lemma exec_keeps_started_valid (P : platform) (o : op) (s s' : state) :
  no_null_switch [o] = true ->
  (started P (fst s) = true -> valid_pt P (hwpagetable (fst s))) ->
  exec P o s = Ok s' ->
  started P (fst s') = true -> valid_pt P (hwpagetable (fst s')).
Proof.
  intros Hnn Hinv Hexec.
  destruct s as [m tr]. destruct s' as [m' tr']. simpl in *.
  destruct o as [pd| | |pt ctx].
  - destruct (kgsl_iommu_init_spec P pd m tr)
      as (st & m1 & tr1 & E & Hf & Hh & _).
    rewrite E in Hexec. simpl in Hexec. inversion Hexec; subst m1 tr1.
    rewrite (started_flags P m m' Hf), Hh. exact Hinv.
  - destruct (started P m) eqn:Hs.
    + unfold kgsl_iommu_start in Hexec. rewrite Hs in Hexec. simpl in Hexec.
      inversion Hexec; subst. auto.
    + destruct (kgsl_iommu_start P m tr) as [[[st m1] tr1]| |] eqn:E;
        simpl in Hexec; try discriminate.
      inversion Hexec; subst m1 tr1; clear Hexec.
      apply start_spec in E; [|exact Hs].
      destruct E as (_ & _ & _ & [(_ & _ & Hf & _)
                                 | (domain & Hnz & Hp & Hd &
                                    [(_ & _ & Hh & _)|(_ & Hf & _)])]).
      * rewrite (started_flags P m m' Hf), Hs. discriminate.
      * intros _. rewrite Hh. split; [exact Hnz|]. exists domain. auto.
      * rewrite (started_flags P m m' Hf), Hs. discriminate.
  - destruct (started P m) eqn:Hs.
    + destruct (kgsl_iommu_stop P m tr) as [[[st m1] tr1]| |] eqn:E;
        simpl in Hexec; try discriminate.
      inversion Hexec; subst m1 tr1; clear Hexec.
      apply stop_spec in E; [|exact Hs].
      destruct E as (_ & _ & Hoff & _). rewrite Hoff. discriminate.
    + rewrite (stop_not_started P m tr Hs) in Hexec. simpl in Hexec.
      inversion Hexec; subst. rewrite Hs. discriminate.
  - destruct (started P m) eqn:Hs.
    + destruct (Z.eq_dec (hwpagetable m) pt) as [He|Hne].
      * rewrite setstate_idle in Hexec by auto.
        inversion Hexec; subst. auto.
      * apply setstate_switch_spec in Hexec; auto.
        destruct Hexec as (_ & _ & Hh & _ & _ & _ & _ & _ & _ & Hpt).
        rewrite Bool.andb_true_r in Hnn.
        apply negb_true_iff, Z.eqb_neq in Hnn.
        destruct (Hpt Hnn) as (domain & Hp & Hd & _).
        intros _. rewrite Hh. split; [exact Hnn|]. exists domain. auto.
    + rewrite setstate_idle in Hexec by auto.
      inversion Hexec; subst. rewrite Hs. discriminate.
Qed.

Lemma run_keeps_started_valid (P : platform) :
  forall ops s s',
    no_null_switch ops = true ->
    (started P (fst s) = true -> valid_pt P (hwpagetable (fst s))) ->
    run P ops s = Ok s' ->
    started P (fst s') = true -> valid_pt P (hwpagetable (fst s')).
Proof.
  induction ops as [|o rest IH]; intros s s' Hnn Hinv Hrun; simpl in Hrun.
  - inversion Hrun; subst. exact Hinv.
  - destruct (exec P o s) as [s1| |] eqn:E; simpl in Hrun; try discriminate.
    simpl in Hnn. apply andb_prop in Hnn. destruct Hnn as [Ho Hrest].
    eapply IH; [exact Hrest | | exact Hrun].
    eapply exec_keeps_started_valid; [|exact Hinv | exact E].
    simpl. now rewrite Ho.
Qed.

(** C10, as the specification states it, fails: being started is not the
    same as having a hardware pagetable.  A switch to NULL on a running
    controller leaves the started flag set and the hardware pagetable
    pointer NULL, and the base token is then read through NULL. *)
Lemma started_does_not_make_ptbase_safe :
  exists s,
    run (board 0 0 true) [OpInit board_pdata; OpStart; OpSetstate 0 0]
      (fresh_mmu, []) = Ok s /\
    started (board 0 0 true) (fst s) = true /\
    hwpagetable (fst s) = 0 /\
    kgsl_iommu_get_current_ptbase (board 0 0 true) (fst s) = Fault.
Proof.
  eexists. split; [vm_compute; reflexivity|].
  split; [reflexivity|]. split; reflexivity.
Qed.

(** C10, amended.  The base token is read through the hardware pagetable
    pointer without a check: the read yields the domain of the hardware
    pagetable exactly when that pointer is not NULL and refers to a
    pagetable, and is an invalid access otherwise, never a sentinel.  From
    a controller created uninitialised, whatever was called since, the
    pointer is NULL whenever the controller is not started: before the
    first start, after a stop, after a start that failed.  When it is
    started, and no switch of the sequence was given a NULL pagetable, the
    pointer refers to a pagetable with a domain and the read yields that
    domain. *)
Theorem get_current_ptbase_needs_pagetable (P : platform) :
  KGSL_FLAGS_STARTED P <> 0 ->
  (forall m, hwpagetable m = 0 -> kgsl_iommu_get_current_ptbase P m = Fault) /\
  (forall m domain,
     kgsl_iommu_get_current_ptbase P m = Ok domain <->
     hwpagetable m <> 0 /\ pt_priv P (hwpagetable m) = Some domain) /\
  (forall ops tr0 m tr,
     run P ops (fresh_mmu, tr0) = Ok (m, tr) ->
     started P m = false ->
     kgsl_iommu_get_current_ptbase P m = Fault) /\
  (forall m tr rc m' tr',
     started P m = true ->
     kgsl_iommu_stop P m tr = Ok (rc, m', tr') ->
     kgsl_iommu_get_current_ptbase P m' = Fault) /\
  (forall ops tr0 m tr,
     no_null_switch ops = true ->
     run P ops (fresh_mmu, tr0) = Ok (m, tr) ->
     started P m = true ->
     exists domain,
       domain <> 0 /\
       pt_priv P (hwpagetable m) = Some domain /\
       kgsl_iommu_get_current_ptbase P m = Ok domain).
Proof.
  intros Hflag.
  assert (Hnull : forall m, hwpagetable m = 0 ->
                            kgsl_iommu_get_current_ptbase P m = Fault).
  { intros m Hm. unfold kgsl_iommu_get_current_ptbase. now rewrite Hm. }
  assert (Hiff : forall m domain,
             kgsl_iommu_get_current_ptbase P m = Ok domain <->
             hwpagetable m <> 0 /\ pt_priv P (hwpagetable m) = Some domain).
  { intros m domain. unfold kgsl_iommu_get_current_ptbase.
    destruct (hwpagetable m =? 0) eqn:Hh.
    - apply Z.eqb_eq in Hh. split; [discriminate | intros [Hn _]; tauto].
    - apply Z.eqb_neq in Hh.
      destruct (pt_priv P (hwpagetable m)) as [d|].
      + split; [intros H; inversion H; auto | intros [_ H]; now inversion H].
      + split; [discriminate | intros [_ H]; discriminate]. }
  split; [exact Hnull|]. split; [exact Hiff|]. split; [|split].
  - intros ops tr0 m tr Hrun Hoff. apply Hnull.
    apply (run_keeps_stopped_null P Hflag ops (fresh_mmu, tr0) (m, tr));
      auto.
  - intros m tr rc m' tr' Hs E. apply Hnull.
    apply stop_spec in E; [|exact Hs]. apply E.
  - intros ops tr0 m tr Hnn Hrun Hs.
    destruct (run_keeps_started_valid P ops (fresh_mmu, tr0) (m, tr) Hnn)
      as (Hnz & domain & Hp & Hd); auto.
    { simpl. unfold started. simpl. discriminate. }
    exists domain. split; [exact Hd|]. split; [exact Hp|].
    apply Hiff. auto.
Qed.

Lemma get_current_ptbase_needs_pagetable_witness :
  (exists m tr,
     run (board 0 0 true) [OpInit board_pdata] (fresh_mmu, []) = Ok (m, tr) /\
     kgsl_iommu_get_current_ptbase (board 0 0 true) m = Fault) /\
  (exists m tr,
     run (board 0 0 true) [OpInit board_pdata; OpStart; OpStop]
       (fresh_mmu, []) = Ok (m, tr) /\
     kgsl_iommu_get_current_ptbase (board 0 0 true) m = Fault) /\
  (exists m tr,
     run (board 0 0 true) [OpInit board_pdata; OpStart]
       (fresh_mmu, []) = Ok (m, tr) /\
     kgsl_iommu_get_current_ptbase (board 0 0 true) m = Ok 5000) /\
  (exists m tr,
     run picky_board [OpInit board_pdata; OpStart; OpSetstate 2000 0]
       (fresh_mmu, []) = Ok (m, tr) /\
     kgsl_iommu_get_current_ptbase picky_board m = Ok 6000).
Proof.
  assert (Hflag : KGSL_FLAGS_STARTED (board 0 0 true) <> 0) by (simpl; lia).
  destruct (get_current_ptbase_needs_pagetable (board 0 0 true) Hflag)
    as (_ & _ & Hstopped & _ & Hstarted).
  assert (Hflag' : KGSL_FLAGS_STARTED picky_board <> 0) by (simpl; lia).
  destruct (get_current_ptbase_needs_pagetable picky_board Hflag')
    as (_ & _ & _ & _ & Hstarted').
  split; [|split; [|split]].
  - do 2 eexists.
    assert (Hrun : run (board 0 0 true) [OpInit board_pdata] (fresh_mmu, [])
                   = Ok _) by (vm_compute; reflexivity).
    split; [exact Hrun|]. eapply Hstopped; [exact Hrun | reflexivity].
  - do 2 eexists.
    assert (Hrun : run (board 0 0 true) [OpInit board_pdata; OpStart; OpStop]
                     (fresh_mmu, []) = Ok _) by (vm_compute; reflexivity).
    split; [exact Hrun|]. eapply Hstopped; [exact Hrun | reflexivity].
  - assert (Hrun : run (board 0 0 true) [OpInit board_pdata; OpStart]
                     (fresh_mmu, []) = Ok _) by (vm_compute; reflexivity).
    match type of Hrun with run _ ?ops _ = Ok (?m, ?tr) =>
      destruct (Hstarted ops [] m tr eq_refl Hrun eq_refl)
        as (domain & _ & Hp & Hread)
    end.
    do 2 eexists. split; [exact Hrun|].
    vm_compute in Hp. inversion Hp; subst domain. exact Hread.
  - assert (Hrun : run picky_board
                     [OpInit board_pdata; OpStart; OpSetstate 2000 0]
                     (fresh_mmu, []) = Ok _) by (vm_compute; reflexivity).
    match type of Hrun with run _ ?ops _ = Ok (?m, ?tr) =>
      destruct (Hstarted' ops [] m tr eq_refl Hrun eq_refl)
        as (domain & _ & Hp & Hread)
    end.
    do 2 eexists. split; [exact Hrun|].
    vm_compute in Hp. inversion Hp; subst domain. exact Hread.
Defined.

(** * Further properties of the backend *)

(** ** What the operations add to the trace *)

Lemma adds_refl (Q : event -> bool) (tr : list event) : adds Q tr tr.
Proof. exists []. split; [reflexivity | constructor]. Qed.

Lemma adds_step (Q : event -> bool) (e : event) (tr tr' : list event) :
  Q e = true -> adds Q (e :: tr) tr' -> adds Q tr tr'.
Proof.
  intros He (newer & -> & Hall). exists (newer ++ [e]).
  split; [now rewrite <- app_assoc|].
  apply Forall_app. split; [exact Hall | now constructor].
Qed.

Lemma adds_trans (Q : event -> bool) (t1 t2 t3 : list event) :
  adds Q t1 t2 -> adds Q t2 t3 -> adds Q t1 t3.
Proof.
  intros (n1 & -> & H1) (n2 & -> & H2). exists (n2 ++ n1).
  split; [now rewrite app_assoc|]. apply Forall_app. auto.
Qed.

Lemma adds_weaken (Q Q' : event -> bool) (tr tr' : list event) :
  (forall e, Q e = true -> Q' e = true) -> adds Q tr tr' -> adds Q' tr tr'.
Proof.
  intros Himp (newer & -> & Hall). exists newer. split; [reflexivity|].
  eapply Forall_impl; [|exact Hall]. auto.
Qed.

Lemma adds_filter (Q f : event -> bool) (tr tr' : list event) :
  (forall e, Q e = true -> f e = false) ->
  adds Q tr tr' -> filter f tr' = filter f tr.
Proof.
  intros Hoff (newer & -> & Hall). rewrite filter_app.
  replace (filter f newer) with (@nil event); [reflexivity|].
  induction Hall as [|e l He _ IH]; [reflexivity|].
  simpl. now rewrite (Hoff e He).
Qed.

Lemma detach_devs_adds (domain : Z) (n : nat) :
  forall ds tr ds' tr',
    detach_devs domain n ds tr = Ok (ds', tr') ->
    adds (detach_event domain) tr tr'.
Proof.
  induction n as [|n IH]; intros ds tr ds' tr' H; simpl in H.
  - inversion H; subst. apply adds_refl.
  - destruct ds as [|d rest]; [discriminate|].
    destruct (attached d); ok_inv H; inversion H; subst; clear H;
      apply IH in E; auto.
    eapply adds_step; [|eapply adds_step; [|exact E]].
    + simpl. apply Z.eqb_refl.
    + reflexivity.
Qed.

Lemma detach_units_adds (domain : Z) (n : nat) :
  forall us tr us' tr',
    detach_units domain n us tr = Ok (us', tr') ->
    adds (detach_event domain) tr tr'.
Proof.
  induction n as [|n IH]; intros us tr us' tr' H; simpl in H.
  - inversion H; subst. apply adds_refl.
  - destruct us as [|u rest]; [discriminate|].
    ok_inv H. ok_inv H. inversion H; subst; clear H.
    apply detach_devs_adds in E. apply IH in E0.
    eapply adds_trans; eassumption.
Qed.

Lemma detach_adds (P : platform) (m : kgsl_mmu) (tr : list event)
  (m' : kgsl_mmu) (tr' : list event) :
  kgsl_detach_pagetable_iommu_domain P m tr = Ok (m', tr') ->
  exists domain,
    pt_priv P (hwpagetable m) = Some domain /\
    adds (detach_event domain) tr tr'.
Proof.
  unfold kgsl_detach_pagetable_iommu_domain. intros H.
  destruct (hwpagetable m =? 0); [discriminate|].
  destruct (pt_priv P (hwpagetable m)) as [domain|]; [|discriminate].
  destruct (domain =? 0); [discriminate|].
  destruct (priv m) as [iommu|]; [|discriminate].
  ok_inv H. inversion H; subst; clear H.
  exists domain. split; [reflexivity|].
  eapply detach_units_adds; eassumption.
Qed.

Lemma attach_devs_adds (P : platform) (domain : Z) (n : nat) :
  forall ds tr ret ds' tr',
    attach_devs P domain n ds tr = Ok (ret, ds', tr') ->
    adds (attach_event domain) tr tr'.
Proof.
  induction n as [|n IH]; intros ds tr ret ds' tr' H; simpl in H.
  - inversion H; subst. apply adds_refl.
  - destruct ds as [|d rest]; [discriminate|].
    destruct (attached d).
    + destruct (attach_devs P domain n rest tr) as [[[r r'] t']| |] eqn:E;
        simpl in H; try discriminate.
      inversion H; subst; clear H. eapply IH; eassumption.
    + destruct (iommu_attach_device P tr domain (dev d) =? 0).
      * match type of H with context [attach_devs P domain n rest ?t] =>
          destruct (attach_devs P domain n rest t) as [[[r r'] t']| |] eqn:E;
            simpl in H; try discriminate end.
        inversion H; subst; clear H. apply IH in E.
        eapply adds_step; [|eapply adds_step; [|exact E]].
        -- simpl. apply Z.eqb_refl.
        -- reflexivity.
      * inversion H; subst; clear H.
        eapply adds_step; [|eapply adds_step; [|apply adds_refl]].
        -- simpl. apply Z.eqb_refl.
        -- reflexivity.
Qed.

Lemma attach_units_adds (P : platform) (domain : Z) (n : nat) :
  forall us tr ret us' tr',
    attach_units P domain n us tr = Ok (ret, us', tr') ->
    adds (attach_event domain) tr tr'.
Proof.
  induction n as [|n IH]; intros us tr ret us' tr' H; simpl in H.
  - inversion H; subst. apply adds_refl.
  - destruct us as [|u rest]; [discriminate|].
    destruct (attach_devs P domain (dev_count u) (devs u) tr)
      as [[[r1 ds1] tr1]| |] eqn:E1; simpl in H; try discriminate.
    apply attach_devs_adds in E1.
    destruct (r1 =? 0).
    + destruct (attach_units P domain n rest tr1) as [[[r2 us2] tr2]| |] eqn:E2;
        simpl in H; try discriminate.
      inversion H; subst; clear H.
      apply IH in E2. eapply adds_trans; eassumption.
    + inversion H; subst; clear H. exact E1.
Qed.

Lemma attach_adds (P : platform) (m : kgsl_mmu) (tr : list event)
  (ret : Z) (m' : kgsl_mmu) (tr' : list event) :
  kgsl_attach_pagetable_iommu_domain P m tr = Ok (ret, m', tr') ->
  exists domain,
    pt_priv P (hwpagetable m) = Some domain /\
    adds (attach_event domain) tr tr'.
Proof.
  unfold kgsl_attach_pagetable_iommu_domain. intros H.
  destruct (hwpagetable m =? 0); [discriminate|].
  destruct (pt_priv P (hwpagetable m)) as [domain|]; [|discriminate].
  destruct (domain =? 0); [discriminate|].
  destruct (priv m) as [iommu|]; [|discriminate].
  destruct (attach_units P domain (unit_count iommu) (iommu_units iommu) tr)
    as [[[r us'] t']| |] eqn:E; simpl in H; try discriminate.
  inversion H; subst; clear H.
  exists domain. split; [reflexivity|].
  eapply attach_units_adds; eassumption.
Qed.

Lemma get_ctxs_loop_adds (P : platform) :
  forall ctxs u tr ret u' tr',
    get_ctxs_loop P ctxs u tr = Ok (ret, u', tr') ->
    adds discovery_event tr tr'.
Proof.
  induction ctxs as [|c rest IH]; intros u tr ret u' tr' H; simpl in H.
  - inversion H; subst. apply adds_refl.
  - destruct (iommu_ctx_name c) as [name|]; [|eapply IH; exact H].
    destruct (array_update (dev_count u) (set_dev (msm_iommu_get_ctx P name))
                (devs u)) as [ds1|]; [|discriminate].
    destruct (msm_iommu_get_ctx P name =? 0).
    { inversion H; subst; clear H.
      eapply adds_step; [|eapply adds_step; [|apply adds_refl]]; reflexivity. }
    destruct (negb (KGSL_IOMMU_CONTEXT_USER P =? ctxt_ctx_id c)
              && negb (KGSL_IOMMU_CONTEXT_PRIV P =? ctxt_ctx_id c)).
    { inversion H; subst; clear H.
      eapply adds_step; [|eapply adds_step; [|apply adds_refl]]; reflexivity. }
    destruct (array_update (dev_count u) (set_ctx_id (ctxt_ctx_id c)) ds1)
      as [ds2|]; [|discriminate].
    apply IH in H.
    eapply adds_step; [|eapply adds_step; [|exact H]]; reflexivity.
Qed.

Lemma get_ctxt_loop_adds (P : platform) :
  forall data i iommu tr ret iommu' tr',
    get_ctxt_loop P data i iommu tr = Ok (ret, iommu', tr') ->
    adds discovery_event tr tr'.
Proof.
  induction data as [|d rest IH]; intros i iommu tr ret iommu' tr' H;
    simpl in H.
  - inversion H; subst. apply adds_refl.
  - destruct (_get_iommu_ctxs P iommu d i tr) as [[[r1 i1] t1]| |] eqn:E;
      simpl in H; try discriminate.
    assert (H1 : adds discovery_event tr t1).
    { unfold _get_iommu_ctxs in E.
      destruct (KGSL_IOMMU_MAX_DEVS_PER_UNIT P <? iommu_ctx_count d)%nat.
      - inversion E; subst.
        eapply adds_step; [|apply adds_refl]. reflexivity.
      - destruct (nth_error (iommu_units iommu) i) as [u|]; [|discriminate].
        destruct (get_ctxs_loop P (iommu_ctxs d) u tr)
          as [[[r2 u2] t2]| |] eqn:E2; simpl in E; try discriminate.
        destruct (array_update i (fun _ => u2) (iommu_units iommu));
          [|discriminate].
        inversion E; subst. eapply get_ctxs_loop_adds; eassumption. }
    destruct (r1 =? 0).
    + apply IH in H. eapply adds_trans; eassumption.
    + inversion H; subst. exact H1.
Qed.

Lemma exec_adds (P : platform) (o : op) (s s' : state) :
  exec P o s = Ok s' -> adds (footprint o) (snd s) (snd s').
Proof.
  destruct s as [m tr]. destruct s' as [m' tr']. simpl.
  destruct o as [pd| | |pt ctx]; simpl; intros H.
  - (* init *)
    unfold kgsl_iommu_init in H.
    destruct (kzalloc P tr).
    + destruct (kgsl_get_iommu_ctxt P pd (zero_iommu P) (EvKzalloc true :: tr))
        as [[[st i1] t1]| |] eqn:E; simpl in H; try discriminate.
      assert (H1 : adds (footprint (OpInit pd)) tr t1).
      { refine (adds_step _ (EvKzalloc true) _ _ eq_refl _).
        unfold kgsl_get_iommu_ctxt in E.
        destruct (KGSL_IOMMU_MAX_UNITS P <? iommu_count pd)%nat.
        - inversion E; subst.
          eapply adds_step; [|apply adds_refl]. reflexivity.
        - destruct (get_ctxt_loop P (iommu_data pd) 0 (zero_iommu P)
                      (EvKzalloc true :: tr)) as [[[r2 i2] t2]| |] eqn:E2;
            simpl in E; try discriminate.
          inversion E; subst.
          eapply adds_weaken; [|eapply get_ctxt_loop_adds; exact E2].
          intros [] He; try discriminate; reflexivity. }
      destruct (st =? 0); simpl in H; inversion H; subst; clear H;
        (eapply adds_trans; [exact H1|]);
        (eapply adds_step; [|apply adds_refl]); reflexivity.
    + simpl in H. inversion H; subst.
      eapply adds_step; [|eapply adds_step; [|apply adds_refl]]; reflexivity.
  - (* start *)
    destruct (kgsl_iommu_start P m tr) as [[[st m1] tr1]| |] eqn:E;
      simpl in H; try discriminate.
    inversion H; subst m1 tr1; clear H.
    unfold kgsl_iommu_start in E.
    destruct (started P m); [inversion E; subst; apply adds_refl|].
    assert (Htail : forall m1 tr2 dflt,
               adds (footprint OpStart) tr tr2 ->
               (let* (status, m3, tr3) :=
                  kgsl_attach_pagetable_iommu_domain P
                    (set_hwpagetable dflt m1) tr2 in
                if status =? 0 then
                  Ok (status,
                      set_flags (Z.lor (flags m3) (KGSL_FLAGS_STARTED P)) m3,
                      tr3)
                else
                  let* (m4, tr4) :=
                    kgsl_detach_pagetable_iommu_domain P m3 tr3 in
                  Ok (status, set_hwpagetable 0 m4, tr4))
               = Ok (st, m', tr') ->
               adds (footprint OpStart) tr tr').
    { intros m1 tr2 dflt H2 Ht.
      destruct (kgsl_attach_pagetable_iommu_domain P (set_hwpagetable dflt m1)
                  tr2) as [[[s3 m3] tr3]| |] eqn:Ea; simpl in Ht;
        try discriminate.
      apply attach_adds in Ea. destruct Ea as (domain & _ & Ha).
      assert (H3 : adds (footprint OpStart) tr tr3).
      { eapply adds_trans; [exact H2|].
        eapply adds_weaken; [|exact Ha].
        intros [] He; try discriminate; reflexivity. }
      destruct (s3 =? 0); [inversion Ht; subst; exact H3|].
      destruct (kgsl_detach_pagetable_iommu_domain P m3 tr3)
        as [[m4 tr4]| |] eqn:Ed; simpl in Ht; try discriminate.
      inversion Ht; subst; clear Ht.
      apply detach_adds in Ed. destruct Ed as (domain' & _ & Hd).
      eapply adds_trans; [exact H3|].
      eapply adds_weaken; [|exact Hd].
      intros [] He; try discriminate; reflexivity. }
    destruct (defaultpagetable m =? 0) eqn:Hd0; simpl in E.
    + match type of E with context [if ?c then _ else _] => destruct c end.
      * inversion E; subst.
        eapply adds_step; [|eapply adds_step; [|apply adds_refl]]; reflexivity.
      * eapply Htail; [|exact E].
        eapply adds_step; [|eapply adds_step; [|apply adds_refl]]; reflexivity.
    + rewrite Hd0 in E. eapply Htail; [|exact E].
      eapply adds_step; [|apply adds_refl]. reflexivity.
  - (* stop *)
    destruct (kgsl_iommu_stop P m tr) as [[[st m1] tr1]| |] eqn:E;
      simpl in H; try discriminate.
    inversion H; subst m1 tr1; clear H.
    unfold kgsl_iommu_stop in E.
    destruct (started P m); [|inversion E; subst; apply adds_refl].
    destruct (kgsl_detach_pagetable_iommu_domain P m tr)
      as [[m4 tr4]| |] eqn:Ed; simpl in E; try discriminate.
    inversion E; subst; clear E.
    apply detach_adds in Ed. destruct Ed as (domain & _ & Hd).
    eapply adds_weaken; [|exact Hd].
    intros [] He; try discriminate; reflexivity.
  - (* the switch *)
    unfold kgsl_iommu_setstate in H.
    destruct (started P m); [|inversion H; subst; apply adds_refl].
    destruct (negb (hwpagetable m =? pt));
      [|inversion H; subst; apply adds_refl].
    match type of H with context [kgsl_detach_pagetable_iommu_domain P m ?t] =>
      destruct (kgsl_detach_pagetable_iommu_domain P m t)
        as [[m1 tr2]| |] eqn:Ed; simpl in H; try discriminate end.
    apply detach_adds in Ed. destruct Ed as (domain & _ & Hd).
    assert (H2 : adds (footprint (OpSetstate pt ctx)) tr tr2).
    { refine (adds_step _ (EvIdle _ _) _ _ eq_refl _).
      eapply adds_weaken; [|exact Hd].
      intros [] He; try discriminate; reflexivity. }
    destruct (pt =? 0); simpl in H; [inversion H; subst; exact H2|].
    destruct (kgsl_attach_pagetable_iommu_domain P (set_hwpagetable pt m1) tr2)
      as [[[s3 m3] tr3]| |] eqn:Ea; simpl in H; try discriminate.
    inversion H; subst; clear H.
    apply attach_adds in Ea. destruct Ea as (domain' & _ & Ha).
    eapply adds_trans; [exact H2|].
    eapply adds_weaken; [|exact Ha].
    intros [] He; try discriminate; reflexivity.
Qed.

(** ** The driver calls of attach and detach, one by one *)

Lemma attach_log_cons (e : event) (tr : list event) :
  attach_log (e :: tr) =
  attach_log tr ++ match e with
                   | EvAttach d x rc => [(d, x, rc)]
                   | _ => []
                   end.
Proof.
  unfold attach_log. simpl. rewrite flat_map_app. simpl.
  now rewrite app_nil_r.
Qed.

Lemma detach_log_cons (e : event) (tr : list event) :
  detach_log (e :: tr) =
  detach_log tr ++ match e with
                   | EvDetach d x => [(d, x)]
                   | _ => []
                   end.
Proof.
  unfold detach_log. simpl. rewrite flat_map_app. simpl.
  now rewrite app_nil_r.
Qed.

Lemma detach_devs_log (domain : Z) (n : nat) :
  forall ds tr ds' tr',
    detach_devs domain n ds tr = Ok (ds', tr') ->
    detach_log tr' =
      detach_log tr ++
      map (fun c => (domain, dev c)) (filter attached (firstn n ds)) /\
    attach_log tr' = attach_log tr /\
    (Forall (fun c => attached c = false) (firstn n ds) ->
     ds' = ds /\ tr' = tr).
Proof.
  induction n as [|n IH]; intros ds tr ds' tr' H; simpl in H.
  - inversion H; subst. simpl. rewrite app_nil_r. auto.
  - destruct ds as [|d rest]; [discriminate|].
    destruct (attached d) eqn:Ha; ok_inv H; inversion H; subst; clear H;
      apply IH in E; destruct E as (Hd & Hat & Hno); simpl; rewrite Ha.
    + rewrite Hd, Hat, !detach_log_cons, !attach_log_cons. simpl.
      rewrite !app_nil_r, <- app_assoc. simpl.
      split; [reflexivity|]. split; [reflexivity|].
      intros Hall. inversion Hall; congruence.
    + rewrite Hd, Hat.
      split; [reflexivity|]. split; [reflexivity|].
      intros Hall. inversion Hall as [|? ? _ Hrest]; subst.
      destruct (Hno Hrest) as [-> ->]. auto.
Qed.

Lemma unit_eta (u : kgsl_iommu_unit) :
  {| devs := devs u; dev_count := dev_count u |} = u.
Proof. now destruct u. Qed.

Lemma detach_units_log (domain : Z) (n : nat) :
  forall us tr us' tr',
    detach_units domain n us tr = Ok (us', tr') ->
    detach_log tr' =
      detach_log tr ++
      map (fun c => (domain, dev c))
        (filter attached (flat_map unit_contexts (firstn n us))) /\
    attach_log tr' = attach_log tr /\
    (Forall (fun c => attached c = false)
       (flat_map unit_contexts (firstn n us)) ->
     us' = us /\ tr' = tr).
Proof.
  induction n as [|n IH]; intros us tr us' tr' H; simpl in H.
  - inversion H; subst. simpl. rewrite app_nil_r. auto.
  - destruct us as [|u rest]; [discriminate|].
    ok_inv H. ok_inv H. inversion H; subst; clear H.
    apply detach_devs_log in E. destruct E as (Hd1 & Ha1 & Hno1).
    apply IH in E0. destruct E0 as (Hd2 & Ha2 & Hno2).
    simpl. rewrite filter_app, map_app, Hd2, Hd1, Ha2, Ha1, app_assoc.
    split; [reflexivity|]. split; [reflexivity|].
    intros Hall. apply Forall_app in Hall. destruct Hall as [H1 H2].
    destruct (Hno1 H1) as [-> ->]. destruct (Hno2 H2) as [-> ->].
    now rewrite unit_eta.
Qed.

Lemma mmu_priv_eta (m : kgsl_mmu) (i : kgsl_iommu) :
  priv m = Some i ->
  set_priv (Some {| iommu_units := iommu_units i;
                    unit_count := unit_count i |}) m = m.
Proof. destruct m, i. simpl. intros ->. reflexivity. Qed.

Lemma detach_log_spec (P : platform) (m : kgsl_mmu) (tr : list event)
  (m' : kgsl_mmu) (tr' : list event) :
  kgsl_detach_pagetable_iommu_domain P m tr = Ok (m', tr') ->
  exists domain,
    pt_priv P (hwpagetable m) = Some domain /\
    detach_log tr' =
      detach_log tr ++
      map (fun c => (domain, dev c)) (filter attached (contexts m)) /\
    attach_log tr' = attach_log tr /\
    (none_attached m -> m' = m /\ tr' = tr).
Proof.
  unfold kgsl_detach_pagetable_iommu_domain. intros H.
  destruct (hwpagetable m =? 0); [discriminate|].
  destruct (pt_priv P (hwpagetable m)) as [domain|]; [|discriminate].
  destruct (domain =? 0); [discriminate|].
  destruct (priv m) as [iommu|] eqn:Hp; [|discriminate].
  ok_inv H. inversion H; subst; clear H.
  apply detach_units_log in E. destruct E as (Hd & Ha & Hno).
  exists domain. unfold none_attached, contexts. rewrite Hp.
  split; [reflexivity|]. split; [exact Hd|]. split; [exact Ha|].
  intros Hall. destruct (Hno Hall) as [-> ->].
  split; [now apply mmu_priv_eta | reflexivity].
Qed.

Lemma attach_devs_log (P : platform) (domain : Z) (n : nat) :
  forall ds tr ret ds' tr',
    attach_devs P domain n ds tr = Ok (ret, ds', tr') ->
    detach_log tr' = detach_log tr /\
    (ret = 0 ->
       attach_log tr' =
         attach_log tr ++
         map (fun c => (domain, dev c, 0)) (filter unattached (firstn n ds)) /\
       Forall (fun c => attached c = true) (firstn n ds')) /\
    (Forall (fun c => attached c = true) (firstn n ds) ->
     ret = 0 /\ ds' = ds /\ tr' = tr).
Proof.
  induction n as [|n IH]; intros ds tr ret ds' tr' H; simpl in H.
  - inversion H; subst. simpl. rewrite app_nil_r. auto.
  - destruct ds as [|d rest]; [discriminate|].
    destruct (attached d) eqn:Ha.
    + destruct (attach_devs P domain n rest tr) as [[[r r'] t']| |] eqn:E;
        simpl in H; try discriminate.
      inversion H; subst; clear H.
      apply IH in E. destruct E as (Hd & Hz & Hno).
      simpl. unfold unattached at 1. rewrite Ha. simpl.
      split; [exact Hd|]. split.
      * intros Hr. destruct (Hz Hr) as [Hl Hall].
        split; [exact Hl | constructor; assumption].
      * intros Hall. inversion Hall as [|? ? _ Hrest]; subst.
        destruct (Hno Hrest) as (-> & -> & ->). auto.
    + destruct (iommu_attach_device P tr domain (dev d) =? 0) eqn:Hrc.
      * apply Z.eqb_eq in Hrc.
        match type of H with context [attach_devs P domain n rest ?t] =>
          destruct (attach_devs P domain n rest t) as [[[r r'] t']| |] eqn:E;
            simpl in H; try discriminate end.
        inversion H; subst; clear H.
        apply IH in E. destruct E as (Hd & Hz & Hno).
        simpl. unfold unattached at 1. rewrite Ha. simpl.
        split; [rewrite Hd, !detach_log_cons; simpl;
                now rewrite !app_nil_r|].
        split.
        -- intros Hr. destruct (Hz Hr) as [Hl Hall].
           split; [|constructor; [reflexivity | assumption]].
           rewrite Hl, !attach_log_cons, Hrc. simpl.
           rewrite app_nil_r, <- app_assoc. reflexivity.
        -- intros Hall. inversion Hall; congruence.
      * inversion H; subst; clear H. apply Z.eqb_neq in Hrc.
        split; [rewrite !detach_log_cons; simpl; now rewrite !app_nil_r|].
        split; [intros; contradiction|].
        intros Hall. simpl in Hall. inversion Hall; congruence.
Qed.

Lemma attach_units_log (P : platform) (domain : Z) (n : nat) :
  forall us tr ret us' tr',
    attach_units P domain n us tr = Ok (ret, us', tr') ->
    detach_log tr' = detach_log tr /\
    (ret = 0 ->
       attach_log tr' =
         attach_log tr ++
         map (fun c => (domain, dev c, 0))
           (filter unattached (flat_map unit_contexts (firstn n us))) /\
       Forall (fun c => attached c = true)
         (flat_map unit_contexts (firstn n us'))) /\
    (Forall (fun c => attached c = true)
       (flat_map unit_contexts (firstn n us)) ->
     ret = 0 /\ us' = us /\ tr' = tr).
Proof.
  induction n as [|n IH]; intros us tr ret us' tr' H; simpl in H.
  - inversion H; subst. simpl. rewrite app_nil_r. auto.
  - destruct us as [|u rest]; [discriminate|].
    destruct (attach_devs P domain (dev_count u) (devs u) tr)
      as [[[r1 ds1] tr1]| |] eqn:E1; simpl in H; try discriminate.
    apply attach_devs_log in E1. destruct E1 as (Hd1 & Hz1 & Hno1).
    destruct (r1 =? 0) eqn:Hr1.
    + apply Z.eqb_eq in Hr1.
      destruct (attach_units P domain n rest tr1) as [[[r2 us2] tr2]| |] eqn:E2;
        simpl in H; try discriminate.
      inversion H; subst; clear H.
      apply IH in E2. destruct E2 as (Hd2 & Hz2 & Hno2).
      destruct (Hz1 eq_refl) as [Hl1 Hall1].
      simpl. split; [congruence|]. split.
      * intros Hr. destruct (Hz2 Hr) as [Hl2 Hall2].
        split.
        -- rewrite Hl2, Hl1, filter_app, map_app, app_assoc. reflexivity.
        -- apply Forall_app. split; assumption.
      * intros Hall. apply Forall_app in Hall. destruct Hall as [H1 H2].
        destruct (Hno1 H1) as (_ & -> & ->).
        destruct (Hno2 H2) as (-> & -> & ->).
        now rewrite unit_eta.
    + apply Z.eqb_neq in Hr1. inversion H; subst; clear H.
      split; [exact Hd1|]. split; [intros; contradiction|].
      intros Hall. simpl in Hall. apply Forall_app in Hall.
      destruct Hall as [H1 _]. destruct (Hno1 H1) as (Hz & _). contradiction.
Qed.

Lemma attach_log_spec (P : platform) (m : kgsl_mmu) (tr : list event)
  (ret : Z) (m' : kgsl_mmu) (tr' : list event) :
  kgsl_attach_pagetable_iommu_domain P m tr = Ok (ret, m', tr') ->
  exists domain,
    pt_priv P (hwpagetable m) = Some domain /\
    detach_log tr' = detach_log tr /\
    (ret = 0 ->
       attach_log tr' =
         attach_log tr ++
         map (fun c => (domain, dev c, 0)) (filter unattached (contexts m)) /\
       all_attached m') /\
    (all_attached m -> ret = 0 /\ m' = m /\ tr' = tr).
Proof.
  unfold kgsl_attach_pagetable_iommu_domain. intros H.
  destruct (hwpagetable m =? 0); [discriminate|].
  destruct (pt_priv P (hwpagetable m)) as [domain|]; [|discriminate].
  destruct (domain =? 0); [discriminate|].
  destruct (priv m) as [iommu|] eqn:Hp; [|discriminate].
  destruct (attach_units P domain (unit_count iommu) (iommu_units iommu) tr)
    as [[[r us'] t']| |] eqn:E; simpl in H; try discriminate.
  inversion H; subst; clear H.
  apply attach_units_log in E. destruct E as (Hd & Hz & Hno).
  exists domain. unfold all_attached, contexts. rewrite Hp. simpl.
  split; [reflexivity|]. split; [exact Hd|]. split; [exact Hz|].
  intros Hall. destruct (Hno Hall) as (-> & -> & ->).
  split; [reflexivity|]. split; [now apply mmu_priv_eta | reflexivity].
Qed.

(** ** Context discovery, entry by entry *)

Lemma array_update_at {A : Type} (f : A -> A) (x : A) (post : list A) :
  forall pre : list A,
    array_update (List.length pre) f (pre ++ x :: post)
    = Some (pre ++ f x :: post).
Proof.
  induction pre as [|y pre IH]; simpl; [reflexivity|].
  now rewrite IH.
Qed.

Lemma nth_error_at {A : Type} (x : A) (post : list A) :
  forall pre : list A, nth_error (pre ++ x :: post) (List.length pre) = Some x.
Proof. induction pre as [|y pre IH]; simpl; auto. Qed.

Lemma firstn_exact {A : Type} (l1 l2 : list A) :
  firstn (List.length l1) (l1 ++ l2) = l1.
Proof.
  rewrite firstn_app, Nat.sub_diag, firstn_all. simpl. apply app_nil_r.
Qed.

Section Discovered.

Variable P : platform.

Lemma get_ctxs_loop_exact :
  forall ctxs used free tr,
    Forall (good_entry P) ctxs ->
    (List.length ctxs <= List.length free)%nat ->
    Forall (fun c => attached c = false) free ->
    exists free' tr',
      get_ctxs_loop P ctxs
        {| devs := used ++ free; dev_count := List.length used |} tr
      = Ok (0,
            {| devs := (used ++ discovered P ctxs) ++ free';
               dev_count := List.length (used ++ discovered P ctxs) |},
            tr') /\
      List.length ((used ++ discovered P ctxs) ++ free')
        = List.length (used ++ free) /\
      Forall (fun c => attached c = false) free'.
Proof.
  induction ctxs as [|c rest IH]; intros used free tr Hgood Hroom Hclear.
  - exists free, tr. simpl. rewrite app_nil_r. auto.
  - inversion Hgood as [|? ? Hc Hrest]; subst. simpl in Hroom.
    unfold good_entry in Hc. simpl. unfold discovered. simpl.
    destruct (iommu_ctx_name c) as [name|] eqn:Hname.
    + destruct free as [|x free0]; simpl in Hroom; [lia|].
      inversion Hclear as [|? ? Hx Hclear0]; subst.
      destruct Hc as [Hres Hkind].
      rewrite array_update_at.
      apply Z.eqb_neq in Hres. rewrite Hres.
      assert (Hk : negb (KGSL_IOMMU_CONTEXT_USER P =? ctxt_ctx_id c)
                   && negb (KGSL_IOMMU_CONTEXT_PRIV P =? ctxt_ctx_id c)
                   = false).
      { apply andb_false_iff.
        destruct Hkind as [Hk|Hk]; [left | right];
          apply negb_false_iff, Z.eqb_eq; auto. }
      rewrite Hk, array_update_at.
      set (d := {| dev := msm_iommu_get_ctx P name; attached := false;
                   ctx_id := ctxt_ctx_id c |}).
      assert (Hd : set_ctx_id (ctxt_ctx_id c)
                     (set_dev (msm_iommu_get_ctx P name) x) = d).
      { unfold set_ctx_id, set_dev, d. simpl. now rewrite Hx. }
      rewrite Hd.
      destruct (IH (used ++ [d]) free0
                  (EvLog LOG_INFO "Obtained dev handle for iommu context"
                     :: EvGetCtx name (msm_iommu_get_ctx P name) :: tr))
        as (free' & tr' & E & Hl & Hc'); [assumption | lia | assumption |].
      exists free', tr'.
      rewrite length_app in E. simpl in E.
      replace (List.length used + 1)%nat with (S (List.length used)) in E
        by lia.
      rewrite <- app_assoc in E. simpl in E.
      rewrite E. fold (discovered P rest).
      rewrite <- !app_assoc. simpl.
      split; [reflexivity|]. split; [|exact Hc'].
      rewrite <- !app_assoc in Hl. simpl in Hl.
      rewrite !length_app in Hl |- *. simpl in *. exact Hl.
    + fold (discovered P rest). simpl.
      apply IH; [assumption | lia | assumption].
Qed.

Lemma _get_iommu_ctxs_exact (data : kgsl_device_iommu_data)
  (pre post : list kgsl_iommu_unit) (u : kgsl_iommu_unit) (uc : nat)
  (tr : list event) :
  good_unit P data ->
  pristine_unit P u ->
  exists u' tr',
    _get_iommu_ctxs P {| iommu_units := pre ++ u :: post; unit_count := uc |}
      data (List.length pre) tr
    = Ok (0, {| iommu_units := pre ++ u' :: post; unit_count := uc |}, tr') /\
    unit_contexts u' = discovered P (iommu_ctxs data) /\
    wf_unit u'.
Proof.
  intros [Hcount Hgood] [[Hcnt Hlen] Hclear].
  unfold _get_iommu_ctxs. simpl.
  apply Nat.ltb_ge in Hcount. rewrite Hcount.
  rewrite nth_error_at.
  destruct u as [ds n]. simpl in *. subst n.
  apply Nat.ltb_ge in Hcount.
  destruct (get_ctxs_loop_exact (iommu_ctxs data) [] ds tr Hgood)
    as (free' & tr' & E & Hl & Hc).
  { unfold iommu_ctx_count in Hcount. lia. }
  { exact Hclear. }
  simpl in E. rewrite E. simpl. rewrite array_update_at.
  do 2 eexists. split; [reflexivity|].
  unfold unit_contexts, wf_unit. simpl.
  split; [apply firstn_exact|].
  rewrite length_app. lia.
Qed.

Lemma get_ctxt_loop_exact :
  forall data pre post uc tr,
    Forall (good_unit P) data ->
    (List.length data <= List.length post)%nat ->
    Forall (pristine_unit P) post ->
    exists new post' tr',
      get_ctxt_loop P data (List.length pre)
        {| iommu_units := pre ++ post; unit_count := uc |} tr
      = Ok (0, {| iommu_units := pre ++ new ++ post'; unit_count := uc |},
            tr') /\
      List.length new = List.length data /\
      List.length (new ++ post') = List.length post /\
      flat_map unit_contexts new =
        flat_map (fun d => discovered P (iommu_ctxs d)) data /\
      Forall wf_unit new.
Proof.
  induction data as [|d rest IH]; intros pre post uc tr Hgood Hroom Hpost.
  - exists [], post, tr. simpl. repeat split; auto.
  - inversion Hgood as [|? ? Hd Hrest]; subst. simpl in Hroom.
    destruct post as [|u post0]; simpl in Hroom; [lia|].
    inversion Hpost as [|? ? Hu Hpost0]; subst.
    destruct (_get_iommu_ctxs_exact d pre post0 u uc tr Hd Hu)
      as (u' & tr1 & E & Hctx & Hwu).
    simpl. rewrite E. simpl.
    destruct (IH (pre ++ [u']) post0 uc tr1 Hrest) as
      (new & post' & tr' & E' & Hn & Hl & Hf & Hw); [lia | assumption |].
    rewrite length_app in E'. simpl in E'.
    replace (List.length pre + 1)%nat with (S (List.length pre)) in E'
      by lia.
    rewrite <- !app_assoc in E'. simpl in E'.
    exists (u' :: new), post', tr'.
    split; [exact E'|]. simpl.
    split; [lia|]. split; [lia|].
    split; [now rewrite Hctx, Hf | constructor; assumption].
Qed.

Lemma zero_iommu_pristine :
  Forall (pristine_unit P) (iommu_units (zero_iommu P)).
Proof.
  apply Forall_forall. intros u Hu. simpl in Hu.
  apply repeat_spec in Hu. subst u.
  split; [split; simpl; [reflexivity | apply repeat_length]|].
  unfold flags_clear_unit. simpl. apply Forall_forall. intros c Hc.
  apply repeat_spec in Hc. now subst c.
Qed.

(** A descriptor set without a flaw is taken over as it stands. *)
Lemma init_exact (pd : kgsl_device_platform_data) (m : kgsl_mmu)
  (tr : list event) :
  kzalloc P tr = true ->
  (iommu_count pd <= KGSL_IOMMU_MAX_UNITS P)%nat ->
  Forall (good_unit P) (iommu_data pd) ->
  exists i tr',
    kgsl_iommu_init P pd m tr = Ok (0, set_priv (Some i) m, tr') /\
    iommu_contexts i =
      flat_map (fun d => discovered P (iommu_ctxs d)) (iommu_data pd) /\
    unit_count i = iommu_count pd /\
    List.length (iommu_units i) = KGSL_IOMMU_MAX_UNITS P /\
    wf_iommu i.
Proof.
  intros Hk Hcount Hgood.
  unfold kgsl_iommu_init, kgsl_get_iommu_ctxt. rewrite Hk.
  pose proof Hcount as Hc. apply Nat.ltb_ge in Hc. rewrite Hc.
  destruct (get_ctxt_loop_exact (iommu_data pd) []
              (repeat (zero_unit P) (KGSL_IOMMU_MAX_UNITS P)) 0%nat
              (EvKzalloc true :: tr) Hgood)
    as (new & post' & tr' & E & Hn & Hl & Hf & Hw).
  { rewrite repeat_length. exact Hcount. }
  { apply zero_iommu_pristine. }
  simpl in E. unfold zero_iommu. rewrite E. simpl.
  do 2 eexists. split; [reflexivity|].
  unfold iommu_contexts, wf_iommu. simpl.
  rewrite repeat_length in Hl.
  unfold iommu_count in *. rewrite <- Hn, firstn_exact.
  repeat split; auto. lia.
Qed.

Lemma init_too_many_units (pd : kgsl_device_platform_data) (m : kgsl_mmu)
  (tr : list event) :
  kzalloc P tr = true ->
  (KGSL_IOMMU_MAX_UNITS P < iommu_count pd)%nat ->
  kgsl_iommu_init P pd m tr
  = Ok (- EINVAL, set_priv None m,
        EvKfree :: EvLog LOG_ERR "Too many IOMMU units defined"
          :: EvKzalloc true :: tr).
Proof.
  intros Hk Hmany. unfold kgsl_iommu_init, kgsl_get_iommu_ctxt.
  apply Nat.ltb_lt in Hmany. rewrite Hk, Hmany. reflexivity.
Qed.

End Discovered.

(** * Properties beyond the claims *)

(** Acceptability of a descriptor set written out in full. *)
Ltac good_descriptors :=
  repeat first [apply Forall_nil | apply Forall_cons];
  try (split; [vm_compute; lia |]);
  repeat first [apply Forall_nil | apply Forall_cons];
  cbv [good_entry]; simpl;
  try exact I;
  try (split; [vm_compute; discriminate | vm_compute; auto]).

(** ** Initialisation *)

(** X1.  When the private state can be allocated, init returns 0 exactly
    when there are no more units than fit and every unit is acceptable (no
    more contexts than fit, every named context known to the platform and
    of kind user or privileged); in every other case it returns -EINVAL and
    leaves the private pointer NULL. *)
Theorem init_status_characterised (P : platform)
  (pd : kgsl_device_platform_data) (m : kgsl_mmu) (tr : list event) :
  kzalloc P tr = true ->
  exists status m' tr',
    kgsl_iommu_init P pd m tr = Ok (status, m', tr') /\
    (status = 0 <->
     (iommu_count pd <= KGSL_IOMMU_MAX_UNITS P)%nat /\
     Forall (good_unit P) (iommu_data pd)) /\
    (status <> 0 -> status = - EINVAL /\ priv m' = None).
Proof.
  intros Hk.
  destruct (kgsl_iommu_init_spec P pd m tr)
    as (status & m' & tr' & E & _ & _ & _ & Hok).
  destruct (Hok Hk) as (Hst & Hgood & Hfail & _).
  exists status, m', tr'. split; [exact E|]. split; [split|].
  - intros Hz. split; [|auto].
    destruct (Nat.le_gt_cases (iommu_count pd) (KGSL_IOMMU_MAX_UNITS P))
      as [Hle|Hgt]; [exact Hle|].
    rewrite (init_too_many_units P pd m tr Hk Hgt) in E.
    inversion E; subst. discriminate.
  - intros [Hle Hall].
    destruct (init_exact P pd m tr Hk Hle Hall) as (i & tr0 & E0 & _).
    rewrite E0 in E. now inversion E.
  - intros Hnz. destruct (Hfail Hnz) as [-> _].
    destruct Hst as [Hz|Hz]; [contradiction | auto].
Qed.

Lemma init_status_characterised_witness :
  (exists m' tr',
     kgsl_iommu_init (board 0 0 true) board_pdata fresh_mmu []
       = Ok (0, m', tr')) /\
  (exists m' tr',
     kgsl_iommu_init (board 0 0 true)
       {| iommu_data := [ {| iommu_ctxs := [ctxt "ctxA" 0; ctxt "nobody" 1] |} ] |}
       fresh_mmu [] = Ok (- EINVAL, m', tr') /\ priv m' = None).
Proof.
  split.
  - destruct (init_status_characterised (board 0 0 true) board_pdata
                fresh_mmu [] eq_refl) as (status & m' & tr' & E & Hiff & _).
    assert (Hz : status = 0).
    { apply Hiff. split; [vm_compute; lia | good_descriptors]. }
    subst status. eauto.
  - destruct (init_status_characterised (board 0 0 true)
                {| iommu_data :=
                     [ {| iommu_ctxs := [ctxt "ctxA" 0; ctxt "nobody" 1] |} ] |}
                fresh_mmu [] eq_refl) as (status & m' & tr' & E & _ & Hfail).
    assert (E' := E). vm_compute in E'. inversion E'; subst status.
    destruct Hfail as [_ Hp]; [discriminate|].
    exists m', tr'. split; [exact E | exact Hp].
Defined.

(** X2.  On an acceptable descriptor set the outcome of init is decided
    by [kzalloc] alone.  When the allocation fails init returns -ENOMEM and
    leaves the controller as it was.  When it succeeds init returns 0 and
    takes over exactly the named entries, unit by unit and in the order
    declared, each with the handle the platform gives for its name and with
    its declared kind, none of them attached; unnamed entries leave no
    trace.  The unit count is then the number of units declared, all
    counts are inside the arrays, and flags, hardware pagetable and default
    pagetable are as before. *)
Theorem init_takes_over_named_contexts (P : platform)
  (pd : kgsl_device_platform_data) (m : kgsl_mmu) (tr : list event) :
  (iommu_count pd <= KGSL_IOMMU_MAX_UNITS P)%nat ->
  Forall (good_unit P) (iommu_data pd) ->
  exists status m' tr',
    kgsl_iommu_init P pd m tr = Ok (status, m', tr') /\
    (kzalloc P tr = false -> status = - ENOMEM /\ m' = m) /\
    (kzalloc P tr = true ->
     status = 0 /\
     contexts m' =
       flat_map (fun d => discovered P (iommu_ctxs d)) (iommu_data pd) /\
     none_attached m' /\
     wf_mmu m' /\
     (exists i, priv m' = Some i /\
                unit_count i = iommu_count pd /\
                List.length (iommu_units i) = KGSL_IOMMU_MAX_UNITS P) /\
     flags m' = flags m /\
     hwpagetable m' = hwpagetable m /\
     defaultpagetable m' = defaultpagetable m).
Proof.
  intros Hle Hall.
  destruct (kzalloc P tr) eqn:Hk.
  - destruct (init_exact P pd m tr Hk Hle Hall)
      as (i & tr' & E & Hctx & Hcnt & Hlen & Hwf).
    exists 0, (set_priv (Some i) m), tr'. split; [exact E|].
    split; [discriminate|]. intros _. split; [reflexivity|].
    assert (Hc : contexts (set_priv (Some i) m) =
                 flat_map (fun d => discovered P (iommu_ctxs d))
                   (iommu_data pd))
      by exact Hctx.
    split; [exact Hc|]. split.
    + unfold none_attached. rewrite Hc. apply Forall_forall. intros c Hin.
      apply in_flat_map in Hin. destruct Hin as (d & _ & Hin).
      unfold discovered in Hin. apply in_flat_map in Hin.
      destruct Hin as (e & _ & Hin).
      destruct (iommu_ctx_name e); [|contradiction].
      destruct Hin as [<-|[]]. reflexivity.
    + split; [exists i; auto|]. split; [exists i; auto|]. auto.
  - destruct (kgsl_iommu_init_spec P pd m tr)
      as (status & m' & tr' & E & _ & _ & Hfail & _).
    exists status, m', tr'. split; [exact E|].
    split; [intros _; exact (Hfail Hk) | discriminate].
Qed.

Lemma init_takes_over_named_contexts_witness :
  (exists m' tr',
     kgsl_iommu_init (board 0 0 true)
       {| iommu_data :=
            [ {| iommu_ctxs :=
                   [ctxt "ctxB" 1;
                    {| iommu_ctx_name := None; ctxt_ctx_id := 7 |}] |};
              {| iommu_ctxs := [ctxt "ctxA" 0] |} ] |}
       fresh_mmu [] = Ok (0, m', tr') /\
     contexts m' = [ {| dev := 102; attached := false; ctx_id := 1 |};
                     {| dev := 101; attached := false; ctx_id := 0 |} ]) /\
  (exists tr',
     kgsl_iommu_init (board 0 0 false) board_pdata fresh_mmu []
     = Ok (- ENOMEM, fresh_mmu, tr')).
Proof.
  split.
  - destruct (init_takes_over_named_contexts (board 0 0 true)
                {| iommu_data :=
                     [ {| iommu_ctxs :=
                            [ctxt "ctxB" 1;
                             {| iommu_ctx_name := None;
                                ctxt_ctx_id := 7 |}] |};
                       {| iommu_ctxs := [ctxt "ctxA" 0] |} ] |}
                fresh_mmu [])
      as (status & m' & tr' & E & _ & Hok).
    + vm_compute. lia.
    + good_descriptors.
    + destruct (Hok eq_refl) as (-> & Hctx & _).
      exists m', tr'. split; [exact E | exact Hctx].
  - destruct (init_takes_over_named_contexts (board 0 0 false) board_pdata
                fresh_mmu [])
      as (status & m' & tr' & E & Hfail & _).
    + vm_compute. lia.
    + good_descriptors.
    + destruct (Hfail eq_refl) as (-> & ->).
      exists tr'. exact E.
Defined.

(** ** What the operations call, and in which order *)

Lemma run_adds (P : platform) :
  forall ops s s',
    run P ops s = Ok s' ->
    exists newer,
      snd s' = newer ++ snd s /\
      Forall (fun e => exists o, In o ops /\ footprint o e = true) newer.
Proof.
  induction ops as [|o rest IH]; intros s s' H; simpl in H.
  - inversion H; subst. exists []. split; [reflexivity | constructor].
  - destruct (exec P o s) as [s1| |] eqn:E; simpl in H; try discriminate.
    apply exec_adds in E. destruct E as (n1 & E1 & H1).
    apply IH in H. destruct H as (n2 & E2 & H2).
    exists (n2 ++ n1). split; [rewrite E2, E1; now rewrite app_assoc|].
    apply Forall_app. split.
    + eapply Forall_impl; [|exact H2].
      intros e (o' & Hin & Hf). exists o'. split; [now right | exact Hf].
    + eapply Forall_impl; [|exact H1].
      intros e Hf. exists o. split; [now left | exact Hf].
Qed.

Lemma footprint_not_domain_call (o : op) (e : event) :
  footprint o e = true -> is_domain_call e = false.
Proof. destruct e; simpl; auto; discriminate. Qed.

(** X3.  Whatever sequence of init, start, stop and setstate runs, the trace
    only grows, and each event added is one the operation it comes from may
    cause: init allocates, frees and looks contexts up; start writes the
    configuration register, asks for the global pagetable, attaches and (to
    roll back) detaches; stop only detaches; setstate waits for idle,
    detaches and attaches.  None of them maps or unmaps. *)
Theorem operations_keep_to_their_collaborators (P : platform)
  (ops : list op) (s s' : state) :
  run P ops s = Ok s' ->
  (exists newer,
     snd s' = newer ++ snd s /\
     Forall (fun e => exists o, In o ops /\ footprint o e = true) newer) /\
  domain_calls (snd s') = domain_calls (snd s).
Proof.
  intros H. pose proof (run_adds P ops s s' H) as (newer & E & Hall).
  split; [exists newer; auto|].
  unfold domain_calls. rewrite E, filter_app.
  replace (filter is_domain_call newer) with (@nil event); [reflexivity|].
  clear E. induction Hall as [|e l (o & _ & Hf) _ IH]; [reflexivity|].
  simpl. now rewrite (footprint_not_domain_call o e Hf).
Qed.

Lemma operations_keep_to_their_collaborators_witness :
  exists s',
    run (board 0 0 true) [OpInit board_pdata; OpStart; OpStop]
      (fresh_mmu, [EvMapRange 5000 4096 77 4096 3 0]) = Ok s' /\
    domain_calls (snd s') = [EvMapRange 5000 4096 77 4096 3 0] /\
    ~ In (EvIdle 4294967295 0) (snd s').
Proof.
  assert (Hrun : run (board 0 0 true) [OpInit board_pdata; OpStart; OpStop]
                   (fresh_mmu, [EvMapRange 5000 4096 77 4096 3 0]) = Ok _)
    by (vm_compute; reflexivity).
  eexists. split; [exact Hrun|].
  destruct (operations_keep_to_their_collaborators _ _ _ _ Hrun)
    as ((newer & E & Hall) & Hd).
  split; [exact Hd|].
  intros Hin. rewrite E in Hin. apply in_app_or in Hin.
  destruct Hin as [Hin | [Hin | []]]; [|discriminate].
  rewrite Forall_forall in Hall.
  destruct (Hall _ Hin) as (o & Ho & Hf).
  destruct Ho as [<- | [<- | [<- | []]]]; discriminate.
Defined.

Lemma exec_idle_waits (P : platform) (o : op) (s s' : state) :
  exec P o s = Ok s' ->
  (idle_waits (snd s') <=
   idle_waits (snd s) + count_switches [o])%nat.
Proof.
  intros H.
  assert (Hquiet : (forall e, footprint o e = true -> is_idle e = false) ->
                   idle_waits (snd s') = idle_waits (snd s)).
  { intros Hq. apply exec_adds in H. unfold idle_waits.
    now rewrite (adds_filter _ is_idle _ _ Hq H). }
  destruct o as [pd| | |pt ctx].
  - rewrite Hquiet; [lia|]. intros []; simpl; auto; discriminate.
  - rewrite Hquiet; [lia|]. intros []; simpl; auto; discriminate.
  - rewrite Hquiet; [lia|]. intros []; simpl; auto; discriminate.
  - destruct s as [m tr], s' as [m' tr']. simpl in H.
    apply setstate_result in H. simpl. unfold count_switches. simpl. lia.
Qed.

(** X4.  Only a setstate waits for the device to go idle, and it does so at
    most once: over any sequence of operations the number of idle waits
    grows by at most the number of setstate calls in it. *)
Theorem idle_waits_bounded_by_switches (P : platform) (ops : list op)
  (s s' : state) :
  run P ops s = Ok s' ->
  (idle_waits (snd s') <= idle_waits (snd s) + count_switches ops)%nat.
Proof.
  revert s. induction ops as [|o rest IH]; intros s H; simpl in H.
  - inversion H; subst. lia.
  - destruct (exec P o s) as [s1| |] eqn:E; simpl in H; try discriminate.
    apply exec_idle_waits in E. apply IH in H.
    unfold count_switches in *. simpl in *.
    destruct o; simpl in *; lia.
Qed.

Lemma idle_waits_bounded_by_switches_witness :
  exists s',
    run (board 0 0 true)
      [OpInit board_pdata; OpStart; OpSetstate 2000 0; OpSetstate 2000 0;
       OpStop; OpSetstate 1000 0]
      (fresh_mmu, []) = Ok s' /\
    idle_waits (snd s') = 1%nat.
Proof.
  assert (Hrun : run (board 0 0 true)
                   [OpInit board_pdata; OpStart; OpSetstate 2000 0;
                    OpSetstate 2000 0; OpStop; OpSetstate 1000 0]
                   (fresh_mmu, []) = Ok _) by (vm_compute; reflexivity).
  eexists. split; [exact Hrun|].
  pose proof (idle_waits_bounded_by_switches _ _ _ _ Hrun) as Hle.
  reflexivity.
Defined.

(** X5.  A switch follows its protocol in order.  On a running controller,
    a setstate to a pagetable other than the current one first waits for
    idle, then makes only detach calls, all of them for the domain of the
    old pagetable, then only attach calls, all of them for the domain of
    the new pagetable; a switch to NULL makes no attach call at all. *)
Theorem setstate_switch_protocol_order (P : platform) (m : kgsl_mmu)
  (tr : list event) (pt ctx : Z) (m' : kgsl_mmu) (tr' : list event) :
  started P m = true ->
  hwpagetable m <> pt ->
  kgsl_iommu_setstate P m tr pt ctx = Ok (m', tr') ->
  exists old detaches attaches,
    pt_priv P (hwpagetable m) = Some old /\
    tr' = attaches ++ detaches
            ++ EvIdle (KGSL_TIMEOUT_DEFAULT P)
                 (kgsl_idle P tr (KGSL_TIMEOUT_DEFAULT P)) :: tr /\
    Forall (fun e => detach_event old e = true) detaches /\
    (pt = 0 -> attaches = []) /\
    (forall new, pt_priv P pt = Some new ->
                 Forall (fun e => attach_event new e = true) attaches).
Proof.
  unfold kgsl_iommu_setstate. intros Hs Hne H. rewrite Hs in H.
  apply Z.eqb_neq in Hne. rewrite Hne in H. simpl in H.
  match type of H with context [kgsl_detach_pagetable_iommu_domain P m ?t] =>
    destruct (kgsl_detach_pagetable_iommu_domain P m t)
      as [[m1 tr2]| |] eqn:Ed; simpl in H; try discriminate end.
  pose proof (detach_spec P _ _ _ _ Ed) as (_ & _ & Hh1 & _).
  apply detach_adds in Ed. destruct Ed as (old & Hold & (D & -> & HD)).
  exists old, D.
  destruct (pt =? 0) eqn:Hpt; simpl in H.
  - inversion H; subst; clear H. exists [].
    split; [exact Hold|]. split; [reflexivity|]. split; [exact HD|].
    split; [reflexivity | intros; constructor].
  - destruct (kgsl_attach_pagetable_iommu_domain P (set_hwpagetable pt m1) _)
      as [[[s3 m3] tr3]| |] eqn:Ea; simpl in H; try discriminate.
    inversion H; subst; clear H.
    apply attach_adds in Ea. destruct Ea as (new & Hnew & (A & -> & HA)).
    simpl in Hnew. exists A.
    split; [exact Hold|]. split; [reflexivity|]. split; [exact HD|].
    apply Z.eqb_neq in Hpt. split; [intros; contradiction|].
    intros new' Hn. rewrite Hnew in Hn. inversion Hn; subst. exact HA.
Qed.

Lemma setstate_switch_protocol_order_witness :
  exists m tr m' tr',
    run (board 0 0 true) [OpInit board_pdata; OpStart] (fresh_mmu, [])
      = Ok (m, tr) /\
    kgsl_iommu_setstate (board 0 0 true) m tr 2000 0 = Ok (m', tr') /\
    attach_log tr' = attach_log tr
                     ++ [(6000, 101, 0); (6000, 102, 0); (6000, 103, 0)] /\
    detach_log tr' = [(5000, 101); (5000, 102); (5000, 103)].
Proof.
  assert (Hrun : run (board 0 0 true) [OpInit board_pdata; OpStart]
                   (fresh_mmu, []) = Ok _) by (vm_compute; reflexivity).
  match type of Hrun with _ = Ok (?m, ?tr) =>
    assert (E : kgsl_iommu_setstate (board 0 0 true) m tr 2000 0 = Ok _)
      by (vm_compute; reflexivity);
    pose proof (setstate_switch_protocol_order (board 0 0 true) m tr 2000 0)
      as Hord
  end.
  match type of E with _ = Ok (?m', ?tr') =>
    specialize (Hord m' tr' eq_refl ltac:(simpl; lia) E)
  end.
  destruct Hord as (old & D & A & _).
  do 4 eexists. split; [exact Hrun|]. split; [exact E|].
  split; reflexivity.
Defined.

(** ** The attach and detach calls of start and stop *)

Lemma attach_log_app (newer tr : list event) :
  attach_log (newer ++ tr) = attach_log tr ++ attach_log newer.
Proof.
  unfold attach_log. now rewrite rev_app_distr, flat_map_app.
Qed.

Lemma detach_log_app (newer tr : list event) :
  detach_log (newer ++ tr) = detach_log tr ++ detach_log newer.
Proof.
  unfold detach_log. now rewrite rev_app_distr, flat_map_app.
Qed.

Lemma adds_attach_log (Q : event -> bool) (tr tr' : list event) :
  (forall d x rc, Q (EvAttach d x rc) = false) ->
  adds Q tr tr' -> attach_log tr' = attach_log tr.
Proof.
  intros Hq (newer & -> & Hall). rewrite attach_log_app.
  replace (attach_log newer) with (@nil (Z * Z * Z));
    [now rewrite app_nil_r|].
  induction Hall as [|e l He _ IH]; [reflexivity|].
  rewrite attach_log_cons, <- IH. simpl.
  destruct e; try reflexivity. rewrite Hq in He. discriminate.
Qed.

(** [kgsl_iommu_start] on a controller that is not running, up to the
    attach. *)
Lemma start_unfold (P : platform) (m : kgsl_mmu) (tr : list event) :
  started P m = false ->
  exists m1 tr2,
    flags m1 = flags m /\ hwpagetable m1 = hwpagetable m /\
    priv m1 = priv m /\
    attach_log tr2 = attach_log tr /\ detach_log tr2 = detach_log tr /\
    kgsl_iommu_start P m tr =
      if default_on_start P m tr =? 0 then Ok (- ENOMEM, m1, tr2)
      else
        let* (status, m3, tr3) :=
          kgsl_attach_pagetable_iommu_domain P
            (set_hwpagetable (default_on_start P m tr) m1) tr2 in
        if status =? 0 then
          Ok (status,
              set_flags (Z.lor (flags m3) (KGSL_FLAGS_STARTED P)) m3, tr3)
        else
          let* (m4, tr4) := kgsl_detach_pagetable_iommu_domain P m3 tr3 in
          Ok (status, set_hwpagetable 0 m4, tr4).
Proof.
  intros Hs. unfold kgsl_iommu_start, default_on_start. rewrite Hs.
  destruct (defaultpagetable m =? 0) eqn:Hd0; simpl.
  - exists (set_defaultpagetable
              (kgsl_mmu_getpagetable P (EvRegwrite (MH_MMU_CONFIG P) 0 :: tr)
                 (KGSL_MMU_GLOBAL_PT P)) m),
           (EvGetPagetable (KGSL_MMU_GLOBAL_PT P)
              (kgsl_mmu_getpagetable P (EvRegwrite (MH_MMU_CONFIG P) 0 :: tr)
                 (KGSL_MMU_GLOBAL_PT P))
            :: EvRegwrite (MH_MMU_CONFIG P) 0 :: tr).
    do 3 (split; [reflexivity|]).
    rewrite !attach_log_cons, !detach_log_cons. simpl.
    rewrite !app_nil_r. do 2 (split; [reflexivity|]). reflexivity.
  - exists m, (EvRegwrite (MH_MMU_CONFIG P) 0 :: tr).
    do 3 (split; [reflexivity|]).
    rewrite !attach_log_cons, !detach_log_cons. simpl.
    rewrite !app_nil_r. do 2 (split; [reflexivity|]). now rewrite Hd0.
Qed.

Lemma contexts_priv (m m' : kgsl_mmu) :
  priv m' = priv m -> contexts m' = contexts m.
Proof. unfold contexts. now intros ->. Qed.

Lemma filter_unattached_none (m : kgsl_mmu) :
  none_attached m -> filter unattached (contexts m) = contexts m.
Proof.
  unfold none_attached. intros Hn.
  induction Hn as [|c l Hc _ IH]; [reflexivity|].
  simpl. unfold unattached at 1. rewrite Hc. simpl. now rewrite IH.
Qed.

Lemma start_log (P : platform) (m : kgsl_mmu) (tr : list event)
  (m' : kgsl_mmu) (tr' : list event) :
  started P m = false ->
  kgsl_iommu_start P m tr = Ok (0, m', tr') ->
  exists domain,
    pt_priv P (default_on_start P m tr) = Some domain /\
    attach_log tr' =
      attach_log tr ++
      map (fun c => (domain, dev c, 0)) (filter unattached (contexts m)) /\
    detach_log tr' = detach_log tr /\
    all_attached m'.
Proof.
  intros Hs H.
  destruct (start_unfold P m tr Hs)
    as (m1 & tr2 & _ & _ & Hp & Ha & Hd & E).
  rewrite E in H. clear E.
  destruct (default_on_start P m tr =? 0); [discriminate|].
  destruct (kgsl_attach_pagetable_iommu_domain P _ tr2)
    as [[[st m3] tr3]| |] eqn:Ea; simpl in H; try discriminate.
  destruct (st =? 0) eqn:Hst.
  - apply Z.eqb_eq in Hst. inversion H; subst; clear H.
    apply attach_log_spec in Ea.
    destruct Ea as (domain & Hdom & Hd3 & Hz & _).
    destruct (Hz eq_refl) as [Hl Hall].
    exists domain. simpl in Hdom.
    rewrite (contexts_priv m (set_hwpagetable (default_on_start P m tr) m1))
      in Hl by exact Hp.
    split; [exact Hdom|]. split; [now rewrite Hl, Ha|].
    split; [now rewrite Hd3, Hd | exact Hall].
  - apply Z.eqb_neq in Hst.
    destruct (kgsl_detach_pagetable_iommu_domain P m3 tr3)
      as [[m4 tr4]| |]; simpl in H; try discriminate.
    inversion H; subst. contradiction.
Qed.

(** X6.  A start that returns 0 on a controller that was not running has
    asked the driver to attach exactly the contexts that were not flagged
    attached, each once, in discovery order, all to the domain of the
    default pagetable, and has detached nothing; afterwards every context
    is flagged attached.  On a controller with no context attached, as
    init and stop leave it, that is every context. *)
Theorem start_attaches_each_context_once (P : platform) (m : kgsl_mmu)
  (tr : list event) (m' : kgsl_mmu) (tr' : list event) :
  started P m = false ->
  kgsl_iommu_start P m tr = Ok (0, m', tr') ->
  exists domain,
    pt_priv P (default_on_start P m tr) = Some domain /\
    attach_log tr' =
      attach_log tr ++
      map (fun c => (domain, dev c, 0)) (filter unattached (contexts m)) /\
    (none_attached m ->
     attach_log tr' =
       attach_log tr ++ map (fun c => (domain, dev c, 0)) (contexts m)) /\
    detach_log tr' = detach_log tr /\
    all_attached m'.
Proof.
  intros Hs H.
  destruct (start_log P m tr m' tr' Hs H) as (domain & Hp & Hl & Hd & Hall).
  exists domain. split; [exact Hp|]. split; [exact Hl|].
  split; [|split; [exact Hd | exact Hall]].
  intros Hn. rewrite Hl. f_equal. f_equal.
  now apply filter_unattached_none.
Qed.

Lemma start_attaches_each_context_once_witness :
  exists m tr m' tr',
    run (board 0 0 true) [OpInit board_pdata] (fresh_mmu, []) = Ok (m, tr) /\
    kgsl_iommu_start (board 0 0 true) m tr = Ok (0, m', tr') /\
    attach_log tr' = [(5000, 101, 0); (5000, 102, 0); (5000, 103, 0)].
Proof.
  assert (Hrun : run (board 0 0 true) [OpInit board_pdata] (fresh_mmu, [])
                 = Ok _) by (vm_compute; reflexivity).
  match type of Hrun with _ = Ok (?m, ?tr) =>
    assert (E : kgsl_iommu_start (board 0 0 true) m tr = Ok _)
      by (vm_compute; reflexivity)
  end.
  match type of E with kgsl_iommu_start ?P ?m ?tr = Ok (_, ?m', ?tr') =>
    destruct (start_attaches_each_context_once P m tr m' tr' eq_refl E)
      as (domain & Hp & Hl & _)
  end.
  do 4 eexists. split; [exact Hrun|]. split; [exact E|].
  simpl in Hp. inversion Hp; subst domain. exact Hl.
Defined.

(** X7.  A stop of a running controller asks the driver to detach exactly
    the contexts that were flagged attached, each once, in discovery order,
    all from the domain of the hardware pagetable, and attaches nothing. *)
Theorem stop_detaches_each_attached_context_once (P : platform)
  (m : kgsl_mmu) (tr : list event) (rc : Z) (m' : kgsl_mmu)
  (tr' : list event) :
  started P m = true ->
  kgsl_iommu_stop P m tr = Ok (rc, m', tr') ->
  exists domain,
    pt_priv P (hwpagetable m) = Some domain /\
    detach_log tr' =
      detach_log tr ++
      map (fun c => (domain, dev c)) (filter attached (contexts m)) /\
    attach_log tr' = attach_log tr.
Proof.
  unfold kgsl_iommu_stop. intros Hs H. rewrite Hs in H.
  ok_inv H. inversion H; subst; clear H.
  apply detach_log_spec in E. destruct E as (domain & Hp & Hd & Ha & _).
  exists domain. auto.
Qed.

Lemma stop_detaches_each_attached_context_once_witness :
  exists m tr m' tr',
    run picky_board [OpInit board_pdata; OpStart; OpSetstate 2000 0]
      (fresh_mmu, []) = Ok (m, tr) /\
    map attached (contexts m) = [true; false; false] /\
    kgsl_iommu_stop picky_board m tr = Ok (0, m', tr') /\
    detach_log tr' = detach_log tr ++ [(6000, 101)].
Proof.
  assert (Hrun : run picky_board
                   [OpInit board_pdata; OpStart; OpSetstate 2000 0]
                   (fresh_mmu, []) = Ok _) by (vm_compute; reflexivity).
  match type of Hrun with _ = Ok (?m, ?tr) =>
    assert (E : kgsl_iommu_stop picky_board m tr = Ok _)
      by (vm_compute; reflexivity)
  end.
  match type of E with kgsl_iommu_stop ?P ?m ?tr = Ok (?rc, ?m', ?tr') =>
    destruct (stop_detaches_each_attached_context_once P m tr rc m' tr'
                eq_refl E) as (domain & Hp & Hl & _)
  end.
  do 4 eexists. split; [exact Hrun|]. split; [reflexivity|].
  split; [exact E|].
  simpl in Hp. inversion Hp; subst domain. exact Hl.
Defined.

(** X8.  init followed by start, on a controller that is not running and
    at a moment when [kzalloc] succeeds.  An acceptable descriptor set is
    then taken over with status 0, and when the start after it returns 0
    the driver has been asked to attach one context per named entry, in the
    order declared, each under the handle the platform gives for its name,
    all to the domain of the default pagetable; those are the contexts of
    the controller, and all of them are flagged attached.  (On a running
    controller the start does nothing, and without memory init stops at
    -ENOMEM: both are left out by the two conditions.) *)
Theorem init_then_start_attaches_in_declaration_order (P : platform)
  (pd : kgsl_device_platform_data) (m : kgsl_mmu) (tr : list event) :
  started P m = false ->
  kzalloc P tr = true ->
  (iommu_count pd <= KGSL_IOMMU_MAX_UNITS P)%nat ->
  Forall (good_unit P) (iommu_data pd) ->
  exists m1 tr1,
    kgsl_iommu_init P pd m tr = Ok (0, m1, tr1) /\
    forall m2 tr2,
      kgsl_iommu_start P m1 tr1 = Ok (0, m2, tr2) ->
      exists domain,
        pt_priv P (default_on_start P m1 tr1) = Some domain /\
        attach_log tr2 =
          attach_log tr ++
          map (fun c => (domain, dev c, 0))
            (flat_map (fun d => discovered P (iommu_ctxs d))
               (iommu_data pd)) /\
        map dev (contexts m2) =
          map dev (flat_map (fun d => discovered P (iommu_ctxs d))
                     (iommu_data pd)) /\
        all_attached m2.
Proof.
  intros Hs Hk Hle Hgood.
  destruct (init_exact P pd m tr Hk Hle Hgood)
    as (i & tr1 & Hinit & Hctx & _ & _ & _).
  exists (set_priv (Some i) m), tr1. split; [exact Hinit|].
  intros m2 tr2 Hstart.
  assert (Hs1 : started P (set_priv (Some i) m) = false) by exact Hs.
  assert (Hlog : attach_log tr1 = attach_log tr).
  { apply (adds_attach_log (footprint (OpInit pd))); [reflexivity|].
    apply (exec_adds P (OpInit pd) (m, tr) (set_priv (Some i) m, tr1)).
    simpl. now rewrite Hinit. }
  assert (Hnone : none_attached (set_priv (Some i) m)).
  { destruct (kgsl_iommu_init_spec P pd m tr)
      as (st & m' & tr' & E & _ & _ & _ & Hok).
    rewrite Hinit in E. inversion E; subst st m' tr'.
    now destruct (Hok Hk) as (_ & _ & _ & _ & Hn). }
  pose proof (start_spec P _ tr1 0 m2 tr2 Hs1 Hstart) as Hspec.
  destruct (start_log P _ tr1 m2 tr2 Hs1 Hstart)
    as (domain & Hp & Hl & _ & Hall).
  exists domain. split; [exact Hp|].
  rewrite (filter_unattached_none _ Hnone), Hlog in Hl.
  unfold contexts in Hl at 1. simpl in Hl. rewrite Hctx in Hl.
  split; [exact Hl|]. split; [|exact Hall].
  destruct Hspec as (_ & Hdev & _). rewrite Hdev.
  unfold contexts. simpl. now rewrite Hctx.
Qed.

Lemma init_then_start_attaches_in_declaration_order_witness :
  exists m1 tr1 m2 tr2,
    kgsl_iommu_init (board 0 0 true) board_pdata fresh_mmu []
    = Ok (0, m1, tr1) /\
    kgsl_iommu_start (board 0 0 true) m1 tr1 = Ok (0, m2, tr2) /\
    attach_log tr2 = [(5000, 101, 0); (5000, 102, 0); (5000, 103, 0)].
Proof.
  destruct (init_then_start_attaches_in_declaration_order (board 0 0 true)
              board_pdata fresh_mmu [])
    as (m1 & tr1 & Hinit & Hnext);
    [reflexivity | reflexivity | vm_compute; lia | good_descriptors |].
  assert (E : kgsl_iommu_init (board 0 0 true) board_pdata fresh_mmu []
              = Ok _) by (vm_compute; reflexivity).
  rewrite E in Hinit. inversion Hinit; subst m1 tr1; clear Hinit.
  match type of Hnext with
  | (forall m2 tr2, (kgsl_iommu_start ?P ?m ?tr = _) -> _) =>
    assert (E2 : kgsl_iommu_start P m tr = Ok _) by (vm_compute; reflexivity)
  end.
  match type of E2 with _ = Ok (_, ?m2, ?tr2) =>
    destruct (Hnext m2 tr2 E2) as (domain & Hp & Hl & _)
  end.
  do 4 eexists. split; [exact E|]. split; [exact E2|].
  vm_compute in Hp. inversion Hp; subst domain. exact Hl.
Defined.

(** ** Attach and detach on their own *)

(** X9.  On an initialised controller whose hardware pagetable carries a
    domain, the attach loop does nothing when every context is already
    flagged attached and the detach loop does nothing when none is: no
    driver call, no log line, the controller as it was, and attach reports
    0. *)
Theorem attach_and_detach_skip_what_is_done (P : platform) (m : kgsl_mmu)
  (tr : list event) :
  wf_mmu m -> valid_pt P (hwpagetable m) ->
  (all_attached m ->
   kgsl_attach_pagetable_iommu_domain P m tr = Ok (0, m, tr)) /\
  (none_attached m ->
   kgsl_detach_pagetable_iommu_domain P m tr = Ok (m, tr)).
Proof.
  intros Hw Hv. split; intros H.
  - destruct (attach_total P m tr Hw Hv) as (ret & m' & tr' & E).
    destruct (attach_log_spec P m tr ret m' tr' E) as (_ & _ & _ & _ & Hall).
    destruct (Hall H) as (-> & -> & ->). exact E.
  - destruct (detach_total P m tr Hw Hv) as (m' & tr' & E).
    destruct (detach_log_spec P m tr m' tr' E) as (_ & _ & _ & _ & Hnone).
    destruct (Hnone H) as (-> & ->). exact E.
Qed.

Lemma attach_and_detach_skip_what_is_done_witness :
  exists m tr,
    run (board 0 0 true) [OpInit board_pdata; OpStart] (fresh_mmu, [])
    = Ok (m, tr) /\
    kgsl_attach_pagetable_iommu_domain (board 0 0 true) m tr = Ok (0, m, tr).
Proof.
  assert (Hrun : run (board 0 0 true) [OpInit board_pdata; OpStart]
                   (fresh_mmu, []) = Ok _) by (vm_compute; reflexivity).
  match type of Hrun with _ = Ok (?m, ?tr) =>
    destruct (attach_and_detach_skip_what_is_done (board 0 0 true) m tr)
      as [Hatt _]
  end.
  - eexists. split; [reflexivity|]. split; [vm_compute; lia|].
    simpl. repeat constructor; vm_compute; lia.
  - split; [vm_compute; discriminate|].
    eexists. split; [vm_compute; reflexivity | vm_compute; discriminate].
  - do 2 eexists. split; [exact Hrun|]. apply Hatt.
    repeat constructor.
Defined.

(** ** Pagetables: comparing, creating, destroying, closing *)

(** X10.  [kgsl_iommu_pt_equal] answers 1 exactly for a pagetable whose
    domain is the non-zero base asked about.  So the base that
    [kgsl_iommu_get_current_ptbase] reports is recognised in the hardware
    pagetable unless it is 0, a base of 0 matches no pagetable, and any
    pagetable that matches the reported base has the domain of the hardware
    pagetable. *)
Theorem pt_equal_recognises_current_ptbase (P : platform) (m : kgsl_mmu)
  (base : Z) :
  kgsl_iommu_get_current_ptbase P m = Ok base ->
  kgsl_iommu_pt_equal P (hwpagetable m) base
  = Ok (if base =? 0 then 0 else 1) /\
  (forall pt, kgsl_iommu_pt_equal P pt base = Ok 1 <->
              pt <> 0 /\ base <> 0 /\ pt_priv P pt = Some base) /\
  (forall pt, kgsl_iommu_pt_equal P pt base = Ok 1 ->
              pt_priv P pt = pt_priv P (hwpagetable m)).
Proof.
  unfold kgsl_iommu_get_current_ptbase. intros H.
  destruct (hwpagetable m =? 0) eqn:Hh; [discriminate|].
  destruct (pt_priv P (hwpagetable m)) as [domain|] eqn:Hp; [|discriminate].
  inversion H; subst domain; clear H.
  assert (Hiff : forall pt, kgsl_iommu_pt_equal P pt base = Ok 1 <->
                   pt <> 0 /\ base <> 0 /\ pt_priv P pt = Some base).
  { intros pt. unfold kgsl_iommu_pt_equal.
    destruct (pt =? 0) eqn:Hpt.
    - apply Z.eqb_eq in Hpt. split; [discriminate | intros [Hn _]; tauto].
    - apply Z.eqb_neq in Hpt.
      destruct (pt_priv P pt) as [d|];
        [|split; [discriminate | intros (_ & _ & Hd); discriminate]].
      simpl. destruct (base =? 0) eqn:Hb; simpl.
      + apply Z.eqb_eq in Hb. split; [discriminate | intros (_ & Hn & _); tauto].
      + apply Z.eqb_neq in Hb. destruct (d =? base) eqn:Hd.
        * apply Z.eqb_eq in Hd. subst d. tauto.
        * apply Z.eqb_neq in Hd.
          split; [discriminate | intros (_ & _ & He)].
          inversion He; subst. tauto. }
  split; [|split; [exact Hiff|]].
  - unfold kgsl_iommu_pt_equal. rewrite Hh, Hp. simpl.
    rewrite Z.eqb_refl. now destruct (base =? 0).
  - intros pt Heq. apply Hiff in Heq. destruct Heq as (_ & _ & He).
    congruence.
Qed.

Lemma pt_equal_recognises_current_ptbase_witness :
  exists m tr base,
    run (board 0 0 true) [OpInit board_pdata; OpStart] (fresh_mmu, [])
    = Ok (m, tr) /\
    kgsl_iommu_get_current_ptbase (board 0 0 true) m = Ok base /\
    kgsl_iommu_pt_equal (board 0 0 true) (hwpagetable m) base = Ok 1.
Proof.
  assert (Hrun : run (board 0 0 true) [OpInit board_pdata; OpStart]
                   (fresh_mmu, []) = Ok _) by (vm_compute; reflexivity).
  match type of Hrun with _ = Ok (?m, ?tr) =>
    assert (E : kgsl_iommu_get_current_ptbase (board 0 0 true) m = Ok _)
      by (vm_compute; reflexivity);
    match type of E with _ = Ok ?base =>
      destruct (pt_equal_recognises_current_ptbase (board 0 0 true) m base E)
        as [Heq _]
    end
  end.
  do 3 eexists. split; [exact Hrun|]. split; [exact E | exact Heq].
Defined.

(** X11.  A pagetable that is created and then destroyed: the domain
    handed out is the allocator's answer, and destroy gives back to the
    driver exactly that domain when the allocation succeeded and nothing
    when it failed.  NULL is never passed to [iommu_domain_free]. *)
Theorem destroy_frees_what_create_allocated
  (iommu_domain_alloc : list pt_event -> Z -> Z) (tr : list pt_event) :
  let domain := fst (kgsl_iommu_create_pagetable iommu_domain_alloc tr) in
  let tr1 := snd (kgsl_iommu_create_pagetable iommu_domain_alloc tr) in
  let tr2 := kgsl_iommu_destroy_pagetable domain tr1 in
  domain = iommu_domain_alloc tr 0 /\
  domain_allocs tr1 = domain :: domain_allocs tr /\
  domain_frees tr2
  = (if domain =? 0 then [] else [domain]) ++ domain_frees tr /\
  (~ In 0 (domain_frees tr) -> ~ In 0 (domain_frees tr2)).
Proof.
  unfold kgsl_iommu_create_pagetable, kgsl_iommu_destroy_pagetable.
  destruct (iommu_domain_alloc tr 0 =? 0) eqn:Hd; simpl; rewrite Hd; simpl.
  - repeat split; auto.
  - apply Z.eqb_neq in Hd. repeat split; auto.
    intros Hno [Hz|Hin]; [congruence | auto].
Qed.

Lemma close_times_spec (n : nat) (m : kgsl_mmu) (tr : list pt_event) :
  fst (close_times n m tr) = m /\
  pagetable_puts (snd (close_times n m tr))
  = repeat (defaultpagetable m) (if defaultpagetable m =? 0 then 0 else n)
    ++ pagetable_puts tr.
Proof.
  revert tr. induction n as [|k IH]; intros tr; simpl.
  - split; [reflexivity | now destruct (defaultpagetable m =? 0)].
  - unfold kgsl_iommu_close.
    destruct (defaultpagetable m =? 0) eqn:Hd; simpl.
    + destruct (IH tr) as [Hm Hp]. auto.
    + destruct (IH (EvPutPagetable (defaultpagetable m) :: tr)) as [Hm Hp].
      split; [exact Hm|]. rewrite Hp. simpl.
      change (defaultpagetable m :: pagetable_puts tr)
        with ([defaultpagetable m] ++ pagetable_puts tr).
      rewrite app_assoc.
      change [defaultpagetable m] with (repeat (defaultpagetable m) 1).
      rewrite <- repeat_app. now replace (k + 1)%nat with (S k) by lia.
Qed.

(** X12.  [kgsl_iommu_close] returns 0 and leaves the controller as it is:
    it neither stops it nor forgets the default pagetable.  Each call with
    a default pagetable present drops one reference to it, so [n] calls in
    a row put it [n] times; without a default pagetable nothing is put. *)
Theorem close_puts_default_pagetable_each_time (n : nat) (m : kgsl_mmu)
  (tr : list pt_event) :
  fst (fst (kgsl_iommu_close m tr)) = 0 /\
  snd (fst (kgsl_iommu_close m tr)) = m /\
  fst (close_times n m tr) = m /\
  pagetable_puts (snd (close_times n m tr))
  = repeat (defaultpagetable m) (if defaultpagetable m =? 0 then 0 else n)
    ++ pagetable_puts tr.
Proof.
  split; [|split].
  - unfold kgsl_iommu_close. now destruct (defaultpagetable m =? 0).
  - unfold kgsl_iommu_close. now destruct (defaultpagetable m =? 0).
  - apply close_times_spec.
Qed.

(** ** Mapping and unmapping *)

(** X13.  map followed by unmap of the same descriptor.  map asks for the
    range at the descriptor's address as it stands; unmap asks for it at
    the address rounded down by the alignment mask, and asks for nothing
    at all when the size is 0 or the rounded address is 0.  So the range
    unmapped is the range mapped exactly when the address is aligned and
    neither it nor the size is 0. *)
Theorem unmap_after_map (P : platform) (pt : Z) (memdesc : kgsl_memdesc)
  (protflags : Z) (tr : list event) (ret : Z) (tr1 : list event) :
  kgsl_iommu_map P pt memdesc protflags tr = Ok (ret, tr1) ->
  let tr2 := snd (kgsl_iommu_unmap P pt memdesc tr1) in
  let rounded := Z.land (gpuaddr memdesc) (KGSL_MMU_ALIGN_MASK P) in
  map_requests tr1 = (pt, gpuaddr memdesc, size memdesc) :: map_requests tr /\
  map_requests tr2 = map_requests tr1 /\
  unmap_requests tr2
  = (if (size memdesc =? 0) || (rounded =? 0) then []
     else [(pt, rounded, size memdesc)]) ++ unmap_requests tr /\
  (size memdesc <> 0 -> gpuaddr memdesc <> 0 ->
   rounded = gpuaddr memdesc ->
   unmap_requests tr2
   = (pt, gpuaddr memdesc, size memdesc) :: unmap_requests tr).
Proof.
  unfold kgsl_iommu_map. intros H.
  destruct (pt =? 0); [discriminate|].
  set (r := iommu_map_range P tr pt (gpuaddr memdesc) (sg memdesc)
              (size memdesc) (Z.lor (IOMMU_READ P) (IOMMU_WRITE P))) in H.
  assert (Hm1 : map_requests tr1
                = (pt, gpuaddr memdesc, size memdesc) :: map_requests tr).
  { destruct (negb (r =? 0)); inversion H; subst; reflexivity. }
  assert (Hu1 : unmap_requests tr1 = unmap_requests tr).
  { destruct (negb (r =? 0)); inversion H; subst; reflexivity. }
  clear H. simpl. unfold kgsl_iommu_unmap.
  destruct (size memdesc =? 0) eqn:Hs; simpl.
  - apply Z.eqb_eq in Hs. repeat split; auto. intros Hn. contradiction.
  - destruct (Z.land (gpuaddr memdesc) (KGSL_MMU_ALIGN_MASK P) =? 0) eqn:Ha;
      simpl.
    + apply Z.eqb_eq in Ha. repeat split; auto.
      intros _ Hn He. congruence.
    + match goal with |- context [negb (?u =? 0)] =>
        destruct (negb (u =? 0)) end; simpl; rewrite Hu1;
        (split; [exact Hm1|]; split; [reflexivity|];
         split; [reflexivity|]; intros _ _ He; now rewrite He).
Qed.

Lemma unmap_after_map_witness :
  exists tr1,
    kgsl_iommu_map (board 0 0 true) 5000 page 0 [] = Ok (0, tr1) /\
    map_requests tr1 = [(5000, 12288, 4096)] /\
    unmap_requests (snd (kgsl_iommu_unmap (board 0 0 true) 5000 page tr1))
    = [(5000, 8192, 4096)].
Proof.
  assert (E : kgsl_iommu_map (board 0 0 true) 5000 page 0 [] = Ok _)
    by (vm_compute; reflexivity).
  match type of E with _ = Ok (?ret, ?tr1) =>
    destruct (unmap_after_map (board 0 0 true) 5000 page 0 [] ret tr1 E)
      as (Hm & _ & Hu & _)
  end.
  eexists. split; [exact E|]. split; [exact Hm | exact Hu].
Defined.

(** ** The default pagetable *)

Lemma init_keeps_default (P : platform) (pd : kgsl_device_platform_data)
  (m : kgsl_mmu) (tr : list event) (status : Z) (m' : kgsl_mmu)
  (tr' : list event) :
  kgsl_iommu_init P pd m tr = Ok (status, m', tr') ->
  defaultpagetable m' = defaultpagetable m.
Proof.
  unfold kgsl_iommu_init. intros H.
  destruct (kzalloc P tr); [|inversion H; reflexivity].
  destruct (kgsl_get_iommu_ctxt P pd (zero_iommu P) (EvKzalloc true :: tr))
    as [[[st i] tr1]| |]; simpl in H; try discriminate.
  destruct (st =? 0); inversion H; reflexivity.
Qed.

Lemma exec_keeps_default (P : platform) (o : op) (s s' : state) :
  defaultpagetable (fst s) <> 0 ->
  exec P o s = Ok s' ->
  defaultpagetable (fst s') = defaultpagetable (fst s) /\
  pagetable_gets (snd s') = pagetable_gets (snd s).
Proof.
  intros Hd H.
  assert (Hquiet : (forall e, footprint o e = true -> is_getpagetable e = false)
                   -> pagetable_gets (snd s') = pagetable_gets (snd s)).
  { intros Hq. pose proof (exec_adds P o s s' H) as Ha.
    unfold pagetable_gets. now rewrite (adds_filter _ is_getpagetable _ _ Hq Ha). }
  destruct s as [m tr], s' as [m' tr']. simpl in Hd |- *.
  destruct o as [pd| | |pt ctx]; simpl in H.
  - split; [|apply Hquiet; intros []; simpl; auto; discriminate].
    destruct (kgsl_iommu_init P pd m tr) as [[[st m1] tr1]| |] eqn:E;
      simpl in H; try discriminate.
    inversion H; subst. eapply init_keeps_default; exact E.
  - destruct (kgsl_iommu_start P m tr) as [[[st m1] tr1]| |] eqn:E;
      simpl in H; try discriminate.
    inversion H; subst m1 tr1; clear H Hquiet.
    destruct (started P m) eqn:Hs.
    + unfold kgsl_iommu_start in E. rewrite Hs in E.
      inversion E; subst. auto.
    + pose proof (start_spec P m tr st m' tr' Hs E) as (Hdef & _).
      apply Z.eqb_neq in Hd.
      unfold default_on_start in Hdef. rewrite Hd in Hdef.
      split; [exact Hdef|].
      unfold kgsl_iommu_start in E. rewrite Hs, Hd in E. simpl in E.
      rewrite Hd in E.
      match type of E with
        context [kgsl_attach_pagetable_iommu_domain P ?a ?t] =>
          destruct (kgsl_attach_pagetable_iommu_domain P a t)
            as [[[st3 m3] tr3]| |] eqn:Ea; simpl in E; try discriminate
      end.
      destruct (attach_adds P _ _ _ _ _ Ea) as (d1 & _ & Ha).
      assert (Hga : filter is_getpagetable tr3 = filter is_getpagetable tr).
      { rewrite (adds_filter (attach_event d1) is_getpagetable _ tr3)
          with (2 := Ha); [reflexivity|].
        intros []; simpl; auto; discriminate. }
      unfold pagetable_gets.
      destruct (st3 =? 0).
      * inversion E; subst. now rewrite Hga.
      * destruct (kgsl_detach_pagetable_iommu_domain P m3 tr3)
          as [[m4 tr4]| |] eqn:Ed; simpl in E; try discriminate.
        inversion E; subst.
        destruct (detach_adds P _ _ _ _ Ed) as (d2 & _ & Hb).
        rewrite (adds_filter (detach_event d2) is_getpagetable _ tr')
          with (2 := Hb); [now rewrite Hga|].
        intros []; simpl; auto; discriminate.
  - split; [|apply Hquiet; intros []; simpl; auto; discriminate].
    destruct (kgsl_iommu_stop P m tr) as [[[st m1] tr1]| |] eqn:E;
      simpl in H; try discriminate.
    inversion H; subst m1 tr1; clear H.
    destruct (started P m) eqn:Hs.
    + now pose proof (stop_spec P m tr st m' tr' Hs E)
        as (_ & _ & _ & _ & Hdef & _).
    + rewrite (stop_not_started P m tr Hs) in E. now inversion E.
  - split; [|apply Hquiet; intros []; simpl; auto; discriminate].
    destruct (started P m) eqn:Hs.
    + destruct (Z.eq_dec (hwpagetable m) pt) as [He|Hne].
      * rewrite setstate_idle in H by auto. now inversion H.
      * now pose proof (setstate_switch_spec P m tr pt ctx m' tr' Hs Hne H)
          as (_ & _ & _ & Hdef & _).
    + rewrite setstate_idle in H by auto. now inversion H.
Qed.

(** X14.  Once the controller has a default pagetable it keeps that very
    one: no sequence of init, start, stop and setstate changes the pointer,
    and none asks [kgsl_mmu_getpagetable] for the global pagetable again. *)
Theorem default_pagetable_is_fetched_once (P : platform) (ops : list op)
  (s s' : state) :
  defaultpagetable (fst s) <> 0 ->
  run P ops s = Ok s' ->
  defaultpagetable (fst s') = defaultpagetable (fst s) /\
  pagetable_gets (snd s') = pagetable_gets (snd s).
Proof.
  revert s. induction ops as [|o rest IH]; intros s Hd Hrun; simpl in Hrun.
  - inversion Hrun; subst. auto.
  - destruct (exec P o s) as [s1| |] eqn:E; simpl in Hrun; try discriminate.
    destruct (exec_keeps_default P o s s1 Hd E) as [Hd1 Hg1].
    destruct (IH s1) as [Hd2 Hg2]; [congruence | exact Hrun |].
    split; congruence.
Qed.

Lemma default_pagetable_is_fetched_once_witness :
  exists s s',
    run (board 0 0 true) [OpInit board_pdata; OpStart] (fresh_mmu, [])
    = Ok s /\
    run (board 0 0 true) [OpSetstate 2000 0; OpStop; OpStart; OpStop; OpStart]
      s = Ok s' /\
    defaultpagetable (fst s') = 1000 /\ pagetable_gets (snd s') = 1%nat.
Proof.
  assert (Hrun : run (board 0 0 true) [OpInit board_pdata; OpStart]
                   (fresh_mmu, []) = Ok _) by (vm_compute; reflexivity).
  match type of Hrun with _ = Ok ?s =>
    assert (Hrun2 : run (board 0 0 true)
                      [OpSetstate 2000 0; OpStop; OpStart; OpStop; OpStart] s
                    = Ok _) by (vm_compute; reflexivity);
    match type of Hrun2 with run _ ?ops _ = Ok ?s' =>
      destruct (default_pagetable_is_fetched_once (board 0 0 true) ops s s')
        as [Hd Hg]; [vm_compute; discriminate | exact Hrun2 |]
    end
  end.
  do 2 eexists. split; [exact Hrun|]. split; [exact Hrun2|].
  split; [exact Hd | exact Hg].
Defined.

(** ** Repeated start and stop *)

(** X15.  Stopping a second time and starting a second time do nothing.
    After a stop that returned, another stop returns 0 with the controller
    and the history untouched; and where the started flag is a real bit,
    after a start that returned 0 another start does the same: no register
    write, no attach. *)
Theorem stop_and_start_are_idempotent (P : platform) (m : kgsl_mmu)
  (tr : list event) (m' : kgsl_mmu) (tr' : list event) :
  KGSL_FLAGS_STARTED P <> 0 ->
  (forall rc, kgsl_iommu_stop P m tr = Ok (rc, m', tr') ->
              kgsl_iommu_stop P m' tr' = Ok (0, m', tr')) /\
  (kgsl_iommu_start P m tr = Ok (0, m', tr') ->
   kgsl_iommu_start P m' tr' = Ok (0, m', tr')).
Proof.
  intros Hbit. split.
  - intros rc H. apply stop_not_started.
    destruct (started P m) eqn:Hs.
    + now pose proof (stop_spec P m tr rc m' tr' Hs H) as (_ & _ & Hoff & _).
    + rewrite (stop_not_started P m tr Hs) in H. inversion H; subst.
      exact Hs.
  - intros H.
    assert (Hon : started P m' = true).
    { destruct (started P m) eqn:Hs.
      - unfold kgsl_iommu_start in H. rewrite Hs in H.
        inversion H; subst. exact Hs.
      - pose proof (start_spec P m tr 0 m' tr' Hs H) as (_ & _ & _ & Hcase).
        destruct Hcase as [(_ & Hst & _) | (domain & _ & _ & _ & Hcase)].
        + discriminate Hst.
        + destruct Hcase as [(_ & Hf & _) | (Hnz & _)]; [|contradiction].
          unfold started. rewrite Hf, land_lor_same.
          apply Z.eqb_neq in Hbit. now rewrite Hbit. }
    unfold kgsl_iommu_start. now rewrite Hon.
Qed.

Lemma stop_and_start_are_idempotent_witness :
  exists m tr m' tr',
    run (board 0 0 true) [OpInit board_pdata] (fresh_mmu, []) = Ok (m, tr) /\
    kgsl_iommu_start (board 0 0 true) m tr = Ok (0, m', tr') /\
    kgsl_iommu_start (board 0 0 true) m' tr' = Ok (0, m', tr').
Proof.
  assert (Hrun : run (board 0 0 true) [OpInit board_pdata] (fresh_mmu, [])
                 = Ok _) by (vm_compute; reflexivity).
  match type of Hrun with _ = Ok (?m, ?tr) =>
    assert (E : kgsl_iommu_start (board 0 0 true) m tr = Ok _)
      by (vm_compute; reflexivity)
  end.
  match type of E with kgsl_iommu_start ?P ?m ?tr = Ok (_, ?m', ?tr') =>
    destruct (stop_and_start_are_idempotent P m tr m' tr') as [_ Hagain];
      [vm_compute; discriminate|]
  end.
  do 4 eexists. split; [exact Hrun|]. split; [exact E | exact (Hagain E)].
Defined.

(** ** Array bounds *)

(** X16.  From a controller without private state, whatever sequence of
    init, start, stop and setstate runs to its end leaves a controller
    whose private state, if it has one, keeps its counts inside its arrays:
    no more units in use than the unit array holds, and in every unit in
    use no more contexts than its context array holds. *)
Theorem counts_stay_inside_the_arrays (P : platform) (ops : list op)
  (m : kgsl_mmu) (tr : list event) (s' : state) :
  priv m = None ->
  run P ops (m, tr) = Ok s' ->
  forall i, priv (fst s') = Some i ->
    (unit_count i <= List.length (iommu_units i))%nat /\
    forall u, In u (firstn (unit_count i) (iommu_units i)) ->
      (dev_count u <= List.length (devs u))%nat.
Proof.
  intros Hp Hrun i Hi.
  assert (H0 : wf_if_initialised (fst (m, tr))).
  { intros j Hj. simpl in Hj. congruence. }
  pose proof (run_keeps_wf P ops (m, tr) s' H0 Hrun) as Hwf.
  destruct (Hwf i Hi) as [Hc Hall].
  split; [exact Hc|]. intros u Hu.
  rewrite Forall_forall in Hall. exact (Hall u Hu).
Qed.

Lemma counts_stay_inside_the_arrays_witness :
  exists s' i,
    run (board 0 0 true) [OpInit board_pdata; OpStart; OpStop]
      (fresh_mmu, []) = Ok s' /\
    priv (fst s') = Some i /\
    (unit_count i <= List.length (iommu_units i))%nat.
Proof.
  assert (Hrun : run (board 0 0 true) [OpInit board_pdata; OpStart; OpStop]
                   (fresh_mmu, []) = Ok _) by (vm_compute; reflexivity).
  match type of Hrun with run ?P ?ops _ = Ok ?s' =>
    pose proof (counts_stay_inside_the_arrays P ops fresh_mmu [] s'
                  eq_refl Hrun) as Hin
  end.
  do 2 eexists. split; [exact Hrun|]. split; [reflexivity|].
  exact (proj1 (Hin _ eq_refl)).
Defined.

(** * The crash path *)

Lemma crash_wait_bounds (E : crash_env) :
  forall (msecs : nat) (tr : list crash_event),
    (fst (crash_wait E msecs tr) <= msecs)%nat /\
    delay_ms (snd (crash_wait E msecs tr))
    = delay_ms tr + Z.of_nat (msecs - fst (crash_wait E msecs tr)) /\
    crash_warnings (snd (crash_wait E msecs tr)) = crash_warnings tr.
Proof.
  induction msecs as [|k IH]; intros tr; cbn [crash_wait].
  - destruct (0 <? atomic_read E tr); simpl; repeat split; lia.
  - destruct (0 <? atomic_read E tr).
    + destruct (IH (EvMdelay 1 :: EvAtomicRead (atomic_read E tr) :: tr))
        as (Hk & Hd & Hw).
      destruct (crash_wait E k _) as [k' tr']. cbn [fst snd] in *.
      split; [lia|]. split; [|exact Hw].
      change (delay_ms (EvMdelay 1 :: EvAtomicRead (atomic_read E tr) :: tr))
        with (1 + delay_ms tr) in Hd.
      lia.
    + cbn [fst snd]. split; [lia|]. split; [|reflexivity].
      change (delay_ms (EvAtomicRead (atomic_read E tr) :: tr))
        with (delay_ms tr).
      lia.
Qed.

(** X17.  Whatever the other CPUs do, [machine_crash_shutdown] comes to
    its end having waited at most 1000 delays of one millisecond, prints at
    most one warning, and finishes by saving the registers of the crashing
    CPU and announcing the crashdump kernel, in that order. *)
Theorem crash_shutdown_waits_at_most_a_second (E : crash_env)
  (tr : list crash_event) :
  delay_ms tr <= delay_ms (machine_crash_shutdown E tr)
             <= delay_ms tr + 1000 /\
  (crash_warnings tr <= crash_warnings (machine_crash_shutdown E tr)
                     <= crash_warnings tr + 1)%nat /\
  exists tr0,
    machine_crash_shutdown E tr
    = EvPrintk KERN_INFO "Loading crashdump kernel..."
        :: EvCrashSaveCpu (smp_processor_id E) :: tr0.
Proof.
  unfold machine_crash_shutdown.
  set (tr1 := EvSmpCallFunction :: EvAtomicSet (num_online_cpus E - 1)
                :: EvLocalIrqDisable :: tr).
  destruct (crash_wait_bounds E 1000 tr1) as (Hk & Hd & Hw).
  destruct (crash_wait E 1000 tr1) as [k tr2]. cbn [fst snd] in *.
  change (delay_ms tr1) with (delay_ms tr) in Hd.
  change (crash_warnings tr1) with (crash_warnings tr) in Hw.
  destruct (0 <? atomic_read E tr2); simpl;
    (split; [lia|]); (split; [unfold crash_warnings in *; simpl; lia|]);
    eexists; reflexivity.
Qed.

Lemma crash_wait_latency (E : crash_env) (deadline : Z) :
  (forall h, (0 <? atomic_read E h) = (delay_ms h <? deadline)) ->
  forall (msecs : nat) (tr : list crash_event),
    delay_ms (snd (crash_wait E msecs tr))
    = delay_ms tr + Z.max 0 (Z.min (Z.of_nat msecs) (deadline - delay_ms tr)).
Proof.
  intros Hread. induction msecs as [|k IH]; intros tr.
  - simpl. destruct (0 <? atomic_read E tr); simpl; lia.
  - cbn [crash_wait]. rewrite Hread.
    destruct (delay_ms tr <? deadline) eqn:Hlt.
    + apply Z.ltb_lt in Hlt. rewrite IH.
      change (delay_ms (EvMdelay 1 :: EvAtomicRead (atomic_read E tr) :: tr))
        with (1 + delay_ms tr).
      lia.
    + apply Z.ltb_ge in Hlt. cbn [snd].
      change (delay_ms (EvAtomicRead (atomic_read E tr) :: tr))
        with (delay_ms tr).
      lia.
Qed.

(** X18.  When the other CPUs take [latency] milliseconds to answer, that
    is when a read of the counter finds it positive exactly as long as
    fewer than [latency] delays have passed since the call, the wait lasts
    [latency] delays, capped at 1000, and the warning is printed exactly
    when [latency] is more than 1000. *)
Theorem crash_shutdown_waits_for_the_cpus (E : crash_env)
  (tr : list crash_event) (latency : Z) :
  0 <= latency ->
  (forall h, (0 <? atomic_read E h) = (delay_ms h <? delay_ms tr + latency)) ->
  delay_ms (machine_crash_shutdown E tr)
  = delay_ms tr + Z.min latency 1000 /\
  crash_warnings (machine_crash_shutdown E tr)
  = (crash_warnings tr + if (1000 <? latency)%Z then 1 else 0)%nat.
Proof.
  intros Hpos Hread. unfold machine_crash_shutdown.
  set (tr1 := EvSmpCallFunction :: EvAtomicSet (num_online_cpus E - 1)
                :: EvLocalIrqDisable :: tr).
  pose proof (crash_wait_latency E _ Hread 1000 tr1) as Hl.
  destruct (crash_wait_bounds E 1000 tr1) as (_ & _ & Hw).
  destruct (crash_wait E 1000 tr1) as [k tr2]. cbn [fst snd] in *.
  change (delay_ms tr1) with (delay_ms tr) in Hl.
  change (crash_warnings tr1) with (crash_warnings tr) in Hw.
  rewrite Hread.
  destruct (delay_ms tr2 <? delay_ms tr + latency) eqn:Hlt.
  - apply Z.ltb_lt in Hlt.
    assert (Hmore : (1000 <? latency) = true) by (apply Z.ltb_lt; lia).
    rewrite Hmore. split; [simpl delay_ms; lia|].
    unfold crash_warnings in *. simpl. lia.
  - apply Z.ltb_ge in Hlt.
    assert (Hless : (1000 <? latency) = false) by (apply Z.ltb_ge; lia).
    rewrite Hless. split; [simpl delay_ms; lia|].
    unfold crash_warnings in *. simpl. lia.
Qed.

Lemma crash_shutdown_waits_for_the_cpus_witness :
  delay_ms (machine_crash_shutdown (crash_board 2 0 30) []) = 30 /\
  crash_warnings (machine_crash_shutdown (crash_board 2 0 30) []) = 0%nat /\
  delay_ms (machine_crash_shutdown (crash_board 4 0 5000) []) = 1000 /\
  crash_warnings (machine_crash_shutdown (crash_board 4 0 5000) []) = 1%nat.
Proof.
  destruct (crash_shutdown_waits_for_the_cpus (crash_board 2 0 30) [] 30)
    as [Hd Hw]; [lia | |].
  { intros h. simpl. now destruct (delay_ms h <? 30). }
  destruct (crash_shutdown_waits_for_the_cpus (crash_board 4 0 5000) [] 5000)
    as [Hd' Hw']; [lia | |].
  { intros h. simpl. now destruct (delay_ms h <? 5000). }
  split; [exact Hd|]. split; [exact Hw|]. split; [exact Hd' | exact Hw'].
Defined.
